(** * The joint training orchestration of [examples/simple_trainer.py]

    A shallow embedding of the trainer of the low-light Gaussian-splatting
    pipeline: the Retinex decomposition step, the composition of the
    illumination losses, the construction of the scene state with its
    optimizers, the dual rasterization entry point, the loss of a training
    step, the configuration checks and the file-writing stages.

    Conventions of the embedding.
    - [torch] float tensors are modelled over the real numbers [R]: rounding
      is outside the model, and an equation proved here is the exact identity
      that the floating-point code approximates.
    - An image is a list of positions, each holding its channel vector; the
      [permute] calls of the source only change the memory layout and are the
      identity here.
    - Python exceptions are values of [Exn]; code that can raise returns a
      [Result].
    - External collaborators (the renderer, the loss modules, the networks,
      the metric modules) are parameters of the sections that use them. *)

From Stdlib Require Import Reals Lra Lia List String Bool ZArith.
From stdpp Require Import base option list gmap strings.
Import ListNotations.

Open Scope R_scope.

(* ================================================================== *)
(** * Python exceptions *)

Inductive Exn : Type :=
| ValueError (msg : string)
| AssertionError (msg : string)
| IndexError (msg : string)
| KeyError (key : string)
| ZeroDivisionError
| RuntimeError (msg : string).

Inductive Result (A : Type) : Type :=
| Ok (a : A)
| Raise (e : Exn).
Arguments Ok {A} a.
Arguments Raise {A} e.

#[global] Instance result_ret : MRet Result := fun _ a => Ok a.

#[global] Instance result_bind : MBind Result := fun _ _ k r =>
  match r with
  | Ok a => k a
  | Raise e => Raise e
  end.

Definition raises {A : Type} (r : Result A) : Prop :=
  match r with
  | Ok _ => False
  | Raise _ => True
  end.

Definition returns {A : Type} (r : Result A) : Prop :=
  match r with
  | Ok _ => True
  | Raise _ => False
  end.

(* ================================================================== *)
(** * The configuration object

    [config.Config] is a flat dataclass; the fields read by the modelled
    code are kept under their names. *)

(** The density-adaptation strategy held by [cfg.strategy]: one of the two
    classes the trainer knows, or an object of any other type. *)
Inductive Strategy : Type :=
| DefaultStrategy (absgrad : bool)
| MCMCStrategy
| OtherStrategy (type_name : string).

Record Config : Type := {
  (* feature toggles *)
  enable_retinex : bool;
  use_hsv_color_space : bool;
  use_illum_opt : bool;
  multi_scale_retinex : bool;
  enable_dynamic_weights : bool;
  learn_global_exposure : bool;
  learn_local_exposure : bool;
  pretrain_retinex : bool;
  app_opt : bool;
  pose_opt : bool;
  depth_loss : bool;
  use_bilateral_grid : bool;
  random_bkgd : bool;
  packed : bool;
  sparse_grad : bool;
  visible_adam : bool;
  antialiased : bool;
  save_ply : bool;
  disable_video : bool;
  tb_save_image : bool;
  (* enumerations *)
  init_type : string;
  compression : option string;
  lpips_net : string;
  render_traj_path : string;
  strategy : Strategy;
  (* static weights of the twelve illumination terms *)
  lambda_reflect : R;
  lambda_illum_color : R;
  lambda_illum_exposure : R;
  lambda_smooth : R;
  lambda_illum_curve : R;
  lambda_laplacian : R;
  lambda_gradient : R;
  lambda_frequency : R;
  lambda_edge_aware_smooth : R;
  lambda_illum_exposure_local : R;
  lambda_illum_frequency : R;
  lambda_exclusion : R;
  (* top-level mixing coefficients and regularizers *)
  lambda_low : R;
  lambda_illumination : R;
  ssim_lambda : R;
  depth_lambda : R;
  opacity_reg : R;
  scale_reg : R;
  (* initialization and learning rates *)
  init_num_pts : nat;
  init_extent : R;
  init_opa : R;
  init_scale : R;
  global_scale : R;
  means_lr : R;
  scales_lr : R;
  opacities_lr : R;
  quats_lr : R;
  sh0_lr : R;
  shN_lr : R;
  sh_degree : nat;
  batch_size : nat;
  (* schedule *)
  max_steps : Z;
  pretrain_steps : Z;
  tb_every : Z;
  save_steps : list Z;
  eval_steps : list Z;
  ply_steps : list Z
}.

(* ================================================================== *)
(** * The fragment of [torch] the trainer uses, over the reals *)

Module torch.

(** Channel vector at one (batch, row, column) position. *)
Abbreviation Px := (list R) (only parsing).

(** An image batch: one channel vector per position. *)
Abbreviation Img := (list (list R)) (only parsing).

(** [torch.finfo(torch.float32).eps], the value of [epsilon] for the
    float32 pixels the data loader yields. *)
Definition finfo_eps : R := / 2 ^ 23.

Definition relu (x : R) : R := Rmax x 0.

(** [torch.clamp(x, min=lo)] *)
Definition clamp_min (lo x : R) : R := Rmax x lo.

(** [torch.clamp(x, lo, hi)], which is [min(max(x, lo), hi)] *)
Definition clamp (lo hi x : R) : R := Rmin (Rmax x lo) hi.

Definition sigmoid (x : R) : R := / (1 + exp (- x)).

(** Element-wise lifting of a unary and of a binary operation. The operands
    of a binary operation have one shape in the modelled code; nothing is
    broadcast here. *)
Definition img_map (f : R -> R) (a : Img) : Img := map (map f) a.

Definition img_map2 (f : R -> R -> R) (a b : Img) : Img :=
  zip_with (zip_with f) a b.

(** [t[:, lo:hi, :, :]] on a channel-first image. *)
Definition channels (lo hi : nat) (a : Img) : Img :=
  map (fun px => take (hi - lo) (drop lo px)) a.

(** [torch.cat([a, b, c], dim=1)] *)
Definition cat3 (a b c : Img) : Img :=
  zip_with (fun x yz => x ++ yz) a (zip_with (fun y z => y ++ z) b c).

(** Entry of an image at position [i], channel [c]. *)
Definition at_ (a : Img) (i c : nat) : option R :=
  match a !! i with
  | Some px => px !! c
  | None => None
  end.

(** One-dimensional tensors (stacks of scalars). *)
Definition vsum (v : list R) : R := foldr Rplus 0 v.

Definition vmul (a b : list R) : list R := zip_with Rmult a b.

(** [torch.mean] of all the entries of a (non-empty) image. *)
Definition mean (a : Img) : R :=
  vsum (concat a) / INR (length (concat a)).

End torch.

(* ================================================================== *)
(** * [kornia.color]: the colour-space conversions of the HSV mode

    [kornia] is an external library; the two conversions are written per
    position from its formulas (hue in radians, in [0, 2 pi)). *)

Module kornia.

(** Python's float [%] for a positive modulus. *)
Definition fmod (x m : R) : R := x - m * IZR (Int_part (x / m)).

Definition floor (x : R) : R := IZR (Int_part x).

Definition Rleb (x y : R) : bool := if Rle_dec x y then true else false.

Definition Reqb (x y : R) : bool := if Req_dec_T x y then true else false.

(** Index of the (first) largest channel. *)
Definition argmax3 (r g b : R) : nat :=
  if Rleb g r && Rleb b r then 0%nat
  else if Rleb b g then 1%nat else 2%nat.

Definition rgb_to_hsv (px : torch.Px) : torch.Px :=
  match px with
  | [r; g; b] =>
      let max_rgb := Rmax r (Rmax g b) in
      let min_rgb := Rmin r (Rmin g b) in
      let deltac := max_rgb - min_rgb in
      let v := max_rgb in
      let s := deltac / (max_rgb + 1 / 10 ^ 8) in
      let deltac := if Reqb deltac 0 then 1 else deltac in
      let rc := max_rgb - r in
      let gc := max_rgb - g in
      let bc := max_rgb - b in
      let h1 := bc - gc in
      let h2 := (rc - bc) + 2 * deltac in
      let h3 := (gc - rc) + 4 * deltac in
      let h := match argmax3 r g b with
               | O => h1 / deltac
               | S O => h2 / deltac
               | _ => h3 / deltac
               end in
      let h := fmod (h / 6) 1 in
      let h := 2 * PI * h in
      [h; s; v]
  | _ => []
  end.

Definition hsv_to_rgb (px : torch.Px) : torch.Px :=
  match px with
  | [h; s; v] =>
      let h := h / (2 * PI) in
      let hi := fmod (floor (h * 6)) 6 in
      let f := fmod (h * 6) 6 - hi in
      let p := v * (1 - s) in
      let q := v * (1 - f * s) in
      let t := v * (1 - (1 - f) * s) in
      match Int_part hi with
      | 0%Z => [v; t; p]
      | 1%Z => [q; v; p]
      | 2%Z => [p; v; t]
      | 3%Z => [p; q; v]
      | 4%Z => [t; p; v]
      | _ => [v; p; q]
      end
  | _ => []
  end.

End kornia.

(* ================================================================== *)
(** * The Retinex decomposition step: [Runner.get_retinex_output] *)

Module Retinex.
Import torch.

Section Decomposition.

(** Per-image embedding rows and the auxiliary outputs of the network
    (curve parameters, local exposure, dynamic weights) are opaque. *)
Variable Emb : Type.
Variable Aux : Type.

(** The five outputs of [self.retinex_net]. *)
Record NetOut : Type := {
  log_illumination_map : Img;
  net_alpha : Aux;
  net_beta : Aux;
  net_local_exposure : Aux;
  net_weights : Aux
}.

(** [self.retinex_embeds] and [self.retinex_net] *)
Variable retinex_embeds : list nat -> Emb.
Variable retinex_net : Img -> Emb -> NetOut.

(** The image handed to the network: the pixels themselves, or their
    value channel. *)
Definition input_image_for_net (use_hsv_color_space : bool) (pixels : Img) : Img :=
  if use_hsv_color_space
  then channels 2 3 (map kornia.rgb_to_hsv pixels)
  else pixels.

Definition log_input_image (use_hsv_color_space : bool) (pixels : Img) : Img :=
  img_map (fun x => ln (x + finfo_eps)) (input_image_for_net use_hsv_color_space pixels).

Definition net_out (use_hsv_color_space : bool) (images_ids : list nat) (pixels : Img)
  : NetOut :=
  retinex_net (input_image_for_net use_hsv_color_space pixels)
              (retinex_embeds images_ids).

(** [illumination_map = torch.exp(log_illumination_map)] *)
Definition exp_illumination (use_hsv_color_space : bool) (images_ids : list nat)
    (pixels : Img) : Img :=
  img_map exp
    (log_illumination_map (net_out use_hsv_color_space images_ids pixels)).

(** [illumination_map = torch.clamp(illumination_map, min=1e-5)] *)
Definition illumination_map (use_hsv_color_space : bool) (images_ids : list nat)
    (pixels : Img) : Img :=
  img_map (clamp_min (1 / 10 ^ 5))
    (exp_illumination use_hsv_color_space images_ids pixels).

Definition log_reflectance_target (use_hsv_color_space : bool)
    (images_ids : list nat) (pixels : Img) : Img :=
  img_map2 Rminus
    (log_input_image use_hsv_color_space pixels)
    (log_illumination_map (net_out use_hsv_color_space images_ids pixels)).

(** [torch.exp(log_reflectance_target)]: the reflectance in the working
    colour space. It is the returned map before clamping in the RGB
    mode, and [reflectance_v_target], the value channel of the
    reflectance, in the HSV mode. *)
Definition reflectance_v_target (use_hsv_color_space : bool)
    (images_ids : list nat) (pixels : Img) : Img :=
  img_map exp (log_reflectance_target use_hsv_color_space images_ids pixels).

(** [reflectance_map] before the final clamp. *)
Definition reflectance_unclamped (use_hsv_color_space : bool)
    (images_ids : list nat) (pixels : Img) : Img :=
  if use_hsv_color_space then
    let pixels_hsv := map kornia.rgb_to_hsv pixels in
    let h_channel := channels 0 1 pixels_hsv in
    let s_channel_dampened := channels 1 2 pixels_hsv in
    let reflectance_hsv_target :=
      cat3 h_channel s_channel_dampened
           (reflectance_v_target true images_ids pixels) in
    map kornia.hsv_to_rgb reflectance_hsv_target
  else
    reflectance_v_target false images_ids pixels.

(** [reflectance_map = torch.clamp(reflectance_map, 0, 1)] *)
Definition reflectance_map (use_hsv_color_space : bool) (images_ids : list nat)
    (pixels : Img) : Img :=
  img_map (clamp 0 1)
    (reflectance_unclamped use_hsv_color_space images_ids pixels).

(** The seven returned values. *)
Definition get_retinex_output (use_hsv_color_space : bool) (images_ids : list nat)
    (pixels : Img) : Img * Img * Img * Aux * Aux * Aux * Aux :=
  let out := net_out use_hsv_color_space images_ids pixels in
  (input_image_for_net use_hsv_color_space pixels,
   illumination_map use_hsv_color_space images_ids pixels,
   reflectance_map use_hsv_color_space images_ids pixels,
   net_alpha out, net_beta out, net_local_exposure out, net_weights out).

End Decomposition.

Arguments log_illumination_map {Aux} _.
Arguments net_alpha {Aux} _.
Arguments net_beta {Aux} _.
Arguments net_local_exposure {Aux} _.
Arguments net_weights {Aux} _.
Arguments net_out {Emb Aux} _ _ _ _ _.
Arguments exp_illumination {Emb Aux} _ _ _ _ _.
Arguments illumination_map {Emb Aux} _ _ _ _ _.
Arguments reflectance_unclamped {Emb Aux} _ _ _ _ _.
Arguments log_reflectance_target {Emb Aux} _ _ _ _ _.
Arguments reflectance_v_target {Emb Aux} _ _ _ _ _.
Arguments reflectance_map {Emb Aux} _ _ _ _ _.
Arguments get_retinex_output {Emb Aux} _ _ _ _ _.

End Retinex.

(* ================================================================== *)
(** * The composition of the illumination losses:
      [Runner.retinex_train_step] *)

Module LossComposer.
Import torch.

Section Composition.

Variable Emb : Type.
Variable Aux : Type.
Variable retinex_embeds : list nat -> Emb.
Variable retinex_net : Img -> Emb -> Retinex.NetOut Aux.

(** The loss modules built in [Runner.__init__] (module [losses]). *)
Record LossModules : Type := {
  loss_color : Img -> R;
  loss_exposure : Img -> option R -> R;
  loss_smooth : Img -> R;
  loss_spatial : Img -> Img -> R -> list nat -> R;
  loss_adaptive_curve : Img -> Aux -> Aux -> R;
  loss_details : Img -> Img;
  loss_gradient : Img -> Img -> R;
  loss_frequency : Img -> Img -> R;
  loss_edge_aware_smooth : Img -> Img -> R;
  loss_exposure_local : Img -> option Aux -> R;
  loss_illum_frequency : Img -> R;
  loss_exclusion : Img -> Img -> R
}.

Variable L : LossModules.

(** [self.global_mean_val_param] and the [log_vars] attribute of the
    multi-scale network. *)
Variable global_mean_val_param : R.
Variable log_vars : list R.

(** [torch.stack([...])] of the twelve unweighted terms, in the order of
    the source. *)
Definition individual_losses (cfg : Config) (images_ids : list nat) (pixels : Img)
  : list R :=
  let '(input_image_for_net, illumination_map, reflectance_map,
        alpha, beta, local_exposure_mean, _) :=
    Retinex.get_retinex_output retinex_embeds retinex_net
      (use_hsv_color_space cfg) images_ids pixels in
  let global_mean_val_target := sigmoid global_mean_val_param in
  let loss_color_val :=
    if negb (use_hsv_color_space cfg) then loss_color L illumination_map else 0 in
  let loss_smoothing := loss_smooth L illumination_map in
  let loss_adaptive_curve_val := loss_adaptive_curve L reflectance_map alpha beta in
  let loss_exposure_val :=
    if learn_global_exposure cfg
    then loss_exposure L reflectance_map (Some global_mean_val_target)
    else loss_exposure L reflectance_map None in
  let con_degree := (5 / 10) / mean pixels in
  let loss_reflectance_spa :=
    loss_spatial L input_image_for_net reflectance_map con_degree images_ids in
  let loss_laplacian_val :=
    mean (img_map Rabs (img_map2 Rminus (loss_details L reflectance_map)
                                        (loss_details L input_image_for_net))) in
  let loss_gradient_val := loss_gradient L input_image_for_net reflectance_map in
  let loss_frequency_val := loss_frequency L input_image_for_net reflectance_map in
  let loss_smooth_edge_aware :=
    loss_edge_aware_smooth L illumination_map input_image_for_net in
  let loss_exposure_local_val :=
    if learn_local_exposure cfg
    then loss_exposure_local L reflectance_map (Some local_exposure_mean)
    else loss_exposure_local L reflectance_map None in
  let loss_illumination_frequency_penalty := loss_illum_frequency L illumination_map in
  let loss_exclusion_val := loss_exclusion L reflectance_map illumination_map in
  [ loss_reflectance_spa;
    loss_color_val;
    loss_exposure_val;
    loss_smoothing;
    loss_adaptive_curve_val;
    loss_laplacian_val;
    loss_gradient_val;
    loss_frequency_val;
    loss_smooth_edge_aware;
    loss_exposure_local_val;
    loss_illumination_frequency_penalty;
    loss_exclusion_val ].

Definition base_lambdas (cfg : Config) : list R :=
  [ lambda_reflect cfg;
    lambda_illum_color cfg;
    lambda_illum_exposure cfg;
    lambda_smooth cfg;
    lambda_illum_curve cfg;
    lambda_laplacian cfg;
    lambda_gradient cfg;
    lambda_frequency cfg;
    lambda_edge_aware_smooth cfg;
    lambda_illum_exposure_local cfg;
    lambda_illum_frequency cfg;
    lambda_exclusion cfg ].

(** [(base_lambdas * individual_losses * torch.exp(-log_vars) / 2.0).sum()] *)
Definition term1 (lambdas losses vars : list R) : R :=
  vsum (map (fun x => x / 2)
          (vmul (vmul lambdas losses) (map (fun v => exp (- v)) vars))).

(** [(0.5 * log_vars).sum()] *)
Definition term2 (vars : list R) : R :=
  vsum (map (fun v => (5 / 10) * v) vars).

(** The total before the clipping penalty, by weighting mode. *)
Definition weighted_total (cfg : Config) (losses : list R) : R :=
  if enable_dynamic_weights cfg && multi_scale_retinex cfg
  then term1 (base_lambdas cfg) losses log_vars + term2 log_vars
  else vsum (vmul (base_lambdas cfg) losses).

(** The two sums of the specification over the twelve terms, written
    by index: the sum of [static_weight_i * loss_i], and the sum of
    [static_weight_i * loss_i * exp(-v_i) / 2] plus the sum of
    [v_i / 2]. *)
Definition sigma (n : nat) (f : nat -> R) : R :=
  vsum (map f (seq 0 n)).

Definition fixed_sum (weights losses : list R) : R :=
  sigma 12 (fun i => nth i weights 0 * nth i losses 0).

Definition kendall_sum (weights losses vars : list R) : R :=
  sigma 12 (fun i => nth i weights 0 * nth i losses 0 * exp (- nth i vars 0) / 2)
  + sigma 12 (fun i => nth i vars 0 / 2).

Definition loss_clipping_high (reflectance_map : Img) : R :=
  mean (img_map (fun x => relu (x - 98 / 100) ^ 2) reflectance_map).

Definition loss_clipping_low (reflectance_map : Img) : R :=
  mean (img_map (fun x => relu (2 / 100 - x) ^ 2) reflectance_map).

Definition lambda_clipping : R := 1.

(** The returned [total_loss]. The tensorboard logging in the middle of
    the function does not change it; it is modelled with the file-writing
    stages. *)
Definition retinex_train_step (cfg : Config) (images_ids : list nat) (pixels : Img)
  : R :=
  let reflectance_map :=
    Retinex.reflectance_map retinex_embeds retinex_net
      (use_hsv_color_space cfg) images_ids pixels in
  weighted_total cfg (individual_losses cfg images_ids pixels)
  + lambda_clipping
    * (loss_clipping_high reflectance_map + loss_clipping_low reflectance_map).

End Composition.

Arguments loss_color {Aux} _.
Arguments loss_exposure {Aux} _.
Arguments loss_smooth {Aux} _.
Arguments loss_spatial {Aux} _.
Arguments loss_adaptive_curve {Aux} _.
Arguments loss_details {Aux} _.
Arguments loss_gradient {Aux} _.
Arguments loss_frequency {Aux} _.
Arguments loss_edge_aware_smooth {Aux} _.
Arguments loss_exposure_local {Aux} _.
Arguments loss_illum_frequency {Aux} _.
Arguments loss_exclusion {Aux} _.
Arguments individual_losses {Emb Aux} _ _ _ _ _ _ _.
Arguments retinex_train_step {Emb Aux} _ _ _ _ _ _ _ _.

End LossComposer.

(* ================================================================== *)
(** * The scene state and its optimizers:
      [create_splats_with_optimizers] and [Runner.__init__]

    In this part a tensor is abstracted to its shape: group names, leading
    dimensions and optimizer hyper-parameters do not depend on the entries
    ([torch.rand], [knn], [rgb_to_sh] and [torch.logit] only fill them, and
    are taken to return). *)

Module Scene.

Abbreviation Shape := (list nat) (only parsing).

(** The leading dimension of a per-Gaussian tensor. *)
Definition leading (s : Shape) : option nat := head s.

(** [parser.points] is an (n, 3) array and [parser.points_rgb] an (m, 3)
    array. *)
Record Parser : Type := {
  points : nat;
  points_rgb : nat;
  parser_scene_scale : R
}.

(** Rows of [t[start::step]] for a tensor of [n] rows. *)
Definition strided_rows (n start step : nat) : Result nat :=
  if (step =? 0)%nat
  then Raise (ValueError "slice step cannot be zero")
  else Ok ((n - start + (step - 1)) / step)%nat.

Inductive OptimizerClass : Type :=
| SparseAdam
| SelectiveAdam
| AdamW
| Adam.

(** An optimizer over one parameter group: the group it references (by
    name) and its hyper-parameters. *)
Record Optimizer : Type := {
  opt_class : OptimizerClass;
  opt_name : string;
  opt_lr : R;
  opt_eps : R;
  opt_betas : R * R
}.

(** [{k: v for ...}]: a later binding of a key replaces an earlier one. *)
Definition dict_of {V : Type} (kvs : list (string * V)) : gmap string V :=
  foldl (fun m kv => <[kv.1 := kv.2]> m) ∅ kvs.

(** The keyword arguments of [create_splats_with_optimizers] that the
    shapes and the optimizers depend on. *)
Record SplatArgs : Type := {
  a_init_type : string;
  a_init_num_pts : nat;
  a_means_lr : R;
  a_scales_lr : R;
  a_opacities_lr : R;
  a_quats_lr : R;
  a_sh0_lr : R;
  a_shN_lr : R;
  a_scene_scale : R;
  a_sh_degree : nat;
  a_sparse_grad : bool;
  a_visible_adam : bool;
  a_batch_size : nat;
  a_feature_dim : option nat;
  a_world_rank : nat;
  a_world_size : nat
}.

(** The list [params] of (name, tensor, learning rate) triples. *)
Definition build_params (parser : Parser) (a : SplatArgs)
  : Result (list (string * Shape * R)) :=
  '(points_rows, rgbs_rows) ←
    (if String.eqb (a_init_type a) "sfm" then
       Ok (points parser, points_rgb parser)
     else if String.eqb (a_init_type a) "random" then
       Ok (a_init_num_pts a, a_init_num_pts a)
     else
       Raise (ValueError "Please specify a correct init_type: sfm or random"));
  (* scales has one row per point, from the k-nearest-neighbour distances *)
  let scales_rows := points_rows in
  points_rows ← strided_rows points_rows (a_world_rank a) (a_world_size a);
  rgbs_rows ← strided_rows rgbs_rows (a_world_rank a) (a_world_size a);
  scales_rows ← strided_rows scales_rows (a_world_rank a) (a_world_size a);
  let N := points_rows in
  let params :=
    [ ("means"%string, [points_rows; 3%nat], a_means_lr a * a_scene_scale a);
      ("scales"%string, [scales_rows; 3%nat], a_scales_lr a);
      ("quats"%string, [N; 4%nat], a_quats_lr a);
      ("opacities"%string, [N], a_opacities_lr a) ] in
  '(params, colors) ←
    match a_feature_dim a with
    | None =>
        let colors := [N; ((a_sh_degree a + 1) ^ 2)%nat; 3%nat] in
        (* colors[:, 0, :] = rgb_to_sh(rgbs): the right-hand side has to
           broadcast to (N, 3) *)
        if (rgbs_rows =? N)%nat || (rgbs_rows =? 1)%nat then
          Ok (params ++
               [ ("sh0"%string, [N; 1%nat; 3%nat], a_sh0_lr a);
                 ("shN"%string, [N; ((a_sh_degree a + 1) ^ 2 - 1)%nat; 3%nat],
                  a_shN_lr a) ],
              colors)
        else
          Raise (RuntimeError "shape mismatch in colors[:, 0, :] = rgb_to_sh(rgbs)")
    | Some feature_dim =>
        let colors := [rgbs_rows; 3%nat] in
        Ok (params ++
             [ ("features"%string, [N; feature_dim], a_sh0_lr a);
               ("colors"%string, colors, a_sh0_lr a) ],
            colors)
    end;
  (* colors[:, :1, :] needs a tensor of three dimensions *)
  adjust ←
    match colors with
    | [n; _; c] => Ok [n; 1%nat; c]
    | _ => Raise (IndexError "too many indices for tensor")
    end;
  Ok (params ++
       [ ("adjust_k"%string, adjust, a_sh0_lr a);
         ("adjust_b"%string, adjust, a_sh0_lr a) ]).

(** What [params] is when it is built without an exception: the
    spherical-harmonics groups over [N] Gaussians. *)
Definition sh_params (a : SplatArgs) (N : nat) : list (string * Shape * R) :=
  [ ("means"%string, [N; 3%nat], a_means_lr a * a_scene_scale a);
    ("scales"%string, [N; 3%nat], a_scales_lr a);
    ("quats"%string, [N; 4%nat], a_quats_lr a);
    ("opacities"%string, [N], a_opacities_lr a);
    ("sh0"%string, [N; 1%nat; 3%nat], a_sh0_lr a);
    ("shN"%string, [N; ((a_sh_degree a + 1) ^ 2 - 1)%nat; 3%nat], a_shN_lr a);
    ("adjust_k"%string, [N; 1%nat; 3%nat], a_sh0_lr a);
    ("adjust_b"%string, [N; 1%nat; 3%nat], a_sh0_lr a) ].

(** The (name, learning rate) columns of [params]. *)
Definition group_lrs (a : SplatArgs) : list (string * R) :=
  map (fun p => (p.1.1, p.2)) (sh_params a 0).

(** [BS = batch_size * world_size] *)
Definition BS (a : SplatArgs) : nat := (a_batch_size a * a_world_size a)%nat.

Definition optimizer_class (a : SplatArgs) : OptimizerClass :=
  if a_sparse_grad a then SparseAdam
  else if a_visible_adam a then SelectiveAdam
  else AdamW.

(** The construction of the optimizers, one per entry of [params], which
    is never empty. [math.sqrt(BS)] is [0.0] for [BS = 0], and
    [1e-15 / math.sqrt(BS)] then raises before any constructor is called.
    The constructors of the three classes validate their keyword arguments:
    the epsilon is positive for [BS >= 1], the first beta
    [1 - BS * (1 - 0.9)] lies in [0, 1) exactly for [BS] from 1 to 10 (in
    the doubles as in the reals), and it is tested before the second one,
    which is in range whenever the first is. The learning rate is given in
    the parameter group and is not validated. The message of the
    [ValueError] ends in the value of the beta, left out here. *)
Definition create_splats_with_optimizers (parser : Parser) (a : SplatArgs)
  : Result (gmap string Shape * gmap string Optimizer) :=
  params ← build_params parser a;
  let splats := dict_of (map (fun p => (p.1.1, p.1.2)) params) in
  if (BS a =? 0)%nat then Raise ZeroDivisionError
  else if (10 <? BS a)%nat
  then Raise (ValueError "Invalid beta parameter at index 0")
  else
    let optimizers :=
      dict_of
        (map (fun p =>
                (p.1.1,
                 {| opt_class := optimizer_class a;
                    opt_name := p.1.1;
                    opt_lr := p.2 * sqrt (INR (BS a));
                    opt_eps := (1 / 10 ^ 15) / sqrt (INR (BS a));
                    opt_betas := (1 - INR (BS a) * (1 - 9 / 10),
                                  1 - INR (BS a) * (1 - 999 / 1000)) |}))
             params) in
    Ok (splats, optimizers).

(** The hyper-parameters [create_splats_with_optimizers] gives to the
    optimizer of a group with base learning rate [lr]. *)
Definition scaled (a : SplatArgs) (name : string) (lr : R) : Optimizer :=
  {| opt_class := optimizer_class a;
     opt_name := name;
     opt_lr := lr * sqrt (INR (BS a));
     opt_eps := (1 / 10 ^ 15) / sqrt (INR (BS a));
     opt_betas := (1 - INR (BS a) * (1 - 9 / 10),
                   1 - INR (BS a) * (1 - 999 / 1000)) |}.

(** The call of [create_splats_with_optimizers] in [Runner.__init__]. *)
Definition splat_args (parser : Parser) (world_rank world_size : nat) (cfg : Config)
  : SplatArgs :=
  {| a_init_type := init_type cfg;
     a_init_num_pts := init_num_pts cfg;
     a_means_lr := means_lr cfg;
     a_scales_lr := scales_lr cfg;
     a_opacities_lr := opacities_lr cfg;
     a_quats_lr := quats_lr cfg;
     a_sh0_lr := sh0_lr cfg;
     a_shN_lr := shN_lr cfg;
     a_scene_scale := parser_scene_scale parser * (11 / 10) * global_scale cfg;
     a_sh_degree := sh_degree cfg;
     a_sparse_grad := sparse_grad cfg;
     a_visible_adam := visible_adam cfg;
     a_batch_size := batch_size cfg;
     a_feature_dim := if app_opt cfg then Some 32%nat else None;
     a_world_rank := world_rank;
     a_world_size := world_size |}.

(** The state a strategy creates in [initialize_state]. *)
Inductive StrategyState : Type :=
| DefaultState (scene_scale : R)
| MCMCState.

(** [assert_never(x)] *)
Definition assert_never {A : Type} (s : Strategy) : Result A :=
  Raise (AssertionError "Expected code to be unreachable").

Inductive Compression : Type := PngCompression.

Inductive LpipsNet : Type := LpipsAlex | LpipsVgg.

Record Runner : Type := {
  cfg : Config;
  world_rank : nat;
  world_size : nat;
  scene_scale : R;
  illum_optimizers : list Optimizer;
  retinex_optimizer : option Optimizer;
  splats : gmap string Shape;
  optimizers : gmap string Optimizer;
  strategy_state : StrategyState;
  compression_method : option Compression;
  lpips : LpipsNet
}.

Section Init.

(** [cfg.strategy.check_sanity(splats, optimizers)], which may raise. *)
Variable check_sanity :
  Strategy -> gmap string Shape -> gmap string Optimizer -> Result unit.

(** The part of [Runner.__init__] that builds the scene state, selects
    the strategy state and validates the enumerations, in the order of
    the source. The blocks for the pose, appearance and bilateral-grid
    modules between the compression and the LPIPS checks validate no
    enumeration and are left out, as are the data set and the metrics. *)
Definition Runner_init (parser : Parser) (world_rank world_size : nat)
    (cfg : Config) : Result Runner :=
  let scene_scale := parser_scene_scale parser * (11 / 10) * global_scale cfg in
  let initial_lr := (1 / 10 ^ 3) * sqrt (INR (batch_size cfg)) in
  let illum_optimizers :=
    [ {| opt_class := AdamW; opt_name := "illum_module";
         opt_lr := initial_lr; opt_eps := 1 / 10 ^ 8;
         opt_betas := (9 / 10, 999 / 1000) |} ] in
  let retinex_optimizer :=
    if enable_retinex cfg then
      Some {| opt_class := AdamW; opt_name := "retinex_net";
              opt_lr := (1 / 10 ^ 4) * sqrt (INR (batch_size cfg));
              opt_eps := 1 / 10 ^ 8;
              opt_betas := (9 / 10, 999 / 1000) |}
    else None in
  '(splats, optimizers) ←
    create_splats_with_optimizers parser
      (splat_args parser world_rank world_size cfg);
  _ ← check_sanity (strategy cfg) splats optimizers;
  strategy_state ←
    match strategy cfg with
    | DefaultStrategy _ => Ok (DefaultState scene_scale)
    | MCMCStrategy => Ok MCMCState
    | OtherStrategy _ => assert_never (strategy cfg)
    end;
  compression_method ←
    match compression cfg with
    | None => Ok None
    | Some c =>
        if String.eqb c "png" then Ok (Some PngCompression)
        else Raise (ValueError ("Unknown compression strategy: " ++ c))
    end;
  lpips ←
    (if String.eqb (lpips_net cfg) "alex" then Ok LpipsAlex
     else if String.eqb (lpips_net cfg) "vgg" then Ok LpipsVgg
     else Raise (ValueError ("Unknown LPIPS network: " ++ lpips_net cfg)));
  Ok {| cfg := cfg;
        world_rank := world_rank;
        world_size := world_size;
        scene_scale := scene_scale;
        illum_optimizers := illum_optimizers;
        retinex_optimizer := retinex_optimizer;
        splats := splats;
        optimizers := optimizers;
        strategy_state := strategy_state;
        compression_method := compression_method;
        lpips := lpips |}.

End Init.

End Scene.

(* ================================================================== *)
(** * Optimizer steps and density adaptation during training

    Here a per-Gaussian tensor is the list of its rows, so that a structural
    mutation is an operation on rows. *)

Module Density.

Abbreviation Row := (list R) (only parsing).
Abbreviation Tensor := (list (list R)) (only parsing).

Definition zeros_like (r : Row) : Row := map (fun _ => 0) r.

(** The moment buffers an Adam-type optimizer keeps for its parameter. *)
Record AdamState : Type := {
  exp_avg : Tensor;
  exp_avg_sq : Tensor
}.

(** The scene state with, for every optimizer that has stepped, its
    internal state ([torch] creates it at the first step). *)
Record TrainState : Type := {
  params : gmap string Tensor;
  opt_state : gmap string AdamState
}.

Definition initial_state (tensors : gmap string Tensor) : TrainState :=
  {| params := tensors; opt_state := ∅ |}.

(** [len(self.splats["means"])] *)
Definition num_GS (st : TrainState) : nat :=
  length (default [] (params st !! "means"%string)).

Section Steps.

(** The update of one row by the optimizer: parameter row, gradient row
    and the two moment rows give the new three rows ([torch.optim]). *)
Variable adam_row : Row -> Row -> Row -> Row -> Row * Row * Row.

(** One row of [optimizer.step()]; a row without gradient is left as it
    is, a row without state starts from zero moments. *)
Definition step_row (grad : Tensor) (s : option AdamState) (i : nat) (p : Row)
  : Row * Row * Row :=
  let m := default (zeros_like p) (s ≫= fun s => exp_avg s !! i) in
  let v := default (zeros_like p) (s ≫= fun s => exp_avg_sq s !! i) in
  match grad !! i with
  | Some g => adam_row p g m v
  | None => (p, m, v)
  end.

(** [optimizer.step()] for the optimizer of one group. *)
Definition optimizer_step (grad : Tensor) (p : Tensor) (s : option AdamState)
  : Tensor * AdamState :=
  let rows := imap (step_row grad s) p in
  (map (fun r => r.1.1) rows,
   {| exp_avg := map (fun r => r.1.2) rows;
      exp_avg_sq := map (fun r => r.2) rows |}).

(** [for optimizer in self.optimizers.values(): optimizer.step()]: every
    group that received a gradient is stepped. *)
Definition optimizers_step (grads : gmap string Tensor) (st : TrainState)
  : TrainState :=
  {| params :=
       map_imap (fun name p =>
                   match grads !! name with
                   | Some g => Some (optimizer_step g p (opt_state st !! name)).1
                   | None => Some p
                   end) (params st);
     opt_state :=
       map_imap (fun name p =>
                   match grads !! name with
                   | Some g => Some (optimizer_step g p (opt_state st !! name)).2
                   | None => opt_state st !! name
                   end) (params st) |}.

End Steps.

(** Modelled from the spec: the structural mutations of a
    DensityAdaptationStrategy; the module [gsplat.strategy] that implements
    them is missing from the modelled sources. Section 4.5 of the
    specification: Gaussians are split or cloned ([Grow]: copies of the
    selected rows are appended), pruned ([Prune]: the masked rows are
    removed) or relocated ([Relocate]: a dead row takes the values of a live
    one); new rows get fresh optimizer state, removed rows' state is
    dropped, and scene state and optimizer state stay index-aligned. *)
Inductive Mutation : Type :=
| Grow (sel : list nat)
| Prune (mask : list bool)
| Relocate (moves : list (nat * nat))
| NoMutation.

(** Modelled from the spec: the rows selected by [sel] for cloning or
    splitting; an index outside the tensor selects nothing. *)
Definition gather (sel : list nat) (t : Tensor) : Tensor :=
  omap (fun i => t !! i) sel.

(** Modelled from the spec: pruning; rows whose mask bit is set are
    removed, rows beyond the mask stay. *)
Fixpoint prune_rows (mask : list bool) (t : Tensor) : Tensor :=
  match mask, t with
  | b :: mask', r :: t' =>
      if b then prune_rows mask' t' else r :: prune_rows mask' t'
  | _, _ => t
  end.

(** Modelled from the spec: relocation; for a move [(dead, alive)] the
    dead row takes the values of the live one. *)
Definition relocate_rows (moves : list (nat * nat)) (t : Tensor) : Tensor :=
  foldl (fun t mv =>
           match t !! mv.2 with
           | Some r => <[mv.1 := r]> t
           | None => t
           end) t moves.

(** Modelled from the spec: the optimizer state of a relocated row starts
    afresh. *)
Definition reset_rows (moves : list (nat * nat)) (t : Tensor) : Tensor :=
  foldl (fun t mv =>
           match t !! mv.1 with
           | Some r => <[mv.1 := zeros_like r]> t
           | None => t
           end) t moves.

(** Modelled from the spec: the mutation of one parameter group. *)
Definition mutate_param (m : Mutation) (t : Tensor) : Tensor :=
  match m with
  | Grow sel => t ++ gather sel t
  | Prune mask => prune_rows mask t
  | Relocate moves => relocate_rows moves t
  | NoMutation => t
  end.

(** Modelled from the spec: the same mutation on a moment buffer; new rows
    get fresh (zero) state, removed rows' state is dropped. *)
Definition mutate_buffer (m : Mutation) (t : Tensor) : Tensor :=
  match m with
  | Grow sel => t ++ map zeros_like (gather sel t)
  | Prune mask => prune_rows mask t
  | Relocate moves => reset_rows moves t
  | NoMutation => t
  end.

(** Modelled from the spec: [step_post_backward] applies its mutation to
    every group and to every optimizer's state. *)
Definition strategy_mutate (m : Mutation) (st : TrainState) : TrainState :=
  {| params := mutate_param m <$> params st;
     opt_state :=
       (fun s => {| exp_avg := mutate_buffer m (exp_avg s);
                    exp_avg_sq := mutate_buffer m (exp_avg_sq s) |})
         <$> opt_state st |}.

(** Modelled from the spec: the Gaussian count after a mutation, from the
    count before. *)
Fixpoint pruned_count (mask : list bool) (n : nat) : nat :=
  match mask, n with
  | b :: mask', S n' => if b then pruned_count mask' n' else S (pruned_count mask' n')
  | _, _ => n
  end.

(** Modelled from the spec: the Gaussian count after a mutation of a scene
    of [n] Gaussians. *)
Definition rows_after (m : Mutation) (n : nat) : nat :=
  match m with
  | Grow sel => n + length (filter (fun i => i < n)%nat sel)
  | Prune mask => pruned_count mask n
  | Relocate _ => n
  | NoMutation => n
  end.

(** What happens to the scene state in the training loop: an optimizer
    step over the groups, or the strategy's post-backward mutation. *)
Inductive Event : Type :=
| OptimizerStep (grads : gmap string Tensor)
| StrategyStep (m : Mutation).

Section Run.

Variable adam_row : Row -> Row -> Row -> Row -> Row * Row * Row.

Definition apply_event (st : TrainState) (e : Event) : TrainState :=
  match e with
  | OptimizerStep grads => optimizers_step adam_row grads st
  | StrategyStep m => strategy_mutate m st
  end.

Definition run (events : list Event) (st : TrainState) : TrainState :=
  foldl apply_event st events.

End Run.

(** The Gaussian count after a run: only strategy steps move it. *)
Definition count_after (events : list Event) (n : nat) : nat :=
  foldl (fun n e =>
           match e with
           | OptimizerStep _ => n
           | StrategyStep m => rows_after m n
           end) n events.

(** Every group has [n] rows, and so has every moment buffer of every
    optimizer state. *)
Definition aligned (n : nat) (st : TrainState) : Prop :=
  map_Forall (fun _ t => length t = n) (params st) /\
  map_Forall (fun _ s => length (exp_avg s) = n /\ length (exp_avg_sq s) = n)
             (opt_state st).

(** A table of rows has the shapes that [create_splats_with_optimizers]
    returned. *)
Definition realises (shapes : gmap string Scene.Shape) (tensors : gmap string Tensor)
  : Prop :=
  forall name : string,
    (length <$> tensors !! name) = (shapes !! name ≫= Scene.leading).

End Density.

(* ================================================================== *)
(** * The dual rasterization entry point: [Runner.rasterize_splats] *)

Module Raster.
Import torch.

(** What [rasterize_splats] returns: the 3-tuple of the plain renderer or
    the 5-tuple of the dual renderer. *)
Inductive RasterOut (Info : Type) : Type :=
| Raw (render_colors render_alphas : Img) (info : Info)
| Dual (render_colors_enh render_colors_low render_enh_alphas render_low_alphas : Img)
       (info : Info).
Arguments Raw {Info} _ _ _.
Arguments Dual {Info} _ _ _ _ _.

(** [len(out)] *)
Definition out_len {Info : Type} (out : RasterOut Info) : nat :=
  match out with
  | Raw _ _ _ => 3
  | Dual _ _ _ _ _ => 5
  end.

(** [render_colors[~masks] = 0] *)
Definition apply_masks (masks : option (list bool)) (render_colors : Img) : Img :=
  match masks with
  | None => render_colors
  | Some m =>
      imap (fun i px => match m !! i with
                        | Some false => map (fun _ => 0) px
                        | _ => px
                        end) render_colors
  end.

Section Rasterize.

(** Per-Gaussian tensors, camera arguments and the renderer's auxiliary
    dictionary are opaque here. *)
Variable Ten : Type.
Variable Cams : Type.
Variable Info : Type.

Record TensorOps : Type := {
  t_exp : Ten -> Ten;
  t_sigmoid : Ten -> Ten;
  t_add : Ten -> Ten -> Ten;
  t_mul : Ten -> Ten -> Ten;
  t_cat : Ten -> Ten -> Ten
}.

Record RasterArgs : Type := {
  ra_means : Ten;
  ra_quats : Ten;
  ra_scales : Ten;
  ra_opacities : Ten;
  ra_colors : Ten;
  ra_packed : bool;
  ra_absgrad : bool;
  ra_sparse_grad : bool;
  ra_antialiased : bool
}.

Variable ops : TensorOps.

(** [gsplat.rendering.rasterization] and
    [rendering_double.rasterization_dual]; the camera matrices, the image
    size and the keyword arguments handed through unchanged are [Cams]. *)
Variable rasterization : RasterArgs -> Cams -> Img * Img * Info.
Variable rasterization_dual :
  RasterArgs -> Ten -> Cams -> Img * Img * Img * Img * Info.

(** [self.app_module], called with the features, the image identities and
    the viewing directions (the means against the camera positions), and
    [self.illum_module] *)
Variable app_module : Ten -> option (list nat) -> Ten -> Cams -> Ten.
Variable illum_module : option (list nat) -> Ten * Ten.

(** [self.splats[name]] *)
Definition getitem (splats : gmap string Ten) (name : string) : Result Ten :=
  match splats !! name with
  | Some t => Ok t
  | None => Raise (KeyError name)
  end.

Definition rasterize_splats (cfg : Config) (splats : gmap string Ten)
    (cams : Cams) (masks : option (list bool)) (image_ids : option (list nat))
  : Result (RasterOut Info) :=
  means ← getitem splats "means";
  quats ← getitem splats "quats";
  scales ← getitem splats "scales";
  let scales := t_exp ops scales in
  opacities ← getitem splats "opacities";
  let opacities := t_sigmoid ops opacities in
  colors ←
    (if app_opt cfg then
       features ← getitem splats "features";
       let colors_feat := app_module features image_ids means cams in
       splat_colors ← getitem splats "colors";
       Ok (t_sigmoid ops (t_add ops colors_feat splat_colors))
     else
       sh0 ← getitem splats "sh0";
       shN ← getitem splats "shN";
       Ok (t_cat ops sh0 shN));
  let args :=
    {| ra_means := means; ra_quats := quats; ra_scales := scales;
       ra_opacities := opacities; ra_colors := colors;
       ra_packed := packed cfg;
       ra_absgrad := match strategy cfg with
                     | DefaultStrategy absgrad => absgrad
                     | _ => false
                     end;
       ra_sparse_grad := sparse_grad cfg;
       ra_antialiased := antialiased cfg |} in
  if negb (enable_retinex cfg) then
    let '(render_colors, render_alphas, info) := rasterization args cams in
    Ok (Raw (apply_masks masks render_colors) render_alphas info)
  else
    colors_low ←
      (if use_illum_opt cfg then
         let '(image_adjust_k, image_adjust_b) := illum_module image_ids in
         Ok (t_add ops (t_mul ops colors image_adjust_k) image_adjust_b)
       else
         adjust_k ← getitem splats "adjust_k";
         adjust_b ← getitem splats "adjust_b";
         Ok (t_add ops (t_mul ops colors adjust_k) adjust_b));
    let '(render_colors_enh, render_colors_low,
          render_enh_alphas, render_low_alphas, info) :=
      rasterization_dual args colors_low cams in
    Ok (Dual render_colors_enh render_colors_low
             render_enh_alphas render_low_alphas info).

End Rasterize.

Arguments rasterize_splats {Ten Cams Info} _ _ _ _ _ _ _ _ _ _.

(** Two tables of splats that differ at most in ["adjust_k"] and
    ["adjust_b"]. *)
Definition same_but_adjust {Ten : Type} (t t' : gmap string Ten) : Prop :=
  forall name : string,
    name <> "adjust_k"%string -> name <> "adjust_b"%string -> t !! name = t' !! name.

(** The unpacking of [out] in [Runner.train]:
    [(renders_enh, renders_low, alphas_enh, alphas_low, info)]. *)
Definition train_unpack {Info : Type} (out : RasterOut Info)
  : Img * Img * Img * Img * Info :=
  match out with
  | Dual renders_enh renders_low alphas_enh alphas_low info =>
      (renders_enh, renders_low, alphas_enh, alphas_low, info)
  | Raw renders_low alphas_low info =>
      let '(renders_enh, alphas_enh) := (renders_low, alphas_low) in
      (renders_enh, renders_low, alphas_enh, alphas_low, info)
  end.

(** The unpacking of [out] in [Runner.eval]:
    [(colors_enh, colors_low, alphas_enh, alphas_low, info)]. *)
Definition eval_unpack {Info : Type} (out : RasterOut Info)
  : Img * Img * Img * Img * Info :=
  match out with
  | Dual colors_enh colors_low alphas_enh alphas_low info =>
      (colors_enh, colors_low, alphas_enh, alphas_low, info)
  | Raw colors_low alphas_low info =>
      let '(colors_enh, alphas_enh) := (colors_low, colors_low) in
      (colors_enh, colors_low, alphas_enh, alphas_low, info)
  end.

End Raster.

(* ================================================================== *)
(** * The loss of a main-loop training step: the body of [Runner.train]

    A tensor that takes part in the loss carries, next to its value, the
    leaves of the autograd graph it was computed from: the parameter sets a
    gradient reaches through it. An operation joins the leaves of its
    arguments and [detach] drops them. *)

Module Step.
Import torch.

Inductive Leaf : Type :=
| Splats
| IllumModule
| PoseAdjust
| AppModule
| BilGrids
| RetinexNet
| RetinexEmbeds
| LossParams.

Record Tracked (A : Type) : Type := {
  val : A;
  leaves : list Leaf
}.
Arguments val {A} _.
Arguments leaves {A} _.

(** [torch.tensor(x)] *)
Definition constant {A : Type} (a : A) : Tracked A := {| val := a; leaves := [] |}.

(** [x.detach()] *)
Definition detach {A : Type} (x : Tracked A) : Tracked A :=
  {| val := val x; leaves := [] |}.

Definition ap1 {A B : Type} (f : A -> B) (x : Tracked A) : Tracked B :=
  {| val := f (val x); leaves := leaves x |}.

Definition ap2 {A B C : Type} (f : A -> B -> C) (x : Tracked A) (y : Tracked B)
  : Tracked C :=
  {| val := f (val x) (val y); leaves := leaves x ++ leaves y |}.

(** The result of a module with learnable parameters of its own. *)
Definition with_leaves {A : Type} (ls : list Leaf) (x : Tracked A) : Tracked A :=
  {| val := val x; leaves := leaves x ++ ls |}.

Definition tplus (x y : Tracked R) : Tracked R := ap2 Rplus x y.

(** [x * c] for a Python float [c] *)
Definition ttimes (x : Tracked R) (c : R) : Tracked R := ap1 (fun v => v * c) x.

(** [c * x] for a Python float [c] *)
Definition tscale (c : R) (x : Tracked R) : Tracked R := ap1 (fun v => c * v) x.

(** [1.0 - x] *)
Definition one_minus (x : Tracked R) : Tracked R := ap1 (fun v => 1 - v) x.

(** [F.l1_loss(a, b)] *)
Definition l1_loss (a b : Img) : R := mean (img_map Rabs (img_map2 Rminus a b)).

(** The parameters behind the outputs of [get_retinex_output]. *)
Definition retinex_leaves : list Leaf := [RetinexNet; RetinexEmbeds].

(** The loss values a step binds. [loss_reconstruct_enh] exists in the
    Retinex branch only. *)
Record StepLosses : Type := {
  loss : Tracked R;
  low_loss : Tracked R;
  ssim_loss : Tracked R;
  loss_reflectance : Tracked R;
  loss_reflectance_ssim : option (Tracked R);
  loss_reconstruct_enh : option (Tracked R);
  loss_illumination : Tracked R;
  loss_illum_color : Tracked R;
  loss_illum_smooth : Tracked R;
  loss_adaptive_curve : Tracked R;
  loss_illum_exposure : Tracked R;
  loss_illum_contrast : Tracked R;
  loss_illum_laplacian : Tracked R
}.

Section TrainStep.

Variable Emb : Type.
Variable Aux : Type.
Variable retinex_embeds : list nat -> Emb.
Variable retinex_net : Img -> Emb -> Retinex.NetOut Aux.
Variable L : LossComposer.LossModules Aux.
Variable global_mean_val_param : R.

(** [self.ssim] and [self.lpips] *)
Variable ssim : Img -> Img -> R.
Variable lpips : Img -> Img -> R.

(** The branch [if cfg.enable_retinex:] of the loss. *)
Definition retinex_losses (cfg : Config) (image_ids : list nat)
    (colors_low colors_enh pixels : Tracked Img) : StepLosses :=
  let '(input_v, illumination_v, reflectance_v, alpha, beta, local_exposure, _) :=
    Retinex.get_retinex_output retinex_embeds retinex_net
      (use_hsv_color_space cfg) image_ids (val pixels) in
  let input_image_for_net := ap1 (fun _ => input_v) pixels in
  let illumination_map :=
    with_leaves retinex_leaves (ap1 (fun _ => illumination_v) pixels) in
  let reflectance_target :=
    with_leaves retinex_leaves (ap1 (fun _ => reflectance_v) pixels) in
  let global_exposure_mean :=
    {| val := sigmoid global_mean_val_param; leaves := [LossParams] |} in
  let reflectance_target_permuted := reflectance_target in
  let loss_reconstruct_low := ap2 l1_loss colors_low pixels in
  let ssim_loss := one_minus (ap2 ssim colors_low pixels) in
  let lpips_loss := ap2 lpips colors_low pixels in
  let low_loss :=
    tplus (tplus (ttimes ssim_loss (ssim_lambda cfg))
                 (ttimes loss_reconstruct_low (1 - ssim_lambda cfg)))
          (ttimes lpips_loss (1 / 10)) in
  let loss_reflectance :=
    ap2 l1_loss colors_enh (detach reflectance_target_permuted) in
  let loss_reflectance_ssim :=
    one_minus (ap2 ssim colors_enh reflectance_target_permuted) in
  let loss_reconstruct_enh :=
    tplus (ttimes loss_reflectance (1 - ssim_lambda cfg))
          (ttimes loss_reflectance_ssim (ssim_lambda cfg)) in
  let loss_illum_color :=
    if negb (use_hsv_color_space cfg)
    then ap1 (LossComposer.loss_color L) illumination_map
    else constant 0 in
  let loss_illum_smooth := ap1 (LossComposer.loss_smooth L) illumination_map in
  let loss_adaptive_curve :=
    with_leaves (retinex_leaves ++ [LossParams])
      (ap1 (fun r => LossComposer.loss_adaptive_curve L r alpha beta)
           reflectance_target) in
  let loss_illum_exposure :=
    ap2 (fun r g => LossComposer.loss_exposure L r (Some g))
        reflectance_target global_exposure_mean in
  let con_degree := (5 / 10) / mean (val pixels) in
  let loss_illum_contrast :=
    with_leaves [LossParams]
      (ap2 (fun i r => LossComposer.loss_spatial L i r con_degree image_ids)
           input_image_for_net reflectance_target) in
  let loss_illum_laplacian :=
    ap2 (fun r i => mean (img_map Rabs
                            (img_map2 Rminus (LossComposer.loss_details L r)
                                             (LossComposer.loss_details L i))))
        reflectance_target input_image_for_net in
  let loss_illum_gradient :=
    ap2 (LossComposer.loss_gradient L) input_image_for_net reflectance_target in
  let loss_illum_frequency :=
    ap2 (LossComposer.loss_frequency L) input_image_for_net reflectance_target in
  let loss_illum_edge_aware_smooth :=
    with_leaves [LossParams]
      (ap2 (LossComposer.loss_edge_aware_smooth L)
           illumination_map input_image_for_net) in
  let loss_illumination :=
    tplus (tplus (tplus (tplus (tplus (tplus (tplus (tplus
      (tscale (lambda_reflect cfg) loss_illum_contrast)
      (tscale (lambda_illum_exposure cfg) loss_illum_exposure))
      (tscale (lambda_illum_color cfg) loss_illum_color))
      (tscale (lambda_smooth cfg) loss_illum_smooth))
      (tscale (lambda_illum_curve cfg) loss_adaptive_curve))
      (tscale (lambda_laplacian cfg) loss_illum_laplacian))
      (tscale (lambda_gradient cfg) loss_illum_gradient))
      (tscale (lambda_frequency cfg) loss_illum_frequency))
      (tscale (lambda_edge_aware_smooth cfg) loss_illum_edge_aware_smooth) in
  let loss :=
    tplus (tplus (ttimes low_loss (lambda_low cfg))
                 (ttimes loss_reconstruct_enh (1 - lambda_low cfg)))
          (ttimes loss_illumination (lambda_illumination cfg)) in
  {| loss := loss;
     low_loss := low_loss;
     ssim_loss := ssim_loss;
     loss_reflectance := loss_reflectance;
     loss_reflectance_ssim := Some loss_reflectance_ssim;
     loss_reconstruct_enh := Some loss_reconstruct_enh;
     loss_illumination := loss_illumination;
     loss_illum_color := loss_illum_color;
     loss_illum_smooth := loss_illum_smooth;
     loss_adaptive_curve := loss_adaptive_curve;
     loss_illum_exposure := loss_illum_exposure;
     loss_illum_contrast := loss_illum_contrast;
     loss_illum_laplacian := loss_illum_laplacian |}.

(** The branch [else:] of the loss. *)
Definition plain_losses (cfg : Config) (colors_low pixels : Tracked Img)
  : StepLosses :=
  let f1 := ap2 l1_loss colors_low pixels in
  let ssim_loss := one_minus (ap2 ssim colors_low pixels) in
  let loss_reflectance := f1 in
  let loss :=
    tplus (ttimes f1 (1 - ssim_lambda cfg)) (ttimes ssim_loss (ssim_lambda cfg)) in
  {| loss := loss;
     low_loss := loss;
     ssim_loss := ssim_loss;
     loss_reflectance := loss_reflectance;
     loss_reflectance_ssim := None;
     loss_reconstruct_enh := None;
     loss_illumination := constant 0;
     loss_illum_color := constant 0;
     loss_illum_smooth := constant 0;
     loss_adaptive_curve := constant 0;
     loss_illum_exposure := constant 0;
     loss_illum_contrast := constant 0;
     loss_illum_laplacian := constant 0 |}.

(** The slicing of the bilateral grids ([slice_func(...)["rgb"]]) and the
    background colour drawn in this step ([torch.rand(1, 3)]). *)
Variable slice_func : Img -> list nat -> Img.
Variable bkgd : list R.

(** [renders[..., 0:3]] when the rendering has a fourth (depth) channel. *)
Definition colors_of (renders : Img) : Img :=
  match renders with
  | px :: _ => if (length px =? 4)%nat then channels 0 3 renders else renders
  | [] => renders
  end.

Definition clamp01 (a : Tracked Img) : Tracked Img := ap1 (img_map (clamp 0 1)) a.

(** [colors += bkgd * (1.0 - alphas)], the alpha of a position applying to
    each of its channels. *)
Definition add_bkgd (colors alphas : Img) : Img :=
  zip_with (fun px al =>
              zip_with (fun c b => c + b * (1 - default 0 (head al))) px bkgd)
           colors alphas.

(** From a rendering to the colours that enter the losses: the colour
    channels, clamped to [0, 1], sliced through the bilateral grid and put
    on the random background, the last two behind their switches. *)
Definition prepare_colors (cfg : Config) (image_ids : list nat)
    (renders alphas : Tracked Img) : Tracked Img :=
  let colors := clamp01 (ap1 colors_of renders) in
  let colors :=
    if use_bilateral_grid cfg
    then with_leaves [BilGrids] (ap1 (fun c => slice_func c image_ids) colors)
    else colors in
  if random_bkgd cfg then ap2 add_bkgd colors alphas else colors.

Definition step_losses (cfg : Config) (image_ids : list nat)
    (renders_low renders_enh alphas_low alphas_enh pixels : Tracked Img)
  : StepLosses :=
  let colors_low := prepare_colors cfg image_ids renders_low alphas_low in
  let colors_enh := prepare_colors cfg image_ids renders_enh alphas_enh in
  let pixels := clamp01 pixels in
  if enable_retinex cfg
  then retinex_losses cfg image_ids colors_low colors_enh pixels
  else plain_losses cfg colors_low pixels.

Definition Rltb (x y : R) : bool := if Rlt_dec x y then true else false.

(** The [loss += ...] statements between the composition of the loss and
    [loss.backward()]: the depth terms, the total variation of the
    bilateral grid and the two regularizers, each behind its switch. *)
Definition backward_loss (cfg : Config) (l : StepLosses)
    (depthloss depthloss_enh tvloss opacity_mean scale_mean : Tracked R)
  : Tracked R :=
  let loss := loss l in
  let loss :=
    if depth_loss cfg then
      let loss := tplus loss (ttimes depthloss (depth_lambda cfg)) in
      if enable_retinex cfg
      then tplus loss (ttimes depthloss_enh (depth_lambda cfg))
      else loss
    else loss in
  let loss := if use_bilateral_grid cfg then tplus loss tvloss else loss in
  let loss :=
    if Rltb 0 (opacity_reg cfg)
    then tplus loss (tscale (opacity_reg cfg) opacity_mean) else loss in
  let loss :=
    if Rltb 0 (scale_reg cfg)
    then tplus loss (tscale (scale_reg cfg) scale_mean) else loss in
  loss.

End TrainStep.

Arguments retinex_losses {Emb Aux} _ _ _ _ _ _ _ _ _ _ _.
Arguments step_losses {Emb Aux} _ _ _ _ _ _ _ _ _ _ _ _ _ _ _.

End Step.

(* ================================================================== *)
(** * The orchestrator: strategy dispatch, periodic side effects,
      trajectory rendering *)

Module Orchestrator.
Import Scene.

(** The call of [step_post_backward] the training loop makes. *)
Inductive PostBackwardCall : Type :=
| DefaultPostBackward (step : Z) (packed : bool)
| MCMCPostBackward (step : Z) (lr : R).

(** The dispatch on the type of [cfg.strategy] at the end of a step;
    [last_lr] is [schedulers[0].get_last_lr()[0]]. *)
Definition post_backward (cfg : Config) (step : Z) (last_lr : R)
  : Result PostBackwardCall :=
  match strategy cfg with
  | DefaultStrategy _ => Ok (DefaultPostBackward step (packed cfg))
  | MCMCStrategy => Ok (MCMCPostBackward step last_lr)
  | OtherStrategy _ => assert_never (strategy cfg)
  end.

(** The files the trainer writes. *)
Inductive File : Type :=
| CfgYml
| TensorboardEvents (namespace : string)
| TrainStatsJson (step : Z) (rank : nat)
| CheckpointPt (step : Z) (rank : nat)
| PointCloudPly (step : Z)
| RenderPng (stage : string) (step : option Z) (enhanced : bool) (i : nat)
| EvalStatsJson (stage : string) (step : Z)
| EvalRawJson (stage : string) (step : Z)
| TrajVideo (step : Z)
| CompressedSplats (rank : nat).

(** What the data behind the runner provides to the side-effect stages:
    the size of the validation set, the number of camera poses of the
    parser and whether it has camera intrinsics. *)
Record Data : Type := {
  n_val : nat;
  n_camtoworlds : nat;
  has_Ks : bool
}.

(** [step in [i - 1 for i in steps]] *)
Definition step_in (step : Z) (steps : list Z) : bool :=
  existsb (Z.eqb step) (map (fun i => i - 1)%Z steps).

(** The files written by [Runner.eval(step, stage)]. *)
Definition eval_writes (r : Runner) (d : Data) (step : Z) (stage : string)
  : list File :=
  flat_map
    (fun i =>
       if (world_rank r =? 0)%nat then
         [RenderPng stage (Some step) false i; RenderPng stage None false i]
         ++ (if enable_retinex (cfg r)
             then [RenderPng stage (Some step) true i; RenderPng stage None true i]
             else [])
       else [])
    (seq 0 (n_val d))
  ++ (if (world_rank r =? 0)%nat
      then [EvalStatsJson stage step; EvalRawJson stage step; TensorboardEvents stage]
      else []).

(** [Runner.render_traj(step)]: the files it writes, or the exception it
    raises. *)
Definition render_traj (r : Runner) (d : Data) (step : Z) : Result (list File) :=
  if disable_video (cfg r) then Ok []
  else if negb (world_rank r =? 0)%nat then Ok []
  else if (n_camtoworlds d =? 0)%nat then Ok []
  else
    _ ← (if String.eqb (render_traj_path (cfg r)) "interp" then Ok tt
         else if String.eqb (render_traj_path (cfg r)) "ellipse" then Ok tt
         else if String.eqb (render_traj_path (cfg r)) "spiral" then Ok tt
         else Raise (ValueError ("Render trajectory type not supported: "
                                 ++ render_traj_path (cfg r))));
    if negb (has_Ks d) then Ok []
    else Ok [TrajVideo step; TensorboardEvents "render_traj"].

(** The files written by [Runner.run_compression(step)]. *)
Definition run_compression_writes (r : Runner) (d : Data) (step : Z) : list File :=
  match compression_method r with
  | None => []
  | Some _ => CompressedSplats (world_rank r) :: eval_writes r d step "compress"
  end.

(** The side-effect stages of one iteration of the main loop, in the order
    of the source: the files written and the exception that ended the
    iteration, if any. *)
Definition train_step_writes (r : Runner) (d : Data) (step : Z)
  : list File * option Exn :=
  let c := cfg r in
  let logged :=
    if (world_rank r =? 0)%nat && (0 <? tb_every c)%Z
       && (step mod tb_every c =? 0)%Z
    then [TensorboardEvents "train"] else [] in
  let saved :=
    if step_in step (save_steps c) || (step =? max_steps c - 1)%Z
    then [TrainStatsJson step (world_rank r); CheckpointPt step (world_rank r)]
    else [] in
  let exported :=
    if (step_in step (ply_steps c) || (step =? max_steps c - 1)%Z) && save_ply c
    then [PointCloudPly step] else [] in
  let evaluated :=
    if step_in step (eval_steps c) then eval_writes r d step "val" else [] in
  match (if step_in step (eval_steps c) then render_traj r d step else Ok []) with
  | Raise e => (logged ++ saved ++ exported ++ evaluated, Some e)
  | Ok rendered =>
      let compressed :=
        if bool_decide (compression c <> None) && step_in step (eval_steps c)
        then run_compression_writes r d step else [] in
      (logged ++ saved ++ exported ++ evaluated ++ rendered ++ compressed, None)
  end.

(** The file written before the loop starts. *)
Definition train_prologue_writes (r : Runner) : list File :=
  if (world_rank r =? 0)%nat then [CfgYml] else [].

(** The main loop of [Runner.train] as far as files go: the iterations
    [0 .. max_steps - 1] until one raises. *)
Fixpoint loop_writes (r : Runner) (d : Data) (steps : list Z)
  : list File * option Exn :=
  match steps with
  | [] => ([], None)
  | step :: rest =>
      match train_step_writes r d step with
      | (w, Some e) => (w, Some e)
      | (w, None) =>
          let '(w', e) := loop_writes r d rest in (w ++ w', e)
      end
  end.

(** The logging inside [retinex_train_step], which [pre_train_retinex]
    calls once per pre-training step: [if step % cfg.tb_every == 0:]. *)
Definition retinex_train_step_writes (r : Runner) (step : Z)
  : list File * option Exn :=
  if (tb_every (cfg r) =? 0)%Z then ([], Some ZeroDivisionError)
  else if (step mod tb_every (cfg r) =? 0)%Z
       then ([TensorboardEvents "retinex_net"], None)
       else ([], None).

Fixpoint pretrain_loop_writes (r : Runner) (steps : list Z)
  : list File * option Exn :=
  match steps with
  | [] => ([], None)
  | step :: rest =>
      match retinex_train_step_writes r step with
      | (w, Some e) => (w, Some e)
      | (w, None) =>
          let '(w', e) := pretrain_loop_writes r rest in (w ++ w', e)
      end
  end.

(** [if cfg.pretrain_retinex and cfg.enable_retinex: self.pre_train_retinex()] *)
Definition pretrain_writes (r : Runner) : list File * option Exn :=
  if pretrain_retinex (cfg r) && enable_retinex (cfg r)
  then pretrain_loop_writes r (seqZ 0 (pretrain_steps (cfg r)))
  else ([], None).

Definition train_writes (r : Runner) (d : Data) : list File * option Exn :=
  match pretrain_writes r with
  | (w0, Some e) => (train_prologue_writes r ++ w0, Some e)
  | (w0, None) =>
      let '(w, e) := loop_writes r d (seqZ 0 (max_steps (cfg r))) in
      (train_prologue_writes r ++ w0 ++ w, e)
  end.

(** The files that only the rank-zero worker writes: the configuration
    dump, the tensorboard records of the main loop, of the evaluation and
    of the trajectory, the evaluation images and statistics, the video. *)
Definition rank_zero_only (f : File) : bool :=
  match f with
  | CfgYml | RenderPng _ _ _ _
  | EvalStatsJson _ _ | EvalRawJson _ _ | TrajVideo _ => true
  | TensorboardEvents namespace => negb (String.eqb namespace "retinex_net")
  | _ => false
  end.

(** A list of written files without a file of the rank-zero worker. *)
Definition quiet (w : list File) : Prop :=
  forall f : File, In f w -> rank_zero_only f = false.

End Orchestrator.

(* ================================================================== *)
(** * Concrete inputs

    Small inputs on which the definitions above are evaluated. *)

Module Inputs.
Import torch.

(** A network that predicts a log-illumination of zero everywhere. *)
Definition zero_net : Img -> unit -> Retinex.NetOut unit :=
  fun input _ =>
    {| Retinex.log_illumination_map := img_map (fun _ => 0) input;
       Retinex.net_alpha := tt;
       Retinex.net_beta := tt;
       Retinex.net_local_exposure := tt;
       Retinex.net_weights := tt |}.

Definition no_embeds : list nat -> unit := fun _ => tt.

(** One reddish pixel. *)
Definition red_pixels : Img := [[1 / 2; 1 / 4; 1 / 4]].

(** A configuration, by the switches that the examples vary. The only
    illumination term with a weight is the first one. *)
Definition demo_cfg (retinex dynamic multi_scale video_off : bool)
    (strat : Strategy) (traj : string) : Config :=
  {| enable_retinex := retinex;
     use_hsv_color_space := false;
     use_illum_opt := false;
     multi_scale_retinex := multi_scale;
     enable_dynamic_weights := dynamic;
     learn_global_exposure := false;
     learn_local_exposure := false;
     pretrain_retinex := false;
     app_opt := false;
     pose_opt := false;
     depth_loss := false;
     use_bilateral_grid := false;
     random_bkgd := false;
     packed := false;
     sparse_grad := false;
     visible_adam := false;
     antialiased := false;
     save_ply := false;
     disable_video := video_off;
     tb_save_image := false;
     init_type := "sfm";
     compression := None;
     lpips_net := "alex";
     render_traj_path := traj;
     strategy := strat;
     lambda_reflect := 1;
     lambda_illum_color := 0;
     lambda_illum_exposure := 0;
     lambda_smooth := 0;
     lambda_illum_curve := 0;
     lambda_laplacian := 0;
     lambda_gradient := 0;
     lambda_frequency := 0;
     lambda_edge_aware_smooth := 0;
     lambda_illum_exposure_local := 0;
     lambda_illum_frequency := 0;
     lambda_exclusion := 0;
     lambda_low := 1 / 2;
     lambda_illumination := 1;
     ssim_lambda := 1 / 5;
     depth_lambda := 0;
     opacity_reg := 0;
     scale_reg := 0;
     init_num_pts := 4;
     init_extent := 3;
     init_opa := 1 / 10;
     init_scale := 1;
     global_scale := 1;
     means_lr := 1;
     scales_lr := 1;
     opacities_lr := 1;
     quats_lr := 1;
     sh0_lr := 1;
     shN_lr := 1;
     sh_degree := 3;
     batch_size := 1;
     max_steps := 3;
     pretrain_steps := 0;
     tb_every := 1;
     save_steps := [3%Z];
     eval_steps := [3%Z];
     ply_steps := [3%Z] |}.

(** Twelve term values and twelve log-variances. *)
Definition unit_losses : list R := [1; 0; 0; 0; 0; 0; 0; 0; 0; 0; 0; 0].

Definition zero_log_vars : list R := [0; 0; 0; 0; 0; 0; 0; 0; 0; 0; 0; 0].

(** Loss modules that all return zero. *)
Definition zero_modules : LossComposer.LossModules unit :=
  {| LossComposer.loss_color := fun _ => 0;
     LossComposer.loss_exposure := fun _ _ => 0;
     LossComposer.loss_smooth := fun _ => 0;
     LossComposer.loss_spatial := fun _ _ _ _ => 0;
     LossComposer.loss_adaptive_curve := fun _ _ _ => 0;
     LossComposer.loss_details := fun a => a;
     LossComposer.loss_gradient := fun _ _ => 0;
     LossComposer.loss_frequency := fun _ _ => 0;
     LossComposer.loss_edge_aware_smooth := fun _ _ => 0;
     LossComposer.loss_exposure_local := fun _ _ => 0;
     LossComposer.loss_illum_frequency := fun _ => 0;
     LossComposer.loss_exclusion := fun _ _ => 0 |}.

(** A parser with four points and their colours. *)
Definition demo_parser : Scene.Parser :=
  {| Scene.points := 4; Scene.points_rgb := 4; Scene.parser_scene_scale := 1 |}.

(** Arguments of [create_splats_with_optimizers] by batch size, rank and
    world size. *)
Definition demo_args (batch rank world : nat) : Scene.SplatArgs :=
  {| Scene.a_init_type := "sfm";
     Scene.a_init_num_pts := 4;
     Scene.a_means_lr := 1;
     Scene.a_scales_lr := 1;
     Scene.a_opacities_lr := 1;
     Scene.a_quats_lr := 1;
     Scene.a_sh0_lr := 1;
     Scene.a_shN_lr := 1;
     Scene.a_scene_scale := 1;
     Scene.a_sh_degree := 3;
     Scene.a_sparse_grad := false;
     Scene.a_visible_adam := false;
     Scene.a_batch_size := batch;
     Scene.a_feature_dim := None;
     Scene.a_world_rank := rank;
     Scene.a_world_size := world |}.

(** A table of empty rows with the leading dimension of a shape, and an
    optimizer update that leaves a row as it is. *)
Definition rows_of (s : Scene.Shape) : Density.Tensor :=
  replicate (default 0%nat (head s)) [].

Definition idle_adam (p g m v : list R) : list R * list R * list R := (p, m, v).

(** A renderer over scalar "tensors" that paints every rendering white
    with alpha zero, and a scene to render. *)
Definition scalar_ops : Raster.TensorOps R :=
  {| Raster.t_exp := exp;
     Raster.t_sigmoid := sigmoid;
     Raster.t_add := Rplus;
     Raster.t_mul := Rmult;
     Raster.t_cat := fun a _ => a |}.

Definition white_rasterization (args : Raster.RasterArgs R) (cams : unit)
  : Img * Img * unit := ([[1]], [[0]], tt).

Definition white_rasterization_dual (args : Raster.RasterArgs R) (colors_low : R)
    (cams : unit) : Img * Img * Img * Img * unit :=
  ([[1]], [[1]], [[0]], [[0]], tt).

Definition plain_app_module (features : R) (ids : option (list nat)) (means : R)
    (cams : unit) : R := features.

Definition unit_illum_module (ids : option (list nat)) : R * R := (1, 0).

Definition demo_splats : gmap string R :=
  Scene.dict_of
    [ ("means"%string, 0); ("scales"%string, 0); ("quats"%string, 0);
      ("opacities"%string, 0); ("sh0"%string, 0); ("shN"%string, 0);
      ("adjust_k"%string, 1); ("adjust_b"%string, 0) ].

(** A rendering that depends on the splats, ground-truth pixels, and
    metric modules that find any two images identical. *)
Definition rendered (a : Img) : Step.Tracked Img :=
  {| Step.val := a; Step.leaves := [Step.Splats] |}.

Definition same_ssim (a b : Img) : R := 1.

Definition same_lpips (a b : Img) : R := 0.

(** A runner of the given rank among two workers. *)
Definition demo_runner (rank : nat) (c : Config) : Scene.Runner :=
  {| Scene.cfg := c;
     Scene.world_rank := rank;
     Scene.world_size := 2;
     Scene.scene_scale := 1;
     Scene.illum_optimizers := [];
     Scene.retinex_optimizer := None;
     Scene.splats := ∅;
     Scene.optimizers := ∅;
     Scene.strategy_state := Scene.MCMCState;
     Scene.compression_method := None;
     Scene.lpips := Scene.LpipsAlex |}.

(** Two validation images, three camera poses, intrinsics present. *)
Definition demo_data : Orchestrator.Data :=
  {| Orchestrator.n_val := 2;
     Orchestrator.n_camtoworlds := 3;
     Orchestrator.has_Ks := true |}.

(** A configuration with another batch size. *)
Definition with_batch (batch : nat) (c : Config) : Config :=
  {| enable_retinex := enable_retinex c;
     use_hsv_color_space := use_hsv_color_space c;
     use_illum_opt := use_illum_opt c;
     multi_scale_retinex := multi_scale_retinex c;
     enable_dynamic_weights := enable_dynamic_weights c;
     learn_global_exposure := learn_global_exposure c;
     learn_local_exposure := learn_local_exposure c;
     pretrain_retinex := pretrain_retinex c;
     app_opt := app_opt c;
     pose_opt := pose_opt c;
     depth_loss := depth_loss c;
     use_bilateral_grid := use_bilateral_grid c;
     random_bkgd := random_bkgd c;
     packed := packed c;
     sparse_grad := sparse_grad c;
     visible_adam := visible_adam c;
     antialiased := antialiased c;
     save_ply := save_ply c;
     disable_video := disable_video c;
     tb_save_image := tb_save_image c;
     init_type := init_type c;
     compression := compression c;
     lpips_net := lpips_net c;
     render_traj_path := render_traj_path c;
     strategy := strategy c;
     lambda_reflect := lambda_reflect c;
     lambda_illum_color := lambda_illum_color c;
     lambda_illum_exposure := lambda_illum_exposure c;
     lambda_smooth := lambda_smooth c;
     lambda_illum_curve := lambda_illum_curve c;
     lambda_laplacian := lambda_laplacian c;
     lambda_gradient := lambda_gradient c;
     lambda_frequency := lambda_frequency c;
     lambda_edge_aware_smooth := lambda_edge_aware_smooth c;
     lambda_illum_exposure_local := lambda_illum_exposure_local c;
     lambda_illum_frequency := lambda_illum_frequency c;
     lambda_exclusion := lambda_exclusion c;
     lambda_low := lambda_low c;
     lambda_illumination := lambda_illumination c;
     ssim_lambda := ssim_lambda c;
     depth_lambda := depth_lambda c;
     opacity_reg := opacity_reg c;
     scale_reg := scale_reg c;
     init_num_pts := init_num_pts c;
     init_extent := init_extent c;
     init_opa := init_opa c;
     init_scale := init_scale c;
     global_scale := global_scale c;
     means_lr := means_lr c;
     scales_lr := scales_lr c;
     opacities_lr := opacities_lr c;
     quats_lr := quats_lr c;
     sh0_lr := sh0_lr c;
     shN_lr := shN_lr c;
     sh_degree := sh_degree c;
     batch_size := batch;
     max_steps := max_steps c;
     pretrain_steps := pretrain_steps c;
     tb_every := tb_every c;
     save_steps := save_steps c;
     eval_steps := eval_steps c;
     ply_steps := ply_steps c |}.

(** A sanity check of the strategy that passes. *)
Definition sane (s : Strategy) (splats : gmap string Scene.Shape)
    (optimizers : gmap string Scene.Optimizer) : Result unit := Ok tt.

End Inputs.

(* ================================================================== *)
(** * The workers' shares of the initial point cloud *)

Module Shards.
Import Scene.

(** The keyword arguments of [create_splats_with_optimizers] as the worker
    of another rank passes them: [Runner.__init__] hands its own
    [world_rank] on and every other argument is the same on all workers. *)
Definition on_rank (a : SplatArgs) (rank : nat) : SplatArgs :=
  {| a_init_type := a_init_type a;
     a_init_num_pts := a_init_num_pts a;
     a_means_lr := a_means_lr a;
     a_scales_lr := a_scales_lr a;
     a_opacities_lr := a_opacities_lr a;
     a_quats_lr := a_quats_lr a;
     a_sh0_lr := a_sh0_lr a;
     a_shN_lr := a_shN_lr a;
     a_scene_scale := a_scene_scale a;
     a_sh_degree := a_sh_degree a;
     a_sparse_grad := a_sparse_grad a;
     a_visible_adam := a_visible_adam a;
     a_batch_size := a_batch_size a;
     a_feature_dim := a_feature_dim a;
     a_world_rank := rank;
     a_world_size := a_world_size a |}.

(** [N = points.shape[0]] after [points = points[world_rank::world_size]],
    read off the constructed scene: the rows of ["means"]. *)
Definition rows_on_rank (parser : Parser) (a : SplatArgs) (rank : nat)
  : Result nat :=
  '(splats, _) ← create_splats_with_optimizers parser (on_rank a rank);
  match splats !! "means"%string ≫= leading with
  | Some N => Ok N
  | None => Raise (KeyError "means")
  end.

End Shards.

(* ================================================================== *)
(** * The schedules of the main loop: the learning rate of the means and
      the degree of the spherical harmonics *)

Module Schedule.
Import Scene Orchestrator.

(** [gamma=0.01 ** (1.0 / max_steps)], the argument of the [ExponentialLR]
    schedulers that [train] builds before the loop. *)
Definition gamma (max_steps : Z) : Result R :=
  if (max_steps =? 0)%Z then Raise ZeroDivisionError
  else Ok (Rpower (1 / 100) (1 / IZR max_steps)).

(** One [scheduler.step()] of [torch.optim.lr_scheduler.ExponentialLR]: the
    learning rate of the group is multiplied by [gamma]. *)
Definition exponential_step (gamma lr : R) : R := lr * gamma.

(** The learning rate of the group after [k] iterations of the loop; each
    iteration ends in [for scheduler in schedulers: scheduler.step()]. *)
Definition lr_after (gamma : R) (k : nat) (lr : R) : R :=
  Nat.iter k (exponential_step gamma) lr.

(** [schedulers[0].get_last_lr()[0]] in iteration [step], read after the
    schedulers have stepped: they have stepped [step + 1] times. *)
Definition last_lr (gamma lr : R) (step : Z) : R :=
  lr_after gamma (Z.to_nat (step + 1)) lr.

(** The strategy dispatch of iteration [step] with the learning rate the
    loop hands to it: [schedulers[0]] is the [ExponentialLR] over
    [self.optimizers["means"]] built at the start of [train]. *)
Definition train_post_backward (r : Runner) (step : Z) : Result PostBackwardCall :=
  means ← Raster.getitem _ (optimizers r) "means";
  g ← gamma (max_steps (cfg r));
  post_backward (cfg r) step (last_lr g (opt_lr means) step).

(** [sh_degree_to_use = min(step // cfg.sh_degree_interval, cfg.sh_degree)];
    the interval is a field of the configuration that the record [Config]
    does not hold. *)
Definition sh_degree_to_use (sh_degree_interval : Z) (cfg : Config) (step : Z)
  : Result Z :=
  if (sh_degree_interval =? 0)%Z then Raise ZeroDivisionError
  else Ok (Z.min (step / sh_degree_interval) (Z.of_nat (sh_degree cfg))).

End Schedule.

(* ================================================================== *)
(** * The depth terms of a training step: the block [if cfg.depth_loss:]
      of [Runner.train] *)

Module Depth.
Import torch.

(** The key points of a batch, [B, M, 2]: pixel coordinates (x, y). *)
Abbreviation Points := (list (list (R * R))) (only parsing).

(** [torch.stack([points[:, :, 0] / (width - 1) * 2 - 1,
                  points[:, :, 1] / (height - 1) * 2 - 1], dim=-1)] *)
Definition normalize_points (width height : nat) (points : Points) : Points :=
  map (map (fun p => (p.1 / (INR width - 1) * 2 - 1,
                      p.2 / (INR height - 1) * 2 - 1))) points.

(** [torch.where(depths > 0.0, 1.0 / depths, torch.zeros_like(depths))] *)
Definition disparity (depths : Img) : Img :=
  img_map (fun d => if Step.Rltb 0 d then 1 / d else 0) depths.

(** [assert x is not None, msg] *)
Definition assert_some {A : Type} (x : option A) (msg : string) : Result A :=
  match x with
  | Some a => Ok a
  | None => Raise (AssertionError msg)
  end.

Section DepthLoss.

(** [F.grid_sample(depths.permute(0, 3, 1, 2), grid, align_corners=True)]
    with the two singleton dimensions squeezed: the depth map read at the
    positions of the grid, [B, M]. *)
Variable grid_sample : Img -> Points -> Img.

(** The disparity loss of one depth map: [F.l1_loss(disp, disp_gt) *
    self.scene_scale]. *)
Definition depth_term (scene_scale : R) (depths : Img) (grid : Points)
    (depths_gt : Img) : R :=
  let depths := grid_sample depths grid in
  let disp := disparity depths in
  let disp_gt := img_map (fun d => 1 / d) depths_gt in
  Step.l1_loss disp disp_gt * scene_scale.

(** From [depthloss_value = torch.tensor(0.0)] to the end of the block: the
    loss with the depth terms added, and [depthloss_value], which the
    progress bar and tensorboard report as the depth loss. *)
Definition depth_block (cfg : Config) (scene_scale : R) (width height : nat)
    (points : option Points) (depths_gt depths_low depths_enh : option Img)
    (loss : R) : Result (R * R) :=
  let depthloss_value := 0 in
  if depth_loss cfg then
    depths_gt ← assert_some depths_gt "Depth ground truth is required for depth loss";
    points ← assert_some points "Points are required for depth loss";
    depths_low ←
      assert_some depths_low "Low-resolution depths are required for depth loss";
    let points := normalize_points width height points in
    let grid := points in
    let depthloss := depth_term scene_scale depths_low grid depths_gt in
    let loss := loss + depthloss * depth_lambda cfg in
    if enable_retinex cfg then
      depths_enh ←
        assert_some depths_enh "Enhanced depths are required for enhanced depth loss";
      let points := normalize_points width height points in
      let grid := points in
      let depthloss_enh := depth_term scene_scale depths_enh grid depths_gt in
      let loss := loss + depthloss_enh * depth_lambda cfg in
      Ok (loss, depthloss_value)
    else Ok (loss, depthloss_value)
  else Ok (loss, depthloss_value).

End DepthLoss.

End Depth.

(* ================================================================== *)
(** * The frames of the trajectory video: the loop of
      [Runner.render_traj] *)

Module Video.
Import torch.

(** One rendering [1, H, W, C] with its batch dimension dropped: rows of
    positions of channel vectors. *)
Abbreviation Frame := (list (list (list R))) (only parsing).

(** [t.min()] and [t.max()] over all entries; [torch] refuses an empty
    tensor. *)
Definition tmin (t : list R) : Result R :=
  match t with
  | [] => Raise (RuntimeError "min(): Expected reduction dim to be specified for input.numel() == 0")
  | x :: t' => Ok (foldl Rmin x t')
  end.

Definition tmax (t : list R) : Result R :=
  match t with
  | [] => Raise (RuntimeError "max(): Expected reduction dim to be specified for input.numel() == 0")
  | x :: t' => Ok (foldl Rmax x t')
  end.

Definition frame_map (f : R -> R) (a : Frame) : Frame := map (img_map f) a.

(** [a[..., lo:hi]] *)
Definition frame_channels (lo hi : nat) (a : Frame) : Frame :=
  map (channels lo hi) a.

(** [canvas_traj]: the clamped colours with, to their right, the depth map
    normalized by its range and repeated over three channels. *)
Definition canvas_traj (renders_traj : Frame) : Result Frame :=
  let colors_traj := frame_map (clamp 0 1) (frame_channels 0 3 renders_traj) in
  let depths_traj := frame_channels 3 4 renders_traj in
  lo ← tmin (concat (concat depths_traj));
  hi ← tmax (concat (concat depths_traj));
  let depths_traj_norm :=
    frame_map (fun d => (d - lo) / (hi - lo + 1 / 10 ^ 10)) depths_traj in
  let canvas_traj_list :=
    (colors_traj, map (map (fun px => px ++ px ++ px)) depths_traj_norm) in
  Ok (zip_with app canvas_traj_list.1 canvas_traj_list.2).

End Video.

(* ================================================================== *)
(** * The statistics of an evaluation: [Runner.eval] *)

Module Evaluation.
Import torch Raster.

(** [metrics[k].append(v)] on a [defaultdict(list)] *)
Definition append (k : string) (v : R) (metrics : gmap string (list R))
  : gmap string (list R) :=
  <[k := default [] (metrics !! k) ++ [v]]> metrics.

(** [torch.stack(v_list).mean().item()] for a list that holds a value, and
    [0] for an empty one. *)
Definition mean_item (v_list : list R) : R :=
  match v_list with
  | [] => 0
  | _ => vsum v_list / INR (length v_list)
  end.

Section Eval.

Variable Info : Type.

(** [self.psnr], [self.ssim], [self.lpips], [self.niqe_metric] (which may
    be [None]) and the global [color_correct] of the bilateral grid. *)
Variable psnr : Img -> Img -> R.
Variable ssim : Img -> Img -> R.
Variable lpips : Img -> Img -> R.
Variable niqe_metric : option (Img -> R).
Variable color_correct : Img -> Img -> Img.

(** [cfg.eval_niqe], a field that the record [Config] does not hold. *)
Variable eval_niqe : bool.

(** What one pass of the loop over the validation set works on: the
    ground-truth image, what [rasterize_splats] returned for its camera
    and the seconds the rendering took ([time.time() - tic]). *)
Record Sample : Type := {
  pixels : Img;
  out : RasterOut Info;
  elapsed : R
}.

(** The [metrics[...].append(...)] statements of one pass, in the order of
    the source; they run on the worker of rank zero. *)
Definition image_metrics (cfg : Config) (s : Sample)
    (metrics : gmap string (list R)) : gmap string (list R) :=
  let '(colors_enh, colors_low, alphas_enh, alphas_low, info) :=
    eval_unpack (out s) in
  let colors_low := img_map (clamp 0 1) colors_low in
  let colors_enh := img_map (clamp 0 1) colors_enh in
  let pixels_p := pixels s in
  let colors_p := colors_low in
  let metrics := append "psnr" (psnr colors_p pixels_p) metrics in
  let metrics := append "ssim" (ssim colors_p pixels_p) metrics in
  let metrics := append "lpips" (lpips colors_p pixels_p) metrics in
  let metrics :=
    match (if eval_niqe then niqe_metric else None) with
    | Some niqe =>
        let metrics := append "niqe" (niqe colors_p) metrics in
        if enable_retinex cfg
        then append "niqe_enh" (niqe colors_enh) metrics
        else metrics
    | None => metrics
    end in
  let metrics :=
    if use_bilateral_grid cfg then
      let cc_colors := color_correct colors_low (pixels s) in
      let metrics := append "cc_psnr" (psnr cc_colors pixels_p) metrics in
      let metrics := append "cc_ssim" (ssim cc_colors pixels_p) metrics in
      append "cc_lpips" (lpips cc_colors pixels_p) metrics
    else metrics in
  if enable_retinex cfg then
    let metrics := append "lpips_enh" (lpips colors_enh pixels_p) metrics in
    let metrics := append "ssim_enh" (ssim colors_enh pixels_p) metrics in
    append "psnr_enh" (psnr colors_enh pixels_p) metrics
  else metrics.

(** [colors_low] and [colors_enh] of a pass after
    [torch.clamp(colors, 0.0, 1.0)]. *)
Definition colors_low_of (s : Sample) : Img :=
  img_map (clamp 0 1) (eval_unpack (out s)).1.1.1.2.

Definition colors_enh_of (s : Sample) : Img :=
  img_map (clamp 0 1) (eval_unpack (out s)).1.1.1.1.

(** [metrics] after the loop. *)
Definition metrics_of (cfg : Config) (samples : list Sample)
  : gmap string (list R) :=
  foldl (fun metrics s => image_metrics cfg s metrics) ∅ samples.

(** [ellipse_time_total] after the loop:
    [ellipse_time_total += max(time.time() - tic, 1e-10)]. *)
Definition ellipse_time_total (samples : list Sample) : R :=
  foldl (fun total s => total + Rmax (elapsed s) (1 / 10 ^ 10)) 0 samples.

(** [stats_eval], the dictionary written to [{stage}_step{step}.json];
    [num_GS] is [len(self.splats["means"])] and [total_time] the seconds
    since the runner was built. *)
Definition stats_eval (cfg : Config) (num_GS : nat) (total_time : R)
    (samples : list Sample) : gmap string R :=
  let avg_ellipse_time :=
    if (0 <? length samples)%nat
    then ellipse_time_total samples / INR (length samples)
    else 0 in
  let stats_eval := mean_item <$> metrics_of cfg samples in
  <["total_time" := total_time]>
    (<["num_GS" := INR num_GS]>
       (<["ellipse_time" := avg_ellipse_time]> stats_eval)).

(** [raw_metrics], the dictionary written to
    [{stage}_raw_step{step}.json]. *)
Definition raw_metrics (cfg : Config) (samples : list Sample)
  : gmap string (list R) :=
  metrics_of cfg samples.

(** The two dictionaries [Runner.eval] dumps; the workers of other ranks
    dump nothing. *)
Definition eval (world_rank : nat) (cfg : Config) (num_GS : nat) (total_time : R)
    (samples : list Sample)
  : option (gmap string R * gmap string (list R)) :=
  if (world_rank =? 0)%nat
  then Some (stats_eval cfg num_GS total_time samples, raw_metrics cfg samples)
  else None.

End Eval.

Arguments pixels {Info} _.
Arguments out {Info} _.
Arguments elapsed {Info} _.
Arguments image_metrics {Info} _ _ _ _ _ _ _ _ _.
Arguments colors_low_of {Info} _.
Arguments colors_enh_of {Info} _.
Arguments metrics_of {Info} _ _ _ _ _ _ _ _.
Arguments ellipse_time_total {Info} _.
Arguments stats_eval {Info} _ _ _ _ _ _ _ _ _ _.
Arguments raw_metrics {Info} _ _ _ _ _ _ _ _.
Arguments eval {Info} _ _ _ _ _ _ _ _ _ _ _.

End Evaluation.

(* ================================================================== *)
(** * The entry point of a worker: [main] *)

Module Main.
Import Scene Orchestrator.

(** A checkpoint as [torch.load] returns it: the dictionary [data_save]
    that [train] saved, with the step and the state of the splats (the
    optional states of the pose and appearance modules belong to modules
    that the record [Runner] does not hold). *)
Record Checkpoint : Type := {
  ck_step : Z;
  ck_splats : gmap string Shape
}.

(** [torch.cat(tensors)] on shapes: the tensors are joined along their
    first dimension and have to agree in the others; one-dimensional empty
    tensors are skipped, as [torch] does. *)
Definition cat_shapes (tensors : list Shape) : Result Shape :=
  match tensors with
  | [] => Raise (RuntimeError "torch.cat(): expected a non-empty list of Tensors")
  | _ =>
      match filter (fun s => s <> [0%nat]) tensors with
      | [] => Ok [0%nat]
      | s :: rest =>
          foldl (fun acc s' =>
                   acc ← acc;
                   match acc, s' with
                   | n :: dims, n' :: dims' =>
                       if bool_decide (dims = dims')
                       then Ok ((n + n')%nat :: dims)
                       else Raise (RuntimeError
                                     "Sizes of tensors must match except in dimension 0")
                   | _, _ =>
                       Raise (RuntimeError
                                "zero-dimensional tensor cannot be concatenated")
                   end)
                (match s with
                 | _ :: _ => Ok s
                 | [] => Raise (RuntimeError
                                  "zero-dimensional tensor cannot be concatenated")
                 end) rest
      end
  end.

(** [for k in runner.splats.keys():
       runner.splats[k].data = torch.cat([c["splats"][k] for c in ckpts_loaded])].
    The order in which the groups are visited only decides which exception
    is raised when several groups would raise one. *)
Definition cat_splats (own : gmap string Shape) (ckpts_loaded : list Checkpoint)
  : Result (gmap string Shape) :=
  joined ←
    mapM (fun kv : string * Shape =>
            tensors ← mapM (fun c => Raster.getitem _ (ck_splats c) kv.1) ckpts_loaded;
            data ← cat_shapes tensors;
            Ok (kv.1, data))
         (map_to_list own);
  Ok (list_to_map joined).

(** Whether [load_state_dict] accepts [input_param] for the parameter
    [param]: the shapes are the same, or the parameter is a scalar and the
    input is one-dimensional, of which [torch] then takes the first element
    (the case it keeps for old checkpoints). *)
Definition size_ok (param input_param : Shape) : bool :=
  match param, input_param with
  | [], [n] => bool_decide (n <> 0%nat)
  | _, _ => bool_decide (input_param = param)
  end.

(** Whether [load_state_dict] finds a fitting entry for the parameter
    [param] under the key [k]. *)
Definition accepts (state_dict : gmap string Shape) (k : string) (param : Shape)
  : bool :=
  match state_dict !! k with
  | Some input_param => size_ok param input_param
  | None => false
  end.

(** [runner.splats.load_state_dict(state_dict)] with the default
    [strict=True], on shapes: a missing key, an unexpected key or a size
    mismatch raises; otherwise the values are copied into the parameters,
    which keep their shapes. Indexing an empty input for a scalar
    parameter raises on its own. *)
Definition load_state_dict (own state_dict : gmap string Shape)
  : Result (gmap string Shape) :=
  if bool_decide (map_Exists (fun k param => param = [] /\ state_dict !! k = Some [0%nat])
                             own)
  then Raise (IndexError "index 0 is out of bounds for dimension 0 with size 0")
  else if bool_decide (dom state_dict = dom own)
          && bool_decide (map_Forall (fun k param => accepts state_dict k param = true)
                                     own)
  then Ok own
  else Raise (RuntimeError "Error(s) in loading state_dict for ParameterDict").

(** The runner with the state of its splats replaced. *)
Definition with_splats (r : Runner) (splats : gmap string Shape) : Runner :=
  {| cfg := cfg r;
     world_rank := world_rank r;
     world_size := world_size r;
     scene_scale := scene_scale r;
     illum_optimizers := illum_optimizers r;
     retinex_optimizer := retinex_optimizer r;
     splats := splats;
     optimizers := optimizers r;
     strategy_state := strategy_state r;
     compression_method := compression_method r;
     lpips := lpips r |}.

(** The branch [if cfg_param.ckpt is not None:] for a non-empty list of
    loaded checkpoints, up to [step_loaded = ckpts_loaded[0]["step"]]. *)
Definition load_checkpoints (runner : Runner) (ckpts_loaded : list Checkpoint)
  : Result Runner :=
  match ckpts_loaded with
  | [] => Ok runner
  | first :: _ =>
      splats ←
        (if (1 <? length ckpts_loaded)%nat && (1 <? world_size runner)%nat
         then cat_splats (splats runner) ckpts_loaded
         else load_state_dict (splats runner) (ck_splats first));
      Ok (with_splats runner splats)
  end.

(** The files that the training loop writes: the configuration dump, the
    tensorboard records of the main loop and of the Retinex step, the
    statistics of a save step, the checkpoints and the point clouds. *)
Definition written_by_train (f : File) : bool :=
  match f with
  | CfgYml | TrainStatsJson _ _ | CheckpointPt _ _ | PointCloudPly _ => true
  | TensorboardEvents namespace =>
      String.eqb namespace "train" || String.eqb namespace "retinex_net"
  | _ => false
  end.

Section Entry.

Variable check_sanity :
  Strategy -> gmap string Shape -> gmap string Optimizer -> Result unit.

(** [main(local_rank, world_rank, world_size, cfg_param)]: the flag
    [cfg_param.disable_viewer] after the call, the runner, the files
    written and the exception that ended the run after the runner was
    built and the checkpoints were loaded, if any. [ckpt] is
    [cfg_param.ckpt] with every file read by [torch.load]; it and the
    viewer flag are fields that the record [Config] does not hold. *)
Definition main (parser : Parser) (world_rank world_size : nat) (cfg_param : Config)
    (disable_viewer : bool) (ckpt : option (list Checkpoint)) (d : Data)
  : Result (bool * Runner * (list File * option Exn)) :=
  let disable_viewer :=
    if (1 <? world_size)%nat && negb disable_viewer then true else disable_viewer in
  runner ← Runner_init check_sanity parser world_rank world_size cfg_param;
  match ckpt with
  | Some ckpts_loaded =>
      match ckpts_loaded with
      | [] => Ok (disable_viewer, runner, ([], None))
      | first :: _ =>
          runner ← load_checkpoints runner ckpts_loaded;
          let step_loaded := ck_step first in
          let evaluated := eval_writes runner d step_loaded "val" in
          match render_traj runner d step_loaded with
          | Raise e => Ok (disable_viewer, runner, (evaluated, Some e))
          | Ok rendered =>
              let compressed :=
                if bool_decide (compression cfg_param <> None)
                then run_compression_writes runner d step_loaded
                else [] in
              Ok (disable_viewer, runner, (evaluated ++ rendered ++ compressed, None))
          end
      end
  | None => Ok (disable_viewer, runner, train_writes runner d)
  end.

End Entry.

End Main.

(* ================================================================== *)
(** * Writing the compressed scene back: [Runner.run_compression] *)

Module Recompress.

Section RunCompression.

Variable Ten : Type.

(** [self.compression_method.compress(compress_dir, state_dict)] followed
    by [self.compression_method.decompress(compress_dir)]: the dictionary
    [splats_c] read back for a given state. *)
Variable codec : gmap string Ten -> gmap string Ten.

(** [self.splats[k_splat].data = splats_c[k_splat]] *)
Definition assign (splats : Result (gmap string Ten)) (kv : string * Ten)
  : Result (gmap string Ten) :=
  splats ← splats;
  _ ← Raster.getitem _ splats kv.1;
  Ok (<[kv.1 := kv.2]> splats).

(** The state of the splats after [run_compression], before the evaluation
    it ends in. The order in which the keys of [splats_c] are visited only
    decides which [KeyError] is raised when several keys are unknown. *)
Definition run_compression (compression_method : option Scene.Compression)
    (splats : gmap string Ten) : Result (gmap string Ten) :=
  match compression_method with
  | None => Ok splats
  | Some _ =>
      let splats_c := codec splats in
      foldl assign (Ok splats) (map_to_list splats_c)
  end.

End RunCompression.

Arguments assign {Ten} _ _.
Arguments run_compression {Ten} _ _ _.

End Recompress.

(* ================================================================== *)
(** * What [Runner.retinex_train_step] logs about the twelve terms *)

Module RetinexLog.
Import torch LossComposer.

(** [loss_names] *)
Definition loss_names : list string :=
  [ "reflect_spa"; "color_val"; "exposure_val"; "smoothing";
    "adaptive_curve"; "laplacian_val"; "gradient"; "frequency_val";
    "smooth_edge_aware"; "exposure_local";
    "illumination_frequency_penalty"; "exclusion_val" ]%string.

(** [t[i].item()] *)
Definition item (t : list R) (i : nat) : Result R :=
  match t !! i with
  | Some x => Ok x
  | None => Raise (IndexError "index out of range")
  end.

(** The scalars written for one term: the unweighted value under
    [loss_{name}_unweighted]; then either the weighted value under
    [loss_{name}_weighted_kendall] with [log_var_{name}] and
    [effective_weight_{name}], or the weighted value under
    [loss_{name}_fixed_weighted]. *)
Record TermLog : Type := {
  name : string;
  unweighted : R;
  weighted_tag : string;
  weighted : R;
  log_var : option R;
  effective_weight : option R
}.

Section Log.

(** [log_vars] of the multi-scale network *)
Variable log_vars : list R.

(** [logged_weights] and [logged_log_vars], set by the branch that
    computes the total. *)
Definition logged_weights (cfg : Config) : list R :=
  if enable_dynamic_weights cfg && multi_scale_retinex cfg
  then map (fun x => x / 2) (vmul (base_lambdas cfg) (map (fun v => exp (- v)) log_vars))
  else base_lambdas cfg.

Definition logged_log_vars (cfg : Config) (individual_losses : list R) : list R :=
  if enable_dynamic_weights cfg && multi_scale_retinex cfg
  then log_vars
  else map (fun _ => 0) individual_losses.

(** One pass of [for i, name in enumerate(loss_names):] *)
Definition term_log (cfg : Config) (individual_losses : list R) (i : nat)
    (name : string) : Result TermLog :=
  l ← item individual_losses i;
  if enable_dynamic_weights cfg then
    w ← item (logged_weights cfg) i;
    v ← item (logged_log_vars cfg individual_losses) i;
    Ok {| name := name; unweighted := l;
          weighted_tag := "weighted_kendall"; weighted := l * w;
          log_var := Some v; effective_weight := Some w |}
  else
    b ← item (base_lambdas cfg) i;
    Ok {| name := name; unweighted := l;
          weighted_tag := "fixed_weighted"; weighted := l * b;
          log_var := None; effective_weight := None |}.

(** The block [if step % self.cfg.tb_every == 0:] as far as the total and
    the twelve terms go: the value written under [retinex_net/total_loss]
    and the scalars of the terms. *)
Definition logged_terms (cfg : Config) (individual_losses : list R)
  : Result (R * list TermLog) :=
  let total_loss := weighted_total log_vars cfg individual_losses in
  terms ← mapM (fun '(i, name) => term_log cfg individual_losses i name)
               (imap pair loss_names);
  Ok (total_loss, terms).

End Log.

End RetinexLog.

(* ================================================================== *)
(** * Further concrete inputs *)

Module Samples.
Import torch.

(** A configuration with some of its settings replaced: the switches of the
    appearance optimization, the depth loss, the random background and the
    export of point clouds, the twelve static weights and the logging
    period. *)
Definition with_settings (app depth bkgd ply : bool) (reweigh : R -> R)
    (period : Z) (c : Config) : Config :=
  {| enable_retinex := enable_retinex c;
     use_hsv_color_space := use_hsv_color_space c;
     use_illum_opt := use_illum_opt c;
     multi_scale_retinex := multi_scale_retinex c;
     enable_dynamic_weights := enable_dynamic_weights c;
     learn_global_exposure := learn_global_exposure c;
     learn_local_exposure := learn_local_exposure c;
     pretrain_retinex := pretrain_retinex c;
     app_opt := app;
     pose_opt := pose_opt c;
     depth_loss := depth;
     use_bilateral_grid := use_bilateral_grid c;
     random_bkgd := bkgd;
     packed := packed c;
     sparse_grad := sparse_grad c;
     visible_adam := visible_adam c;
     antialiased := antialiased c;
     save_ply := ply;
     disable_video := disable_video c;
     tb_save_image := tb_save_image c;
     init_type := init_type c;
     compression := compression c;
     lpips_net := lpips_net c;
     render_traj_path := render_traj_path c;
     strategy := strategy c;
     lambda_reflect := reweigh (lambda_reflect c);
     lambda_illum_color := reweigh (lambda_illum_color c);
     lambda_illum_exposure := reweigh (lambda_illum_exposure c);
     lambda_smooth := reweigh (lambda_smooth c);
     lambda_illum_curve := reweigh (lambda_illum_curve c);
     lambda_laplacian := reweigh (lambda_laplacian c);
     lambda_gradient := reweigh (lambda_gradient c);
     lambda_frequency := reweigh (lambda_frequency c);
     lambda_edge_aware_smooth := reweigh (lambda_edge_aware_smooth c);
     lambda_illum_exposure_local := reweigh (lambda_illum_exposure_local c);
     lambda_illum_frequency := reweigh (lambda_illum_frequency c);
     lambda_exclusion := reweigh (lambda_exclusion c);
     lambda_low := lambda_low c;
     lambda_illumination := lambda_illumination c;
     ssim_lambda := ssim_lambda c;
     depth_lambda := depth_lambda c;
     opacity_reg := opacity_reg c;
     scale_reg := scale_reg c;
     init_num_pts := init_num_pts c;
     init_extent := init_extent c;
     init_opa := init_opa c;
     init_scale := init_scale c;
     global_scale := global_scale c;
     means_lr := means_lr c;
     scales_lr := scales_lr c;
     opacities_lr := opacities_lr c;
     quats_lr := quats_lr c;
     sh0_lr := sh0_lr c;
     shN_lr := shN_lr c;
     sh_degree := sh_degree c;
     batch_size := batch_size c;
     max_steps := max_steps c;
     pretrain_steps := pretrain_steps c;
     tb_every := period;
     save_steps := save_steps c;
     eval_steps := eval_steps c;
     ply_steps := ply_steps c |}.

Definition with_switches (app depth bkgd ply : bool) (reweigh : R -> R) (c : Config)
  : Config :=
  with_settings app depth bkgd ply reweigh (tb_every c) c.

Definition with_period (period : Z) (c : Config) : Config :=
  with_settings (app_opt c) (depth_loss c) (random_bkgd c) (save_ply c)
    (fun w => w) period c.

(** The quiet configuration of the examples: no Retinex pipeline, no video,
    the MCMC strategy; and the same with the Retinex pipeline. *)
Definition plain_cfg : Config :=
  Inputs.demo_cfg false false false true MCMCStrategy "interp".

Definition retinex_cfg : Config :=
  Inputs.demo_cfg true false false true MCMCStrategy "interp".

(** The learned weighting with every static weight at one, and twelve
    terms of value one. *)
Definition learned_cfg : Config :=
  with_switches false false false false (fun _ => 1)
    (Inputs.demo_cfg true true true true MCMCStrategy "interp").

Definition ones : list R := [1; 1; 1; 1; 1; 1; 1; 1; 1; 1; 1; 1].

(** A checkpoint of a scene of [n] Gaussians, saved at step 7. *)
Definition demo_ckpt (n : nat) : Main.Checkpoint :=
  {| Main.ck_step := 7;
     Main.ck_splats :=
       Scene.dict_of
         [ ("means"%string, [n; 3%nat]); ("scales"%string, [n; 3%nat]);
           ("quats"%string, [n; 4%nat]); ("opacities"%string, [n]);
           ("sh0"%string, [n; 1%nat; 3%nat]); ("shN"%string, [n; 15%nat; 3%nat]);
           ("adjust_k"%string, [n; 1%nat; 3%nat]);
           ("adjust_b"%string, [n; 1%nat; 3%nat]) ] |}.

(** One key point in the corner of a five-by-five image, and depth maps
    (opaque to the sampler below, which reads one depth of two). *)
Definition corner_points : list (list (R * R)) := [[(4, 0)]].

Definition flat_sampler (depths : Img) (grid : list (list (R * R))) : Img := [[2]].

(** A rendering of one position with colour and depth, and one validation
    pass over a white rendering. *)
Definition one_pixel_frame : list (list (list R)) := [[[1 / 2; 1 / 2; 2; 3]]].

Definition white_sample : Evaluation.Sample unit :=
  {| Evaluation.pixels := [[1]];
     Evaluation.out := Raster.Raw [[1]] [[1]] tt;
     Evaluation.elapsed := 0 |}.

Definition distance (a b : Img) : R := Step.l1_loss a b.

(** A codec that hands back the means alone, moved to one. *)
Definition means_codec (splats : gmap string R) : gmap string R :=
  {[ "means"%string := 1 ]}.

End Samples.


(* ****************************************************************** *)
(** * Properties *)
(* ****************************************************************** *)

Module RetinexFacts.
Import torch Inputs.

Lemma Int_part_0 : Int_part 0 = 0%Z.
Proof. symmetry. apply Int_part_spec. simpl. lra. Qed.

Lemma fmod_0 m : kornia.fmod 0 m = 0.
Proof. unfold kornia.fmod. unfold Rdiv. rewrite Rmult_0_l, Int_part_0. simpl. lra. Qed.

Lemma Rmax3_ge (r g b : R) :
r <= Rmax r (Rmax g b) /\ g <= Rmax r (Rmax g b) /\ b <= Rmax r (Rmax g b).
Proof.
pose proof (Rmax_l r (Rmax g b)). pose proof (Rmax_r r (Rmax g b)).
pose proof (Rmax_l g b). pose proof (Rmax_r g b). lra.
Qed.

(** The value channel of [rgb_to_hsv] is the largest of the three channels. *)
Lemma rgb_to_hsv_value (r g b : R) :
exists h s, kornia.rgb_to_hsv [r; g; b] = [h; s; Rmax r (Rmax g b)].
Proof. unfold kornia.rgb_to_hsv. eauto. Qed.

Lemma hsv_of_red_dominant :
kornia.rgb_to_hsv [1/2; 1/4; 1/4] = [0; (1/4) / (1/2 + 1/10^8); 1/2].
Proof.
unfold kornia.rgb_to_hsv.
replace (Rmax (1/2) (Rmax (1/4) (1/4))) with (1/2)
  by (unfold Rmax; repeat destruct Rle_dec; lra).
replace (Rmin (1/2) (Rmin (1/4) (1/4))) with (1/4)
  by (unfold Rmin; repeat destruct Rle_dec; lra).
unfold kornia.argmax3, kornia.Rleb, kornia.Reqb.
destruct (Rle_dec (1/4) (1/2)); [|lra]. simpl.
destruct (Req_dec_T (1/2 - 1/4) 0); [lra|].
replace ((1 / 2 - 1 / 4 - (1 / 2 - 1 / 4)) / (1 / 2 - 1 / 4) / 6) with 0 by (field).
rewrite fmod_0.
replace (2 * PI * 0) with 0 by lra.
replace (1 / 2 - 1 / 4) with (1 / 4) by lra.
reflexivity.
Qed.

Lemma rgb_of_zero_hue s v : kornia.hsv_to_rgb [0; s; v] = [v; v * (1 - s); v * (1 - s)].
Proof.
unfold kornia.hsv_to_rgb.
replace (0 / (2 * PI) * 6) with 0 by (unfold Rdiv; lra).
unfold kornia.floor. rewrite Int_part_0. rewrite !fmod_0.
rewrite Int_part_0.
replace (0 - 0) with 0 by lra.
replace (1 - 0 * s) with 1 by lra.
replace (1 - (1 - 0) * s) with (1 - s) by lra.
reflexivity.
Qed.

Lemma lookup_map {A B : Type} (f : A -> B) (l : list A) (i : nat) :
map f l !! i = f <$> l !! i.
Proof. revert i. induction l as [|a l IH]; intros [|i]; simpl; auto. Qed.

Lemma Forall_map_all {A B : Type} (P : B -> Prop) (f : A -> B) (l : list A) :
(forall a, P (f a)) -> Forall P (map f l).
Proof. intros H. induction l; simpl; constructor; auto. Qed.

Lemma at_img_map (f : R -> R) (a : Img) (i c : nat) :
at_ (img_map f a) i c = f <$> at_ a i c.
Proof.
unfold at_, img_map. rewrite lookup_map.
destruct (a !! i) as [px|]; simpl; [|done].
apply lookup_map.
Qed.

Lemma at_img_map2 (f : R -> R -> R) (a b : Img) (i c : nat) (x y : R) :
at_ a i c = Some x -> at_ b i c = Some y ->
at_ (img_map2 f a b) i c = Some (f x y).
Proof.
unfold at_, img_map2. intros Ha Hb.
destruct (a !! i) as [pa|] eqn:Ea; [|done].
destruct (b !! i) as [pb|] eqn:Eb; [|done].
rewrite lookup_zip_with, Ea; simpl. rewrite Eb; simpl.
rewrite lookup_zip_with, Ha; simpl. by rewrite Hb.
Qed.

Lemma finfo_eps_pos : 0 < finfo_eps.
Proof. unfold finfo_eps. apply Rinv_0_lt_compat. apply pow_lt. lra. Qed.

Lemma finfo_eps_small : finfo_eps <= 1 / 2.
Proof.
unfold finfo_eps. replace (1 / 2) with (/ 2) by lra.
apply Rinv_le_contravar; [lra|]. simpl. lra.
Qed.

Lemma clamp_id (lo hi x : R) : lo <= x -> x <= hi -> clamp lo hi x = x.
Proof.
intros H1 H2. unfold clamp. rewrite (Rmax_left x lo) by lra.
apply Rmin_left. lra.
Qed.

Lemma clamp_min_id (lo x : R) : lo <= x -> clamp_min lo x = x.
Proof. intros. unfold clamp_min. apply Rmax_left. lra. Qed.

Lemma clamp_bounds (lo hi x : R) : lo <= hi -> lo <= clamp lo hi x <= hi.
Proof.
intros H. unfold clamp. split.
- apply Rmin_glb; [apply Rmax_r|lra].
- apply Rmin_r.
Qed.

Lemma exp_ln_minus (y l : R) : 0 < y -> exp l * exp (ln y - l) = y.
Proof.
intros Hy. rewrite <- exp_plus. replace (l + (ln y - l)) with (ln y) by lra.
by apply exp_ln.
Qed.


#[local] Arguments kornia.rgb_to_hsv : simpl never.
#[local] Arguments kornia.hsv_to_rgb : simpl never.

Lemma hsv_red_pixels :
map kornia.rgb_to_hsv red_pixels = [[0; (1 / 4) / (1 / 2 + 1 / 10 ^ 8); 1 / 2]].
Proof.
change (map kornia.rgb_to_hsv red_pixels)
  with [kornia.rgb_to_hsv [1 / 2; 1 / 4; 1 / 4]].
by rewrite hsv_of_red_dominant.
Qed.

(** The integer part of a sixth: both of a real and of its integer part. *)
Lemma Int_part_sixth (y : R) :
  Int_part (y / 6) = (Int_part y / 6)%Z /\
  Int_part (IZR (Int_part y) / 6) = (Int_part y / 6)%Z.
Proof.
  destruct (base_Int_part y) as [Hlo Hhi].
  set (n := Int_part y) in *.
  pose proof (Z.div_mod n 6 ltac:(lia)) as Hdm.
  pose proof (Z.mod_pos_bound n 6 ltac:(lia)) as [Hm0 Hm6].
  assert (Hn : IZR n = 6 * IZR (n / 6) + IZR (n mod 6)).
  { rewrite Hdm at 1. rewrite plus_IZR, mult_IZR. reflexivity. }
  assert (H0 : 0 <= IZR (n mod 6)) by (apply IZR_le in Hm0; exact Hm0).
  assert (H5 : IZR (n mod 6) <= 5).
  { assert (n mod 6 <= 5)%Z by lia. apply IZR_le in H. exact H. }
  split; symmetry; apply Int_part_spec; lra.
Qed.

(** The fraction [f] of [hsv_to_rgb] is the fractional part of six times
    the hue. *)
Lemma hue_fraction (y : R) :
  kornia.fmod y 6 - kornia.fmod (kornia.floor y) 6 = y - IZR (Int_part y) /\
  0 <= y - IZR (Int_part y) < 1.
Proof.
  unfold kornia.fmod, kornia.floor.
  destruct (Int_part_sixth y) as [-> ->].
  destruct (base_Int_part y). split; lra.
Qed.

(** For a saturation in [0, 1] and a value that is not negative,
    [hsv_to_rgb] gives three channels in [0, v] of which the largest is the
    value. *)
Lemma hsv_to_rgb_value (h s v : R) :
  0 <= s <= 1 -> 0 <= v ->
  exists r g b : R,
    kornia.hsv_to_rgb [h; s; v] = [r; g; b] /\
    Rmax r (Rmax g b) = v /\
    0 <= r <= v /\ 0 <= g <= v /\ 0 <= b <= v.
Proof.
  intros Hs Hv. unfold kornia.hsv_to_rgb.
  destruct (hue_fraction (h / (2 * PI) * 6)) as [-> Hf].
  set (f := h / (2 * PI) * 6 - IZR (Int_part (h / (2 * PI) * 6))) in *.
  assert (Hp : 0 <= v * (1 - s) <= v) by nra.
  assert (Hq : 0 <= v * (1 - f * s) <= v) by nra.
  assert (Ht : 0 <= v * (1 - (1 - f) * s) <= v) by nra.
  set (p := v * (1 - s)) in *. set (q := v * (1 - f * s)) in *.
  set (t := v * (1 - (1 - f) * s)) in *.
  repeat match goal with
         | |- context [match ?z with _ => _ end] => destruct z
         end;
    eexists _, _, _; (split; [reflexivity|]);
    (split; [unfold Rmax; repeat destruct Rle_dec; lra|lra]).
Qed.

Lemma Rmin3_le (r g b : R) :
  Rmin r (Rmin g b) <= r /\ Rmin r (Rmin g b) <= g /\ Rmin r (Rmin g b) <= b.
Proof.
  pose proof (Rmin_l r (Rmin g b)). pose proof (Rmin_r r (Rmin g b)).
  pose proof (Rmin_l g b). pose proof (Rmin_r g b). lra.
Qed.

Lemma Rmin3_nonneg (r g b : R) : 0 <= r -> 0 <= g -> 0 <= b -> 0 <= Rmin r (Rmin g b).
Proof. intros. unfold Rmin. repeat destruct Rle_dec; lra. Qed.

(** For channels that are not negative, [rgb_to_hsv] gives a saturation in
    [0, 1] and the largest channel as value. *)
Lemma rgb_to_hsv_saturation (r g b : R) :
  0 <= r -> 0 <= g -> 0 <= b ->
  exists h s : R,
    kornia.rgb_to_hsv [r; g; b] = [h; s; Rmax r (Rmax g b)] /\ 0 <= s <= 1.
Proof.
  intros Hr Hg Hb. unfold kornia.rgb_to_hsv. eexists _, _. split; [reflexivity|].
  pose proof (Rmax3_ge r g b) as (Hmr & _ & _).
  pose proof (Rmin3_le r g b) as (Hnr & _ & _).
  pose proof (Rmin3_nonneg r g b Hr Hg Hb) as Hmin.
  set (M := Rmax r (Rmax g b)) in *. set (m := Rmin r (Rmin g b)) in *.
  assert (Hden : 0 < M + 1 / 10 ^ 8).
  { assert (0 < 1 / 10 ^ 8) by (apply Rdiv_lt_0_compat; [lra|apply pow_lt; lra]). lra. }
  split.
  - unfold Rdiv. apply Rmult_le_pos; [lra|]. left. by apply Rinv_0_lt_compat.
  - apply (Rmult_le_reg_r (M + 1 / 10 ^ 8)); [exact Hden|].
    unfold Rdiv at 1. rewrite Rmult_assoc, Rinv_l by lra.
    assert (0 < 1 / 10 ^ 8) by (apply Rdiv_lt_0_compat; [lra|apply pow_lt; lra]). lra.
Qed.

Section Facts.
Variable Emb : Type.
Variable Aux : Type.
Variable retinex_embeds : list nat -> Emb.
Variable retinex_net : Img -> Emb -> Retinex.NetOut Aux.

Abbreviation L hsv ids pixels :=
(Retinex.log_illumination_map
   (Retinex.net_out retinex_embeds retinex_net hsv ids pixels)).

Lemma illumination_at hsv ids pixels i c l :
at_ (L hsv ids pixels) i c = Some l ->
at_ (Retinex.illumination_map retinex_embeds retinex_net hsv ids pixels) i c
= Some (clamp_min (1 / 10 ^ 5) (exp l)).
Proof.
intros H. unfold Retinex.illumination_map, Retinex.exp_illumination.
by rewrite !at_img_map, H.
Qed.

Lemma reflectance_v_at hsv ids pixels i c x l :
at_ (Retinex.input_image_for_net hsv pixels) i c = Some x ->
at_ (L hsv ids pixels) i c = Some l ->
at_ (Retinex.reflectance_v_target retinex_embeds retinex_net hsv ids pixels) i c
= Some (exp (ln (x + finfo_eps) - l)).
Proof.
intros Hx Hl. unfold Retinex.reflectance_v_target, Retinex.log_reflectance_target.
rewrite at_img_map.
rewrite (at_img_map2 Rminus _ _ i c (ln (x + finfo_eps)) l); [done| |done].
unfold Retinex.log_input_image. by rewrite at_img_map, Hx.
Qed.

(** In the HSV mode the working image is the largest channel of a pixel. *)
Lemma value_channel_at pixels i r g b :
pixels !! i = Some [r; g; b] ->
at_ (Retinex.input_image_for_net true pixels) i 0 = Some (Rmax r (Rmax g b)).
Proof.
intros H. unfold at_, Retinex.input_image_for_net, channels.
rewrite !lookup_map, H. done.
Qed.

(** The returned reflectance of a pixel in the HSV mode, before the clamp:
    the colour of the pixel's hue and saturation at the value
    [exp(log_value - log_illumination)]. *)
Lemma hsv_reflectance_at (ids : list nat) (pixels : list (list R)) (i : nat)
    (r g b h s l : R) :
  pixels !! i = Some [r; g; b] ->
  kornia.rgb_to_hsv [r; g; b] = [h; s; Rmax r (Rmax g b)] ->
  at_ (Retinex.log_illumination_map
         (Retinex.net_out retinex_embeds retinex_net true ids pixels)) i 0 = Some l ->
  Retinex.reflectance_unclamped retinex_embeds retinex_net true ids pixels !! i
  = Some (kornia.hsv_to_rgb
            [h; s; exp (ln (Rmax r (Rmax g b) + finfo_eps) - l)]).
Proof.
  intros Hpx Hhsv Hl.
  unfold Retinex.reflectance_unclamped, Retinex.reflectance_v_target,
    Retinex.log_reflectance_target, Retinex.log_input_image,
    Retinex.input_image_for_net, cat3, channels, img_map, img_map2.
  unfold at_ in Hl.
  destruct (Retinex.log_illumination_map
              (Retinex.net_out retinex_embeds retinex_net true ids pixels) !! i)
    as [lpx|] eqn:El; [|discriminate].
  destruct lpx as [|l0 rest]; [discriminate|]. injection Hl as ->.
  rewrite lookup_map, !lookup_zip_with, !lookup_map, Hpx.
  cbn -[kornia.rgb_to_hsv kornia.hsv_to_rgb]. rewrite Hhsv.
  cbn -[kornia.rgb_to_hsv kornia.hsv_to_rgb].
  rewrite lookup_zip_with, !lookup_map, Hpx, El.
  cbn -[kornia.rgb_to_hsv kornia.hsv_to_rgb]. rewrite Hhsv.
  cbn -[kornia.rgb_to_hsv kornia.hsv_to_rgb]. reflexivity.
Qed.

Lemma illumination_floor hsv ids pixels :
Forall (Forall (fun a => 1 / 10 ^ 5 <= a))
  (Retinex.illumination_map retinex_embeds retinex_net hsv ids pixels).
Proof.
unfold Retinex.illumination_map, img_map.
apply Forall_map_all. intros px. apply Forall_map_all.
intros l. unfold clamp_min. apply Rmax_r.
Qed.

Lemma reflectance_range hsv ids pixels :
Forall (Forall (fun r => 0 <= r <= 1))
  (Retinex.reflectance_map retinex_embeds retinex_net hsv ids pixels).
Proof.
unfold Retinex.reflectance_map, img_map.
apply Forall_map_all. intros px. apply Forall_map_all.
intros l. apply clamp_bounds. lra.
Qed.

(** C1 (as amended). At an entry where the illumination floor of 1e-5
    does not trigger, the returned illumination times the reflectance of
    the working colour space, [exp(log_image - log_illumination)], is the
    entry of the working image (the pixels, or their value channel in the
    HSV mode) plus the epsilon added inside the logarithm. Wherever that
    reflectance does not exceed 1, it is the returned reflectance map in the
    RGB mode, and the value channel (the largest channel) of the returned
    reflectance map in the HSV mode, where the returned map is the colour
    image put together again from hue, saturation and that value. In both
    modes every returned illumination entry is at least 1e-5 and every
    returned reflectance entry lies in [0, 1]. *)
Theorem C1_reconstruction (hsv : bool) (ids : list nat) (pixels : Img)
    (i c : nat) (x l : R) :
  at_ (Retinex.input_image_for_net hsv pixels) i c = Some x ->
  at_ (L hsv ids pixels) i c = Some l ->
  0 <= x ->
  1 / 10 ^ 5 <= exp l ->
  exists a rv,
    at_ (Retinex.illumination_map retinex_embeds retinex_net hsv ids pixels) i c
    = Some a /\
    at_ (Retinex.reflectance_v_target retinex_embeds retinex_net hsv ids pixels) i c
    = Some rv /\
    a * rv = x + finfo_eps /\
    (hsv = false -> rv <= 1 ->
     at_ (Retinex.reflectance_map retinex_embeds retinex_net hsv ids pixels) i c
     = Some rv) /\
    (hsv = true -> rv <= 1 ->
     forall r g b : R,
       pixels !! i = Some [r; g; b] -> 0 <= r -> 0 <= g -> 0 <= b -> c = 0%nat ->
       x = Rmax r (Rmax g b) /\
       exists rr rg rb : R,
         Retinex.reflectance_map retinex_embeds retinex_net hsv ids pixels !! i
         = Some [rr; rg; rb] /\
         Rmax rr (Rmax rg rb) = rv) /\
    Forall (Forall (fun a => 1 / 10 ^ 5 <= a))
      (Retinex.illumination_map retinex_embeds retinex_net hsv ids pixels) /\
    Forall (Forall (fun r => 0 <= r <= 1))
      (Retinex.reflectance_map retinex_embeds retinex_net hsv ids pixels).
Proof.
  intros Hx Hl Hx0 Hfloor. pose proof finfo_eps_pos as Heps.
  exists (exp l), (exp (ln (x + finfo_eps) - l)).
  split; [|split; [|split; [|split; [|split; [|split]]]]].
  - rewrite (illumination_at _ _ _ _ _ l Hl). by rewrite clamp_min_id.
  - by apply reflectance_v_at.
  - apply exp_ln_minus. lra.
  - intros -> Hceil. unfold Retinex.reflectance_map, Retinex.reflectance_unclamped.
    rewrite at_img_map, (reflectance_v_at false ids pixels i c x l Hx Hl). simpl.
    rewrite clamp_id; [done| |done]. left. apply exp_pos.
  - intros -> Hceil r g b Hpx Hr Hg Hb ->.
    rewrite (value_channel_at pixels i r g b Hpx) in Hx. injection Hx as <-.
    split; [reflexivity|].
    destruct (rgb_to_hsv_saturation r g b Hr Hg Hb) as (h & s & Hhsv & Hs).
    pose proof (hsv_reflectance_at ids pixels i r g b h s l Hpx Hhsv Hl) as Hun.
    set (rv := exp (ln (Rmax r (Rmax g b) + finfo_eps) - l)) in *.
    assert (Hrv : 0 <= rv) by (left; apply exp_pos).
    destruct (hsv_to_rgb_value h s rv Hs Hrv)
      as (rr & rg & rb & Hrgb & Hmax & Hrr & Hrg & Hrb).
    exists rr, rg, rb. split; [|exact Hmax].
    unfold Retinex.reflectance_map, img_map. rewrite lookup_map, Hun, Hrgb.
    cbn [fmap option_fmap option_map map].
    by rewrite !clamp_id by lra.
  - apply illumination_floor.
  - apply reflectance_range.
Qed.

End Facts.

Lemma zero_net_red_hsv :
Retinex.reflectance_unclamped no_embeds zero_net true [0%nat] red_pixels
= [[1 / 2 + finfo_eps;
    (1 / 2 + finfo_eps) * (1 - (1 / 4) / (1 / 2 + 1 / 10 ^ 8));
    (1 / 2 + finfo_eps) * (1 - (1 / 4) / (1 / 2 + 1 / 10 ^ 8))]].
Proof.
unfold Retinex.reflectance_unclamped, Retinex.reflectance_v_target,
  Retinex.log_reflectance_target, Retinex.log_input_image, Retinex.net_out,
  Retinex.input_image_for_net, zero_net.
rewrite hsv_red_pixels. unfold channels, cat3, img_map, img_map2. simpl.
rewrite rgb_of_zero_hue.
replace (ln (1 / 2 + finfo_eps) - 0) with (ln (1 / 2 + finfo_eps)) by lra.
rewrite exp_ln; [done|]. pose proof finfo_eps_pos. lra.
Qed.

(** C1 as stated fails in the HSV mode: there the returned reflectance map
  is the colour image put together again by [hsv_to_rgb], and its product
  with the illumination is not the value channel. For the reddish pixel
  and an illumination of one, no clamp triggers and the green entry of the
  product differs from the value channel plus epsilon. *)
Lemma C1_hsv_counterexample :
~ (forall (i c : nat) (a r v : R),
      at_ (Retinex.illumination_map no_embeds zero_net true [0%nat] red_pixels) i 0
      = Some a ->
      at_ (Retinex.exp_illumination no_embeds zero_net true [0%nat] red_pixels) i 0
      = Some a ->
      at_ (Retinex.reflectance_map no_embeds zero_net true [0%nat] red_pixels) i c
      = Some r ->
      at_ (Retinex.reflectance_unclamped no_embeds zero_net true [0%nat] red_pixels) i c
      = Some r ->
      at_ (Retinex.input_image_for_net true red_pixels) i 0 = Some v ->
      a * r = v + finfo_eps).
Proof.
intros H. pose proof finfo_eps_pos as Heps. pose proof finfo_eps_small as Heps'.
set (s := (1 / 4) / (1 / 2 + 1 / 10 ^ 8)).
assert (Hs : 0 < s < 1).
{ unfold s. split.
  - apply Rdiv_lt_0_compat; lra.
  - apply (Rmult_lt_reg_r (1 / 2 + 1 / 10 ^ 8)); [lra|].
    unfold Rdiv at 1. rewrite Rmult_assoc, Rinv_l by lra. lra. }
specialize (H 0%nat 1%nat 1 ((1 / 2 + finfo_eps) * (1 - s)) (1 / 2)).
assert (Hexp : Retinex.exp_illumination no_embeds zero_net true [0%nat] red_pixels
               = [[1]]).
{ unfold Retinex.exp_illumination, Retinex.net_out, Retinex.input_image_for_net,
    zero_net. rewrite hsv_red_pixels. unfold channels, img_map. simpl.
  by rewrite exp_0. }
assert (Hin : Retinex.input_image_for_net true red_pixels = [[1 / 2]]).
{ unfold Retinex.input_image_for_net. by rewrite hsv_red_pixels. }
assert (E : 1 * ((1 / 2 + finfo_eps) * (1 - s)) = 1 / 2 + finfo_eps).
{ apply H.
  - unfold Retinex.illumination_map. rewrite Hexp. unfold at_, img_map. simpl.
    by rewrite clamp_min_id by lra.
  - by rewrite Hexp.
  - unfold Retinex.reflectance_map. rewrite zero_net_red_hsv.
    unfold at_, img_map. simpl. fold s.
    rewrite clamp_id; [done| |]; nra.
  - by rewrite zero_net_red_hsv.
  - by rewrite Hin. }
nra.
Qed.

(** The hypotheses of [C1_reconstruction] hold at the red entry of the
  reddish pixel in the RGB mode. *)
Lemma C1_reconstruction_witness :
exists a rv,
  at_ (Retinex.illumination_map no_embeds zero_net false [0%nat] red_pixels) 0 0
  = Some a /\
  at_ (Retinex.reflectance_v_target no_embeds zero_net false [0%nat] red_pixels) 0 0
  = Some rv /\
  a * rv = 1 / 2 + finfo_eps.
Proof.
destruct (C1_reconstruction unit unit no_embeds zero_net false [0%nat] red_pixels
            0 0 (1 / 2) 0) as (a & rv & Ha & Hr & Hp & _).
- reflexivity.
- reflexivity.
- lra.
- rewrite exp_0. lra.
- exists a, rv. auto.
Defined.
End RetinexFacts.

(* ================================================================== *)
(** * The composition of the illumination losses *)

Module LossFacts.
Import torch LossComposer Inputs.

Lemma twelve (l : list R) :
  length l = 12%nat ->
  exists a0 a1 a2 a3 a4 a5 a6 a7 a8 a9 a10 a11,
    l = [a0; a1; a2; a3; a4; a5; a6; a7; a8; a9; a10; a11].
Proof.
  intros H.
  do 12 (destruct l as [|? l]; [discriminate H|]).
  destruct l; [|discriminate H]. repeat eexists.
Qed.

(** The stacked weights times the stacked terms, summed, is the indexed
    sum of the specification. *)
Lemma stacked_fixed_sum (weights losses : list R) :
  length weights = 12%nat -> length losses = 12%nat ->
  vsum (vmul weights losses) = fixed_sum weights losses.
Proof.
  intros Hw Hl.
  destruct (twelve _ Hw) as (w0 & w1 & w2 & w3 & w4 & w5 & w6 & w7 & w8 & w9
                             & w10 & w11 & ->).
  destruct (twelve _ Hl) as (l0 & l1 & l2 & l3 & l4 & l5 & l6 & l7 & l8 & l9
                             & l10 & l11 & ->).
  unfold fixed_sum, sigma, vsum, vmul. simpl. ring.
Qed.

Lemma stacked_kendall_sum (weights losses vars : list R) :
  length weights = 12%nat -> length losses = 12%nat -> length vars = 12%nat ->
  term1 weights losses vars + term2 vars = kendall_sum weights losses vars.
Proof.
  intros Hw Hl Hv.
  destruct (twelve _ Hw) as (w0 & w1 & w2 & w3 & w4 & w5 & w6 & w7 & w8 & w9
                             & w10 & w11 & ->).
  destruct (twelve _ Hl) as (l0 & l1 & l2 & l3 & l4 & l5 & l6 & l7 & l8 & l9
                             & l10 & l11 & ->).
  destruct (twelve _ Hv) as (v0 & v1 & v2 & v3 & v4 & v5 & v6 & v7 & v8 & v9
                             & v10 & v11 & ->).
  unfold kendall_sum, term1, term2, sigma, vsum, vmul. simpl. field.
Qed.

Lemma base_lambdas_length (cfg : Config) : length (base_lambdas cfg) = 12%nat.
Proof. reflexivity. Qed.

Section Facts.
Variable Emb : Type.
Variable Aux : Type.
Variable retinex_embeds : list nat -> Emb.
Variable retinex_net : Img -> Emb -> Retinex.NetOut Aux.
Variable L : LossModules Aux.
Variable global_mean_val_param : R.
Variable log_vars : list R.

Lemma individual_losses_length (cfg : Config) (ids : list nat) (pixels : Img) :
  length (individual_losses retinex_embeds retinex_net L global_mean_val_param
            cfg ids pixels) = 12%nat.
Proof. reflexivity. Qed.

(** C2. With learned-uncertainty weighting disabled, the total over any
    twelve term values is the sum of [static_weight_i * loss_i]; the
    loss returned by [retinex_train_step] is that sum over its twelve
    terms, plus the clipping penalty on reflectance above 0.98 or below
    0.02 with its fixed coefficient of one. *)
Theorem C2_fixed_weighting (cfg : Config) (ids : list nat) (pixels : Img) :
  enable_dynamic_weights cfg = false ->
  (forall losses : list R,
      length losses = 12%nat ->
      weighted_total log_vars cfg losses = fixed_sum (base_lambdas cfg) losses) /\
  retinex_train_step retinex_embeds retinex_net L global_mean_val_param log_vars
    cfg ids pixels
  = fixed_sum (base_lambdas cfg)
      (individual_losses retinex_embeds retinex_net L global_mean_val_param
         cfg ids pixels)
    + (loss_clipping_high
         (Retinex.reflectance_map retinex_embeds retinex_net
            (use_hsv_color_space cfg) ids pixels)
       + loss_clipping_low
           (Retinex.reflectance_map retinex_embeds retinex_net
              (use_hsv_color_space cfg) ids pixels)).
Proof.
  intros Hoff.
  assert (Hfixed : forall losses : list R,
             length losses = 12%nat ->
             weighted_total log_vars cfg losses
             = fixed_sum (base_lambdas cfg) losses).
  { intros losses Hlen. unfold weighted_total. rewrite Hoff. cbn [andb].
    apply stacked_fixed_sum; [apply base_lambdas_length|exact Hlen]. }
  split; [exact Hfixed|].
  unfold retinex_train_step, lambda_clipping.
  rewrite Hfixed by apply individual_losses_length. lra.
Qed.

(** C3 (as amended). With [enable_dynamic_weights] selected and twelve
    log-variances, the total before the clipping penalty is the sum of
    [static_weight_i * loss_i * exp(-v_i) / 2] plus the sum of [v_i / 2]
    when the multi-scale network (which owns the log-variances) is in
    use, and the fixed weighted sum otherwise. *)
Theorem C3_learned_weighting (cfg : Config) (losses : list R) :
  enable_dynamic_weights cfg = true ->
  length log_vars = 12%nat ->
  length losses = 12%nat ->
  weighted_total log_vars cfg losses
  = if multi_scale_retinex cfg
    then kendall_sum (base_lambdas cfg) losses log_vars
    else fixed_sum (base_lambdas cfg) losses.
Proof.
  intros Hon Hv Hl. unfold weighted_total. rewrite Hon. cbn [andb].
  destruct (multi_scale_retinex cfg).
  - apply stacked_kendall_sum; [apply base_lambdas_length|exact Hl|exact Hv].
  - apply stacked_fixed_sum; [apply base_lambdas_length|exact Hl].
Qed.

End Facts.

(** [C2_fixed_weighting] applies to the configuration with the dynamic
    weighting off. *)
Lemma C2_fixed_weighting_witness :
  weighted_total zero_log_vars
    (demo_cfg true false true false MCMCStrategy "interp") unit_losses
  = fixed_sum
      (base_lambdas (demo_cfg true false true false MCMCStrategy "interp"))
      unit_losses.
Proof.
  apply (C2_fixed_weighting unit unit no_embeds zero_net zero_modules 0
           zero_log_vars (demo_cfg true false true false MCMCStrategy "interp")
           [0%nat] red_pixels); reflexivity.
Defined.

(** C3 as stated fails when the learned weighting is selected without the
    multi-scale network: the total is then the fixed sum, here 1, and not
    the uncertainty-weighted sum, here 1/2. *)
Lemma C3_counterexample :
  enable_dynamic_weights (demo_cfg true true false false MCMCStrategy "interp") = true /\
  weighted_total zero_log_vars
    (demo_cfg true true false false MCMCStrategy "interp") unit_losses
  <> kendall_sum
       (base_lambdas (demo_cfg true true false false MCMCStrategy "interp"))
       unit_losses zero_log_vars.
Proof.
  split; [reflexivity|].
  unfold weighted_total, kendall_sum, sigma, vsum, vmul. simpl.
  rewrite Ropp_0, exp_0. lra.
Qed.

(** [C3_learned_weighting] applies to the configuration with the dynamic
    weighting and the multi-scale network on. *)
Lemma C3_learned_weighting_witness :
  weighted_total zero_log_vars
    (demo_cfg true true true false MCMCStrategy "interp") unit_losses
  = kendall_sum
      (base_lambdas (demo_cfg true true true false MCMCStrategy "interp"))
      unit_losses zero_log_vars.
Proof.
  apply (C3_learned_weighting zero_log_vars
           (demo_cfg true true true false MCMCStrategy "interp") unit_losses);
    reflexivity.
Defined.

End LossFacts.

(* ================================================================== *)
(** * The scene state and its optimizers *)

Module SceneFacts.
Import Scene Inputs.

Lemma strided_rows_Ok (n start step m : nat) :
  strided_rows n start step = Ok m -> m = ((n - start + (step - 1)) / step)%nat.
Proof.
  unfold strided_rows. destruct (step =? 0)%nat; [discriminate|].
  intros H. by inversion H.
Qed.

(** Without an exception, [params] is the list of the eight
    spherical-harmonics groups over one common number of rows. *)
Lemma build_params_Ok (parser : Parser) (a : SplatArgs)
    (params : list (string * list nat * R)) :
  build_params parser a = Ok params ->
  exists N : nat, params = sh_params a N.
Proof.
  unfold build_params. intros H.
  destruct (if String.eqb (a_init_type a) "sfm"
            then Ok (points parser, points_rgb parser)
            else if String.eqb (a_init_type a) "random"
                 then Ok (a_init_num_pts a, a_init_num_pts a)
                 else Raise (ValueError
                               "Please specify a correct init_type: sfm or random"))
    as [[n m]|e] eqn:Einit; [|discriminate H].
  cbn [mbind result_bind] in H.
  destruct (strided_rows n (a_world_rank a) (a_world_size a)) as [N|e] eqn:EN;
    [|discriminate H].
  cbn [mbind result_bind] in H.
  destruct (strided_rows m (a_world_rank a) (a_world_size a)) as [M|e] eqn:EM;
    [|discriminate H].
  cbn [mbind result_bind] in H.
  destruct (a_feature_dim a) as [fd|].
  - cbn in H. discriminate H.
  - destruct ((M =? N)%nat || (M =? 1)%nat); [|discriminate H].
    cbn in H. exists N. by inversion H.
Qed.

Lemma create_Ok (parser : Parser) (a : SplatArgs)
    (splats : gmap string (list nat)) (opts : gmap string Optimizer) :
  create_splats_with_optimizers parser a = Ok (splats, opts) ->
  exists N : nat,
    splats = dict_of (map (fun p => (p.1.1, p.1.2)) (sh_params a N)) /\
    opts = dict_of
             (map (fun p =>
                     (p.1,
                      {| opt_class := optimizer_class a;
                         opt_name := p.1;
                         opt_lr := p.2 * sqrt (INR (BS a));
                         opt_eps := (1 / 10 ^ 15) / sqrt (INR (BS a));
                         opt_betas := (1 - INR (BS a) * (1 - 9 / 10),
                                       1 - INR (BS a) * (1 - 999 / 1000)) |}))
                  (group_lrs a)).
Proof.
  unfold create_splats_with_optimizers. intros H.
  destruct (build_params parser a) as [params|e] eqn:E; [|discriminate H].
  destruct (build_params_Ok _ _ _ E) as [N ->].
  cbn [mbind result_bind] in H.
  destruct (BS a =? 0)%nat; [discriminate H|].
  destruct (10 <? BS a)%nat; [discriminate H|].
  inversion H; subst. exists N. split; reflexivity.
Qed.

(** The optimizers are built for a total batch from 1 to 10 only. *)
Lemma create_Ok_batch (parser : Parser) (a : SplatArgs)
    (splats : gmap string (list nat)) (opts : gmap string Optimizer) :
  create_splats_with_optimizers parser a = Ok (splats, opts) ->
  (1 <= BS a <= 10)%nat.
Proof.
  unfold create_splats_with_optimizers.
  destruct (build_params parser a) as [params|e]; [|discriminate].
  cbn [mbind result_bind].
  destruct (BS a =? 0)%nat eqn:E0; [discriminate|].
  destruct (10 <? BS a)%nat eqn:E1; [discriminate|].
  intros _. apply Nat.eqb_neq in E0. apply Nat.ltb_ge in E1. lia.
Qed.

Lemma optimizers_scaled (parser : Parser) (a : SplatArgs)
    (splats : gmap string (list nat)) (opts : gmap string Optimizer) :
  create_splats_with_optimizers parser a = Ok (splats, opts) ->
  forall (name : string) (o : Optimizer),
    opts !! name = Some o ->
    exists lr : R, In (name, lr) (group_lrs a) /\ o = scaled a name lr.
Proof.
  intros H. destruct (create_Ok _ _ _ _ H) as (N & _ & ->).
  apply map_Forall_lookup.
  unfold dict_of, group_lrs, sh_params. cbn [map foldl fst snd].
  repeat (apply map_Forall_insert_2;
          [eexists; split; [cbn; auto 10|reflexivity]|]).
  apply map_Forall_empty.
Qed.

Lemma group_lrs_functional (a : SplatArgs) (name : string) (lr lr' : R) :
  In (name, lr) (group_lrs a) -> In (name, lr') (group_lrs a) -> lr = lr'.
Proof.
  unfold group_lrs, sh_params. cbn [map fst snd In].
  intros H H'.
  repeat (destruct H as [H|H]; [inversion H; subst; clear H|]); try contradiction;
    repeat (destruct H' as [H'|H']; [inversion H'; subst; clear H'|]);
    try contradiction; reflexivity.
Qed.

(** What [Runner.__init__] returns: the scene state is the one of
    [create_splats_with_optimizers], and the optimizers of the illumination
    module and of the Retinex network are as [torch.optim.AdamW] builds
    them from a learning rate alone. *)
Lemma Runner_init_optimizers
    (check_sanity :
       Strategy -> gmap string (list nat) -> gmap string Optimizer -> Result unit)
    (parser : Parser) (wr ws : nat) (c : Config) (r : Runner) :
  Runner_init check_sanity parser wr ws c = Ok r ->
  create_splats_with_optimizers parser (splat_args parser wr ws c)
  = Ok (splats r, optimizers r) /\
  illum_optimizers r
  = [ {| opt_class := AdamW; opt_name := "illum_module";
         opt_lr := (1 / 10 ^ 3) * sqrt (INR (batch_size c));
         opt_eps := 1 / 10 ^ 8;
         opt_betas := (9 / 10, 999 / 1000) |} ] /\
  retinex_optimizer r
  = (if enable_retinex c
     then Some {| opt_class := AdamW; opt_name := "retinex_net";
                  opt_lr := (1 / 10 ^ 4) * sqrt (INR (batch_size c));
                  opt_eps := 1 / 10 ^ 8;
                  opt_betas := (9 / 10, 999 / 1000) |}
     else None).
Proof.
  unfold Runner_init.
  destruct (create_splats_with_optimizers parser (splat_args parser wr ws c))
    as [[splats optimizers]|e]; [|discriminate].
  cbn [mbind result_bind].
  destruct (check_sanity (strategy c) splats optimizers) as [[]|e]; [|discriminate].
  cbn [mbind result_bind].
  destruct (strategy c); cbn [mbind result_bind assert_never]; try discriminate.
  all: destruct (compression c) as [m|];
    [destruct (String.eqb m "png")|]; cbn [mbind result_bind]; try discriminate.
  all: destruct (String.eqb (lpips_net c) "alex");
    [|destruct (String.eqb (lpips_net c) "vgg")];
    cbn [mbind result_bind]; try discriminate.
  all: intros [= <-]; repeat split; reflexivity.
Qed.

Lemma sqrt_4 : sqrt (INR 4) = 2.
Proof.
  cbn [INR]. replace (1 + 1 + 1 + 1) with (2 * 2) by lra.
  apply sqrt_square. lra.
Qed.

(** C5. The optimizers and the total batch size
    [BS = batch_size * world_size]. Every scene-state group - the groups
    that [create_splats_with_optimizers] builds - gets an optimizer whose
    learning rate is the group's learning rate times the square root of
    [BS], whose epsilon is 1e-15 divided by that square root and whose betas
    are [1 - BS * (1 - 0.9)] and [1 - BS * (1 - 0.999)], and these
    optimizers exist for [BS] from 1 to 10 only; two calls with the same
    group learning rates and the same product [batch_size * world_size]
    give every such group the same learning rate, epsilon and betas. The
    optimizers that [Runner.__init__] builds outside the scene state, for
    the illumination module and for the Retinex network, have a learning
    rate of 1e-3 and 1e-4 times the square root of the batch size of one
    worker, whatever the number of workers, and the epsilon 1e-8 and the
    betas 0.9 and 0.999 that the optimizer class has by default. *)
Theorem C5_batch_scaling :
  (forall (parser : Parser) (a : SplatArgs)
          (splats : gmap string (list nat)) (opts : gmap string Optimizer),
      create_splats_with_optimizers parser a = Ok (splats, opts) ->
      (1 <= a_batch_size a * a_world_size a <= 10)%nat /\
      (forall (name : string) (lr : R),
          In (name, lr) (group_lrs a) ->
          exists o : Optimizer,
            opts !! name = Some o /\
            opt_lr o = lr * sqrt (INR (a_batch_size a * a_world_size a)) /\
            opt_eps o = (1 / 10 ^ 15) / sqrt (INR (a_batch_size a * a_world_size a)) /\
            opt_betas o
            = (1 - INR (a_batch_size a * a_world_size a) * (1 - 9 / 10),
               1 - INR (a_batch_size a * a_world_size a) * (1 - 999 / 1000))) /\
      (forall (name : string) (o : Optimizer),
          opts !! name = Some o -> exists lr : R, In (name, lr) (group_lrs a)) /\
      (forall (parser' : Parser) (a' : SplatArgs)
              (splats' : gmap string (list nat)) (opts' : gmap string Optimizer),
          create_splats_with_optimizers parser' a' = Ok (splats', opts') ->
          group_lrs a' = group_lrs a ->
          (a_batch_size a' * a_world_size a' = a_batch_size a * a_world_size a)%nat ->
          forall (name : string) (o o' : Optimizer),
            opts !! name = Some o -> opts' !! name = Some o' ->
            opt_lr o' = opt_lr o /\ opt_eps o' = opt_eps o /\
            opt_betas o' = opt_betas o)) /\
  (forall (check_sanity :
             Strategy -> gmap string (list nat) -> gmap string Optimizer -> Result unit)
          (parser : Parser) (wr ws : nat) (c : Config) (r : Runner),
      Runner_init check_sanity parser wr ws c = Ok r ->
      create_splats_with_optimizers parser (splat_args parser wr ws c)
      = Ok (splats r, optimizers r) /\
      (exists o : Optimizer,
          illum_optimizers r = [o] /\
          opt_lr o = (1 / 10 ^ 3) * sqrt (INR (batch_size c)) /\
          opt_eps o = 1 / 10 ^ 8 /\
          opt_betas o = (9 / 10, 999 / 1000)) /\
      (enable_retinex c = true ->
       exists o : Optimizer,
         retinex_optimizer r = Some o /\
         opt_lr o = (1 / 10 ^ 4) * sqrt (INR (batch_size c)) /\
         opt_eps o = 1 / 10 ^ 8 /\
         opt_betas o = (9 / 10, 999 / 1000)) /\
      (enable_retinex c = false -> retinex_optimizer r = None)).
Proof.
  split.
  - intros parser a splats opts H. split; [|split; [|split]].
    + exact (create_Ok_batch _ _ _ _ H).
    + intros name lr Hin.
      destruct (create_Ok _ _ _ _ H) as (N & _ & ->).
      exists (scaled a name lr). split; [|by repeat split].
      revert Hin. unfold dict_of, group_lrs, sh_params. cbn [map foldl fst snd In].
      intros Hin.
      repeat (destruct Hin as [Hin|Hin];
              [inversion Hin; subst; clear Hin; by simplify_map_eq|]).
      contradiction.
    + intros name o Ho.
      destruct (optimizers_scaled _ _ _ _ H name o Ho) as (lr & Hin & _). eauto.
    + intros parser' a' splats' opts' H' Hlrs HBS name o o' Ho Ho'.
      destruct (optimizers_scaled _ _ _ _ H name o Ho) as (lr & Hin & ->).
      destruct (optimizers_scaled _ _ _ _ H' name o' Ho') as (lr' & Hin' & ->).
      rewrite Hlrs in Hin'.
      rewrite (group_lrs_functional a name lr' lr Hin' Hin).
      unfold scaled, BS. cbn. by rewrite HBS.
  - intros check_sanity parser wr ws c r H.
    destruct (Runner_init_optimizers _ _ _ _ _ _ H) as (Hc & Hi & Hr).
    split; [exact Hc|]. split; [|split].
    + eexists. split; [exact Hi|]. repeat split; reflexivity.
    + intros He. rewrite He in Hr. eexists. split; [exact Hr|].
      repeat split; reflexivity.
    + intros He. by rewrite He in Hr.
Qed.

(** [C5_batch_scaling] applies to a batch of two on one worker against a
    batch of one on two workers, and to a runner on four workers. *)
Lemma C5_batch_scaling_witness :
  (exists (s s' : gmap string (list nat)) (o o' : gmap string Optimizer),
      create_splats_with_optimizers demo_parser (demo_args 2 0 1) = Ok (s, o) /\
      create_splats_with_optimizers demo_parser (demo_args 1 0 2) = Ok (s', o') /\
      forall (name : string) (x x' : Optimizer),
        o !! name = Some x -> o' !! name = Some x' ->
        opt_lr x' = opt_lr x /\ opt_eps x' = opt_eps x /\
        opt_betas x' = opt_betas x) /\
  (exists (r : Runner) (o : Optimizer),
      Runner_init sane demo_parser 0 4
        (demo_cfg true false false false MCMCStrategy "interp") = Ok r /\
      illum_optimizers r = [o] /\
      opt_lr o = (1 / 10 ^ 3) * sqrt (INR 1) /\
      retinex_optimizer r <> None).
Proof.
  split.
  - pose proof (proj1 C5_batch_scaling demo_parser (demo_args 2 0 1) _ _ eq_refl)
      as (_ & _ & _ & H).
    specialize (H demo_parser (demo_args 1 0 2) _ _ eq_refl eq_refl eq_refl).
    eexists _, _, _, _. split; [reflexivity|]. split; [reflexivity|]. exact H.
  - pose proof (proj2 C5_batch_scaling sane demo_parser 0%nat 4%nat
                  (demo_cfg true false false false MCMCStrategy "interp") _ eq_refl)
      as (_ & (o & Hi & Hlr & _) & Hr & _).
    destruct (Hr eq_refl) as (o' & Ho' & _).
    eexists _, o. split; [reflexivity|]. split; [exact Hi|]. split; [exact Hlr|].
    rewrite Ho'. discriminate.
Defined.

(** C5 as the claim has it, for each parameter group, fails on the
    optimizer of the illumination module: a batch of four on one worker
    and a batch of one on four workers have the same product, and the
    learning rate of that optimizer is 2e-3 for the first and 1e-3 for the
    second, which is not 1e-3 scaled by the square root of the product;
    and its betas are the default ones, not the rescaled ones. *)
Lemma C5_counterexample :
  exists (r r' : Runner) (o o' : Optimizer),
    Runner_init sane demo_parser 0 1
      (with_batch 4 (demo_cfg false false false false MCMCStrategy "interp")) = Ok r /\
    Runner_init sane demo_parser 0 4
      (with_batch 1 (demo_cfg false false false false MCMCStrategy "interp")) = Ok r' /\
    (batch_size (cfg r) * world_size r = 4)%nat /\
    (batch_size (cfg r') * world_size r' = 4)%nat /\
    illum_optimizers r = [o] /\
    illum_optimizers r' = [o'] /\
    opt_lr o' <> opt_lr o /\
    opt_lr o' <> (1 / 10 ^ 3) * sqrt (INR 4) /\
    opt_eps o' = opt_eps o /\
    opt_betas o' <> (1 - INR 4 * (1 - 9 / 10), 1 - INR 4 * (1 - 999 / 1000)).
Proof.
  eexists _, _, _, _.
  split; [reflexivity|]. split; [reflexivity|].
  split; [reflexivity|]. split; [reflexivity|].
  split; [reflexivity|]. split; [reflexivity|].
  cbn [opt_lr opt_eps opt_betas with_batch batch_size].
  rewrite sqrt_4. replace (INR 1) with 1 by reflexivity. rewrite sqrt_1.
  split; [lra|]. split; [lra|]. split; [reflexivity|].
  intros [= H _]. cbn [INR] in H. lra.
Qed.

(** After a successful construction all groups have the same number of
    rows, and there is one optimizer per group. *)
Lemma init_rows (parser : Parser) (a : SplatArgs)
    (splats : gmap string (list nat)) (opts : gmap string Optimizer) :
  create_splats_with_optimizers parser a = Ok (splats, opts) ->
  exists N : nat,
    map_Forall (fun _ s => leading s = Some N) splats /\
    splats !! "means"%string = Some [N; 3%nat] /\
    dom opts = dom splats.
Proof.
  intros H. destruct (create_Ok _ _ _ _ H) as (N & -> & ->). exists N.
  unfold dict_of, group_lrs, sh_params. cbn [map foldl fst snd].
  split; [|split].
  - repeat (apply map_Forall_insert_2; [reflexivity|]). apply map_Forall_empty.
  - reflexivity.
  - by rewrite !dom_insert_L.
Qed.

End SceneFacts.

(* ================================================================== *)
(** * Optimizer steps and density adaptation keep the tables aligned *)

Module DensityFacts.
Import Density Inputs.

Lemma length_map_std {A B : Type} (f : A -> B) (l : list A) :
  length (map f l) = length l.
Proof. induction l; simpl; auto. Qed.

Lemma gather_length (sel : list nat) (t : list (list R)) :
  length (gather sel t) = length (filter (fun i => i < length t)%nat sel).
Proof.
  unfold gather. induction sel as [|i sel IH]; [reflexivity|].
  rewrite filter_cons. cbn [omap list_omap].
  destruct (decide (i < length t)%nat) as [Hi|Hi].
  - destruct (lookup_lt_is_Some_2 t i Hi) as [r Hr]. rewrite Hr.
    cbn [length]. f_equal. exact IH.
  - rewrite (lookup_ge_None_2 t i) by lia. exact IH.
Qed.

Lemma prune_rows_length (mask : list bool) (t : list (list R)) :
  length (prune_rows mask t) = pruned_count mask (length t).
Proof.
  revert t. induction mask as [|b mask IH]; intros [|r t]; simpl; auto.
  destruct b; simpl; by rewrite IH.
Qed.

Lemma relocate_rows_length (moves : list (nat * nat)) (t : list (list R)) :
  length (relocate_rows moves t) = length t.
Proof.
  unfold relocate_rows. revert t.
  induction moves as [|mv moves IH]; intros t; simpl; [reflexivity|].
  rewrite IH. destruct (t !! mv.2); [apply length_insert|reflexivity].
Qed.

Lemma reset_rows_length (moves : list (nat * nat)) (t : list (list R)) :
  length (reset_rows moves t) = length t.
Proof.
  unfold reset_rows. revert t.
  induction moves as [|mv moves IH]; intros t; simpl; [reflexivity|].
  rewrite IH. destruct (t !! mv.1); [apply length_insert|reflexivity].
Qed.

(** A mutation takes a table of [n] rows to one of [rows_after m n] rows,
    be it a parameter group or a moment buffer. *)
Lemma mutate_param_length (m : Mutation) (t : list (list R)) :
  length (mutate_param m t) = rows_after m (length t).
Proof.
  destruct m as [sel|mask|moves|]; simpl.
  - by rewrite length_app, gather_length.
  - apply prune_rows_length.
  - apply relocate_rows_length.
  - reflexivity.
Qed.

Lemma mutate_buffer_length (m : Mutation) (t : list (list R)) :
  length (mutate_buffer m t) = rows_after m (length t).
Proof.
  destruct m as [sel|mask|moves|]; simpl.
  - by rewrite length_app, length_map_std, gather_length.
  - apply prune_rows_length.
  - apply reset_rows_length.
  - reflexivity.
Qed.

Lemma strategy_mutate_aligned (m : Mutation) (n : nat) (st : TrainState) :
  aligned n st -> aligned (rows_after m n) (strategy_mutate m st).
Proof.
  intros [Hp Hs]. split; simpl.
  - apply map_Forall_fmap. eapply map_Forall_impl; [exact Hp|].
    intros name t Ht. simpl. by rewrite mutate_param_length, Ht.
  - apply map_Forall_fmap. eapply map_Forall_impl; [exact Hs|].
    intros name s [H1 H2]. simpl.
    by rewrite !mutate_buffer_length, H1, H2.
Qed.

Section Steps.
Variable adam_row : list R -> list R -> list R -> list R -> list R * list R * list R.

(** [optimizer.step()] keeps the number of rows of its parameter and
    leaves moment buffers of that many rows. *)
Lemma optimizer_step_length (grad p : list (list R)) (s : option AdamState) :
  length (optimizer_step adam_row grad p s).1 = length p /\
  length (exp_avg (optimizer_step adam_row grad p s).2) = length p /\
  length (exp_avg_sq (optimizer_step adam_row grad p s).2) = length p.
Proof.
  unfold optimizer_step. simpl. by rewrite !length_map_std, !length_imap.
Qed.

Lemma optimizers_step_aligned (grads : gmap string (list (list R))) (n : nat)
    (st : TrainState) :
  aligned n st -> aligned n (optimizers_step adam_row grads st).
Proof.
  intros [Hp Hs]. split; simpl.
  - apply map_Forall_lookup. intros name t. rewrite map_lookup_imap.
    destruct (params st !! name) as [p|] eqn:Ep; simpl; [|discriminate].
    pose proof (Hp name p Ep) as Hlen. simpl in Hlen.
    destruct (grads !! name) as [g|]; intros [= <-]; simpl.
    + by rewrite length_map_std, length_imap.
    + exact Hlen.
  - apply map_Forall_lookup. intros name s. rewrite map_lookup_imap.
    destruct (params st !! name) as [p|] eqn:Ep; simpl; [|discriminate].
    pose proof (Hp name p Ep) as Hlen. simpl in Hlen.
    destruct (grads !! name) as [g|].
    + intros [= <-]. simpl. by rewrite !length_map_std, !length_imap.
    + intros Hs'. exact (Hs name s Hs').
Qed.

Lemma apply_event_aligned (e : Event) (n : nat) (st : TrainState) :
  aligned n st -> aligned (count_after [e] n) (apply_event adam_row st e).
Proof.
  destruct e as [grads|m]; simpl.
  - apply optimizers_step_aligned.
  - apply strategy_mutate_aligned.
Qed.

Lemma run_aligned (events : list Event) (n : nat) (st : TrainState) :
  aligned n st -> aligned (count_after events n) (run adam_row events st).
Proof.
  unfold run, count_after. revert n st.
  induction events as [|e events IH]; intros n st H; simpl; [exact H|].
  apply IH. exact (apply_event_aligned e n st H).
Qed.

(** The key ["means"] stays in the table, so [num_GS] reads the common
    number of rows. *)
Lemma run_keeps_means (events : list Event) (st : TrainState) :
  is_Some (params st !! "means"%string) ->
  is_Some (params (run adam_row events st) !! "means"%string).
Proof.
  unfold run. revert st.
  induction events as [|e events IH]; intros st H; simpl; [exact H|].
  apply IH. destruct H as [p Hp]. destruct e as [grads|m]; simpl.
  - rewrite map_lookup_imap, Hp. simpl. destruct (grads !! "means"%string); eauto.
  - rewrite lookup_fmap, Hp. simpl. eauto.
Qed.

End Steps.

Lemma initial_aligned (shapes : gmap string (list nat))
    (tensors : gmap string (list (list R))) (n : nat) :
  map_Forall (fun _ s => Scene.leading s = Some n) shapes ->
  realises shapes tensors ->
  aligned n (initial_state tensors).
Proof.
  intros Hshape Hreal. split; simpl; [|apply map_Forall_empty].
  intros name t Ht. specialize (Hreal name). rewrite Ht in Hreal. simpl in Hreal.
  destruct (shapes !! name) as [s|] eqn:Es; simpl in Hreal; [|discriminate].
  rewrite (Hshape name s Es) in Hreal. by inversion Hreal.
Qed.


(** Tables with the shapes of the construction exist. *)
Lemma rows_of_realises (shapes : gmap string (list nat)) (n : nat) :
  map_Forall (fun _ s => Scene.leading s = Some n) shapes ->
  realises shapes (rows_of <$> shapes).
Proof.
  intros Hrows name. rewrite lookup_fmap.
  destruct (shapes !! name) as [s|] eqn:Es; simpl; [|reflexivity].
  unfold rows_of. rewrite length_replicate.
  pose proof (Hrows name s Es) as Hs. simpl in Hs. unfold Scene.leading in *.
  by rewrite Hs.
Qed.


End DensityFacts.


(* ================================================================== *)
(** * The illumination adjustment groups and the rasterization entry *)

Module RasterFacts.
Import Scene Raster Inputs.

(** Outside the enhancement mode with per-Gaussian adjustment,
    [rasterize_splats] does not read the two adjustment groups. *)
Lemma rasterize_ignores_adjust {Ten Cams Info : Type} (ops : TensorOps Ten)
    (rasterization : RasterArgs Ten -> Cams -> list (list R) * list (list R) * Info)
    (rasterization_dual :
       RasterArgs Ten -> Ten -> Cams
       -> list (list R) * list (list R) * list (list R) * list (list R) * Info)
    (app_module : Ten -> option (list nat) -> Ten -> Cams -> Ten)
    (illum_module : option (list nat) -> Ten * Ten)
    (cfg : Config) (t t' : gmap string Ten) (cams : Cams)
    (masks : option (list bool)) (image_ids : option (list nat)) :
  enable_retinex cfg = false \/ use_illum_opt cfg = true ->
  same_but_adjust t t' ->
  rasterize_splats ops rasterization rasterization_dual app_module illum_module
    cfg t cams masks image_ids
  = rasterize_splats ops rasterization rasterization_dual app_module illum_module
      cfg t' cams masks image_ids.
Proof.
  intros Hmode Hsame. unfold rasterize_splats, getitem.
  rewrite (Hsame "means"%string), (Hsame "quats"%string), (Hsame "scales"%string),
    (Hsame "opacities"%string), (Hsame "features"%string), (Hsame "colors"%string),
    (Hsame "sh0"%string), (Hsame "shN"%string) by discriminate.
  destruct Hmode as [Hoff|Hnet]; [by rewrite Hoff|].
  rewrite Hnet. reflexivity.
Qed.

(** C10 (as amended). On every successful call,
    [create_splats_with_optimizers] puts [adjust_k] and [adjust_b] into the
    scene state, one row per Gaussian, each with an optimizer of its own;
    the function has no enhancement switch. Only their use is restricted:
    unless the Retinex pipeline is enabled and the adjustment is not taken
    from the illumination module, [rasterize_splats] does not read them. *)
Theorem C10_adjust_groups (parser : Parser) (a : SplatArgs)
    (splats : gmap string (list nat)) (opts : gmap string Optimizer) :
  create_splats_with_optimizers parser a = Ok (splats, opts) ->
  (exists N : nat,
      splats !! "means"%string = Some [N; 3%nat] /\
      splats !! "adjust_k"%string = Some [N; 1%nat; 3%nat] /\
      splats !! "adjust_b"%string = Some [N; 1%nat; 3%nat]) /\
  (exists ok ob : Optimizer,
      opts !! "adjust_k"%string = Some ok /\ opt_name ok = "adjust_k"%string /\
      opts !! "adjust_b"%string = Some ob /\ opt_name ob = "adjust_b"%string) /\
  (forall (Ten Cams Info : Type) (ops : TensorOps Ten)
          (rasterization : RasterArgs Ten -> Cams
                           -> list (list R) * list (list R) * Info)
          (rasterization_dual :
             RasterArgs Ten -> Ten -> Cams
             -> list (list R) * list (list R) * list (list R) * list (list R) * Info)
          (app_module : Ten -> option (list nat) -> Ten -> Cams -> Ten)
          (illum_module : option (list nat) -> Ten * Ten)
          (cfg : Config) (t t' : gmap string Ten) (cams : Cams)
          (masks : option (list bool)) (image_ids : option (list nat)),
      enable_retinex cfg = false \/ use_illum_opt cfg = true ->
      same_but_adjust t t' ->
      rasterize_splats ops rasterization rasterization_dual app_module illum_module
        cfg t cams masks image_ids
      = rasterize_splats ops rasterization rasterization_dual app_module illum_module
          cfg t' cams masks image_ids).
Proof.
  intros H. destruct (SceneFacts.create_Ok _ _ _ _ H) as (N & -> & ->).
  split; [|split].
  - exists N. repeat split; reflexivity.
  - eexists _, _. repeat split; reflexivity.
  - intros. by apply rasterize_ignores_adjust.
Qed.

(** [C10_adjust_groups] applies to the construction over the demonstration
    parser. *)
Lemma C10_adjust_groups_witness :
  exists (splats : gmap string (list nat)) (opts : gmap string Optimizer),
    create_splats_with_optimizers demo_parser (demo_args 1 0 1) = Ok (splats, opts) /\
    is_Some (splats !! "adjust_k"%string) /\
    is_Some (opts !! "adjust_k"%string).
Proof.
  destruct (C10_adjust_groups demo_parser (demo_args 1 0 1) _ _ eq_refl)
    as ((N & _ & Hk & _) & (ok & ob & Hok & _) & _).
  eexists _, _. split; [reflexivity|].
  split; [exact (ex_intro _ _ Hk)|exact (ex_intro _ _ Hok)].
Defined.

(** C10 as stated fails: with the Retinex pipeline disabled, the scene state
    that [Runner.__init__] builds still holds [adjust_k] and [adjust_b], and
    each has its optimizer. *)
Lemma C10_counterexample :
  enable_retinex (demo_cfg false false false false MCMCStrategy "interp") = false /\
  exists (splats : gmap string (list nat)) (opts : gmap string Optimizer),
    create_splats_with_optimizers demo_parser
      (splat_args demo_parser 0 1
         (demo_cfg false false false false MCMCStrategy "interp"))
    = Ok (splats, opts) /\
    splats !! "adjust_k"%string = Some [4; 1; 3]%nat /\
    splats !! "adjust_b"%string = Some [4; 1; 3]%nat /\
    is_Some (opts !! "adjust_k"%string) /\
    is_Some (opts !! "adjust_b"%string).
Proof.
  split; [reflexivity|]. eexists _, _. split; [reflexivity|].
  repeat split; try reflexivity; eexists; reflexivity.
Qed.

End RasterFacts.


(* ================================================================== *)
(** * The loss of a training step *)

Module StepFacts.
Import torch Raster Step Inputs.

Section Facts.
Variable Emb : Type.
Variable Aux : Type.
Variable retinex_embeds : list nat -> Emb.
Variable retinex_net : list (list R) -> Emb -> Retinex.NetOut Aux.
Variable L : LossComposer.LossModules Aux.
Variable global_mean_val_param : R.
Variable ssim : list (list R) -> list (list R) -> R.
Variable lpips : list (list R) -> list (list R) -> R.
Variable slice_func : list (list R) -> list nat -> list (list R).
Variable bkgd : list R.

Abbreviation losses_of cfg ids colors_low colors_enh pixels :=
  (retinex_losses retinex_embeds retinex_net L global_mean_val_param ssim lpips
     cfg ids colors_low colors_enh pixels).

(** With the Retinex pipeline enabled, a step takes the branch
    [retinex_losses] on the prepared colours and the clamped pixels. *)
Lemma step_losses_retinex (cfg : Config) (ids : list nat)
    (renders_low renders_enh alphas_low alphas_enh pixels : Tracked (list (list R))) :
  enable_retinex cfg = true ->
  step_losses retinex_embeds retinex_net L global_mean_val_param ssim lpips
    slice_func bkgd cfg ids renders_low renders_enh alphas_low alphas_enh pixels
  = losses_of cfg ids
      (prepare_colors slice_func bkgd cfg ids renders_low alphas_low)
      (prepare_colors slice_func bkgd cfg ids renders_enh alphas_enh)
      (clamp01 pixels).
Proof. intros H. unfold step_losses. by rewrite H. Qed.

(** The pixelwise term of the enhanced path is taken against the detached
    target: its gradient reaches the leaves of the rendering and nothing
    else. *)
Lemma l1_term_detached (cfg : Config) (ids : list nat)
    (colors_low colors_enh pixels : Tracked (list (list R))) :
  leaves (loss_reflectance (losses_of cfg ids colors_low colors_enh pixels))
  = leaves colors_enh.
Proof. unfold retinex_losses. simpl. apply app_nil_r. Qed.

(** C6, the part the code does not meet. In the Retinex branch the
    structural-similarity term of the enhanced path is taken against the
    reflectance target as it is, not against its detached copy: the
    parameters of the Retinex network are among the leaves of that term, of
    the enhanced reconstruction loss and of the step loss through it. The
    rest of the claim holds: the pixelwise term is detached, and the value
    of the step loss is
    [low_loss * lambda_low + enhanced_loss * (1 - lambda_low)
     + illumination_regularization * lambda_illumination]. *)
Theorem C6_enhanced_ssim_not_detached (cfg : Config) (ids : list nat)
    (colors_low colors_enh pixels : Tracked (list (list R))) :
  exists enh ssim_enh : Tracked R,
    loss_reconstruct_enh (losses_of cfg ids colors_low colors_enh pixels) = Some enh /\
    loss_reflectance_ssim (losses_of cfg ids colors_low colors_enh pixels)
    = Some ssim_enh /\
    In RetinexNet (leaves ssim_enh) /\
    In RetinexNet (leaves enh) /\
    leaves (loss_reflectance (losses_of cfg ids colors_low colors_enh pixels))
    = leaves colors_enh /\
    val enh
    = val (loss_reflectance (losses_of cfg ids colors_low colors_enh pixels))
      * (1 - ssim_lambda cfg)
      + val ssim_enh * ssim_lambda cfg /\
    val (loss (losses_of cfg ids colors_low colors_enh pixels))
    = val (low_loss (losses_of cfg ids colors_low colors_enh pixels)) * lambda_low cfg
      + val enh * (1 - lambda_low cfg)
      + val (loss_illumination (losses_of cfg ids colors_low colors_enh pixels))
        * lambda_illumination cfg.
Proof.
  unfold retinex_losses. simpl.
  eexists _, _. split; [reflexivity|]. split; [reflexivity|]. simpl.
  split; [|split; [|split; [|split]]].
  - rewrite !in_app_iff. simpl. tauto.
  - rewrite !in_app_iff. simpl. tauto.
  - apply app_nil_r.
  - reflexivity.
  - reflexivity.
Qed.

(** The leaves of the enhanced reconstruction loss of one step on the
    reddish pixel: the splats, through the rendering, and the Retinex
    network and embeddings, through the target of the
    structural-similarity term. *)
Lemma enhanced_loss_leaves_example :
  leaves <$> loss_reconstruct_enh
               (retinex_losses no_embeds zero_net zero_modules 0 same_ssim same_lpips
                  (demo_cfg true false true false MCMCStrategy "interp") [0%nat]
                  (rendered red_pixels) (rendered red_pixels) (constant red_pixels))
  = Some [Splats; Splats; RetinexNet; RetinexEmbeds].
Proof. reflexivity. Qed.

(** Without the Retinex pipeline the step takes the plain branch: the
    illumination terms are the constant zero and the loss is
    [L1 * (1 - ssim_lambda) + ssim_loss * ssim_lambda]. *)
Lemma plain_step (cfg : Config) (ids : list nat)
    (renders_low renders_enh alphas_low alphas_enh pixels : Tracked (list (list R))) :
  enable_retinex cfg = false ->
  let l := step_losses retinex_embeds retinex_net L global_mean_val_param ssim lpips
             slice_func bkgd cfg ids renders_low renders_enh alphas_low alphas_enh
             pixels in
  let colors_low := prepare_colors slice_func bkgd cfg ids renders_low alphas_low in
  loss_illumination l = constant 0 /\
  loss_illum_color l = constant 0 /\
  loss_illum_smooth l = constant 0 /\
  loss_adaptive_curve l = constant 0 /\
  loss_illum_exposure l = constant 0 /\
  loss_illum_contrast l = constant 0 /\
  loss_illum_laplacian l = constant 0 /\
  val (loss l)
  = l1_loss (val colors_low) (val (clamp01 pixels)) * (1 - ssim_lambda cfg)
    + (1 - ssim (val colors_low) (val (clamp01 pixels))) * ssim_lambda cfg.
Proof.
  intros H. unfold step_losses. rewrite H. simpl. repeat split; reflexivity.
Qed.

(** With no optional regularizer switched on, the loss that is
    back-propagated is the composed loss. *)
Lemma backward_loss_plain (cfg : Config) (l : StepLosses)
    (depthloss depthloss_enh tvloss opacity_mean scale_mean : Tracked R) :
  depth_loss cfg = false -> use_bilateral_grid cfg = false ->
  opacity_reg cfg <= 0 -> scale_reg cfg <= 0 ->
  backward_loss cfg l depthloss depthloss_enh tvloss opacity_mean scale_mean = loss l.
Proof.
  intros Hd Hb Ho Hs. unfold backward_loss, Rltb. rewrite Hd, Hb.
  destruct (Rlt_dec 0 (opacity_reg cfg)); [lra|].
  destruct (Rlt_dec 0 (scale_reg cfg)); [lra|]. reflexivity.
Qed.

End Facts.

Section Unpack.
Variable Ten : Type.
Variable Cams : Type.
Variable Info : Type.
Variable ops : TensorOps Ten.
Variable rasterization : RasterArgs Ten -> Cams -> list (list R) * list (list R) * Info.
Variable rasterization_dual :
  RasterArgs Ten -> Ten -> Cams
  -> list (list R) * list (list R) * list (list R) * list (list R) * Info.
Variable app_module : Ten -> option (list nat) -> Ten -> Cams -> Ten.
Variable illum_module : option (list nat) -> Ten * Ten.


End Unpack.


End StepFacts.


(* ================================================================== *)
(** * Configuration checks and the strategy dispatch *)

Module ConfigFacts.
Import Scene Orchestrator Inputs.

Lemma eqb_neq (s t : string) : s <> t -> String.eqb s t = false.
Proof. intros H. by apply String.eqb_neq. Qed.

Section Checks.
Variable check_sanity :
  Strategy -> gmap string (list nat) -> gmap string Optimizer -> Result unit.

Lemma bad_init_type (parser : Parser) (wr ws : nat) (cfg : Config) :
  init_type cfg <> "sfm"%string -> init_type cfg <> "random"%string ->
  Runner_init check_sanity parser wr ws cfg
  = Raise (ValueError "Please specify a correct init_type: sfm or random").
Proof.
  intros H1 H2. unfold Runner_init, create_splats_with_optimizers, build_params.
  cbn [a_init_type splat_args]. by rewrite (eqb_neq _ _ H1), (eqb_neq _ _ H2).
Qed.

Lemma bad_strategy (parser : Parser) (wr ws : nat) (cfg : Config) (n : string) :
  strategy cfg = OtherStrategy n ->
  raises (Runner_init check_sanity parser wr ws cfg).
Proof.
  intros Hs. unfold Runner_init.
  destruct (create_splats_with_optimizers parser (splat_args parser wr ws cfg))
    as [[splats optimizers]|e]; [|exact I].
  cbn [mbind result_bind].
  destruct (check_sanity (strategy cfg) splats optimizers) as [[]|e]; [|exact I].
  cbn [mbind result_bind]. rewrite Hs. exact I.
Qed.

Lemma bad_compression (parser : Parser) (wr ws : nat) (cfg : Config) (c : string) :
  compression cfg = Some c -> c <> "png"%string ->
  raises (Runner_init check_sanity parser wr ws cfg).
Proof.
  intros Hc Hne. unfold Runner_init.
  destruct (create_splats_with_optimizers parser (splat_args parser wr ws cfg))
    as [[splats optimizers]|e]; [|exact I].
  cbn [mbind result_bind].
  destruct (check_sanity (strategy cfg) splats optimizers) as [[]|e]; [|exact I].
  cbn [mbind result_bind].
  destruct (strategy cfg); cbn [mbind result_bind assert_never]; try exact I;
    rewrite Hc, (eqb_neq _ _ Hne); exact I.
Qed.

Lemma bad_lpips (parser : Parser) (wr ws : nat) (cfg : Config) :
  lpips_net cfg <> "alex"%string -> lpips_net cfg <> "vgg"%string ->
  raises (Runner_init check_sanity parser wr ws cfg).
Proof.
  intros H1 H2. unfold Runner_init.
  destruct (create_splats_with_optimizers parser (splat_args parser wr ws cfg))
    as [[splats optimizers]|e]; [|exact I].
  cbn [mbind result_bind].
  destruct (check_sanity (strategy cfg) splats optimizers) as [[]|e]; [|exact I].
  cbn [mbind result_bind].
  destruct (strategy cfg); cbn [mbind result_bind assert_never]; try exact I;
    (destruct (compression cfg) as [c|];
     [destruct (String.eqb c "png")|]; cbn [mbind result_bind]; try exact I;
     rewrite (eqb_neq _ _ H1), (eqb_neq _ _ H2); exact I).
Qed.

End Checks.

Lemma bad_traj_path (r : Runner) (d : Data) (step : Z) :
  disable_video (cfg r) = false -> world_rank r = 0%nat -> n_camtoworlds d <> 0%nat ->
  render_traj_path (cfg r) <> "interp"%string ->
  render_traj_path (cfg r) <> "ellipse"%string ->
  render_traj_path (cfg r) <> "spiral"%string ->
  render_traj r d step
  = Raise (ValueError ("Render trajectory type not supported: "
                       ++ render_traj_path (cfg r))).
Proof.
  intros Hv Hr Hn H1 H2 H3. unfold render_traj. rewrite Hv, Hr.
  cbn [Nat.eqb negb]. rewrite (proj2 (Nat.eqb_neq _ _) Hn).
  by rewrite (eqb_neq _ _ H1), (eqb_neq _ _ H2), (eqb_neq _ _ H3).
Qed.




End ConfigFacts.


(* ================================================================== *)
(** * Who writes which file *)

Module WriteFacts.
Import Scene Orchestrator Inputs.

Lemma quiet_nil : quiet [].
Proof. intros f Hf. destruct Hf. Qed.

Lemma quiet_app (w w' : list File) : quiet w -> quiet w' -> quiet (w ++ w').
Proof.
  intros H H' f Hf. apply in_app_or in Hf. destruct Hf; [by apply H|by apply H'].
Qed.

Lemma quiet_cons (f : File) (w : list File) :
  rank_zero_only f = false -> quiet w -> quiet (f :: w).
Proof. intros Hf Hw g [<-|Hg]; [exact Hf|by apply Hw]. Qed.

Section Worker.
Variable r : Runner.
Variable d : Data.
Hypothesis not_zero : world_rank r <> 0%nat.

Lemma rank_test : (world_rank r =? 0)%nat = false.
Proof. by apply Nat.eqb_neq. Qed.

Lemma eval_writes_worker (step : Z) (stage : string) : eval_writes r d step stage = [].
Proof.
  unfold eval_writes. rewrite rank_test, app_nil_r.
  induction (seq 0 (n_val d)) as [|i l IH]; [reflexivity|exact IH].
Qed.

Lemma render_traj_worker (step : Z) : render_traj r d step = Ok [].
Proof.
  unfold render_traj. rewrite rank_test. by destruct (disable_video (cfg r)).
Qed.

Lemma train_step_writes_worker (step : Z) :
  quiet (train_step_writes r d step).1 /\ (train_step_writes r d step).2 = None.
Proof.
  unfold train_step_writes. rewrite rank_test, render_traj_worker.
  rewrite !eval_writes_worker. cbn [andb].
  assert (Htraj : (if step_in step (eval_steps (cfg r))
                   then Ok [] else Ok []) = (Ok [] : Result (list File)))
    by (by destruct (step_in step (eval_steps (cfg r)))).
  rewrite Htraj. cbn [fst snd]. split; [|reflexivity].
  repeat apply quiet_app.
  - apply quiet_nil.
  - destruct (_ || _); [|apply quiet_nil].
    repeat (apply quiet_cons; [reflexivity|]). apply quiet_nil.
  - destruct (_ && _); [|apply quiet_nil].
    apply quiet_cons; [reflexivity|apply quiet_nil].
  - destruct (step_in step (eval_steps (cfg r))); apply quiet_nil.
  - apply quiet_nil.
  - destruct (_ && _); [|apply quiet_nil].
    unfold run_compression_writes. destruct (compression_method r); [|apply quiet_nil].
    rewrite eval_writes_worker. apply quiet_cons; [reflexivity|apply quiet_nil].
Qed.

Lemma loop_writes_worker (steps : list Z) : quiet (loop_writes r d steps).1.
Proof.
  induction steps as [|step steps IH]; [apply quiet_nil|].
  cbn [loop_writes].
  destruct (train_step_writes_worker step) as [Hq He].
  destruct (train_step_writes r d step) as [w [e|]]; [discriminate He|].
  destruct (loop_writes r d steps) as [w' e']. cbn [fst] in *.
  by apply quiet_app.
Qed.

Lemma pretrain_loop_writes_quiet (steps : list Z) : quiet (pretrain_loop_writes r steps).1.
Proof.
  induction steps as [|step steps IH]; [apply quiet_nil|].
  cbn [pretrain_loop_writes]. unfold retinex_train_step_writes.
  destruct (tb_every (cfg r) =? 0)%Z; [apply quiet_nil|].
  destruct (step mod tb_every (cfg r) =? 0)%Z;
    destruct (pretrain_loop_writes r steps) as [w' e']; cbn [fst app] in *.
  - by apply quiet_cons.
  - exact IH.
Qed.

Lemma train_writes_worker : quiet (train_writes r d).1.
Proof.
  unfold train_writes, train_prologue_writes, pretrain_writes. rewrite rank_test.
  pose proof (loop_writes_worker (seqZ 0 (max_steps (cfg r)))) as Hloop.
  pose proof (pretrain_loop_writes_quiet (seqZ 0 (pretrain_steps (cfg r)))) as Hpre.
  destruct (loop_writes r d (seqZ 0 (max_steps (cfg r)))) as [w e].
  destruct (pretrain_retinex (cfg r) && enable_retinex (cfg r)).
  - destruct (pretrain_loop_writes r (seqZ 0 (pretrain_steps (cfg r)))) as [w0 [e0|]];
      cbn [fst app] in *; [exact Hpre|by apply quiet_app].
  - cbn [fst app] in *. exact Hloop.
Qed.

End Worker.

(** Every worker writes its own statistics and checkpoint at a save step. *)
Lemma save_step_writes (r : Runner) (d : Data) (step : Z) :
  step_in step (save_steps (cfg r)) = true \/ step = (max_steps (cfg r) - 1)%Z ->
  In (TrainStatsJson step (world_rank r)) (train_step_writes r d step).1 /\
  In (CheckpointPt step (world_rank r)) (train_step_writes r d step).1.
Proof.
  intros Hsave.
  assert (Hcond : step_in step (save_steps (cfg r))
                  || (step =? max_steps (cfg r) - 1)%Z = true).
  { destruct Hsave as [-> | ->]; [reflexivity|].
    rewrite Z.eqb_refl. apply orb_true_r. }
  unfold train_step_writes. rewrite Hcond.
  destruct (if step_in step (eval_steps (cfg r)) then render_traj r d step else Ok []);
    cbn [fst]; rewrite !in_app_iff; cbn [In]; tauto.
Qed.

(** C9 (as amended). A worker whose rank is not zero never writes the
    configuration dump, a tensorboard record of the main loop, of the
    evaluation or of the trajectory, an evaluation image or statistics file,
    or a trajectory video, in the whole of [train]. Every worker, whatever
    its rank, writes its own rank-suffixed training statistics and
    checkpoint at each save step. *)
Theorem C9_rank_zero_writes (r : Runner) (d : Data) :
  (world_rank r <> 0%nat ->
   forall f : File, In f (train_writes r d).1 -> rank_zero_only f = false) /\
  (forall step : Z,
      step_in step (save_steps (cfg r)) = true \/ step = (max_steps (cfg r) - 1)%Z ->
      In (TrainStatsJson step (world_rank r)) (train_step_writes r d step).1 /\
      In (CheckpointPt step (world_rank r)) (train_step_writes r d step).1).
Proof.
  split.
  - intros Hrank. by apply train_writes_worker.
  - apply save_step_writes.
Qed.

(** [C9_rank_zero_writes] applies to the worker of rank one: nothing it
    writes is a file of the rank-zero worker, and at the last step it writes
    its checkpoint. *)
Lemma C9_rank_zero_writes_witness :
  world_rank (demo_runner 1 (demo_cfg false false false false MCMCStrategy "interp"))
  <> 0%nat /\
  (forall f : File,
      In f (train_writes
              (demo_runner 1 (demo_cfg false false false false MCMCStrategy "interp"))
              demo_data).1 ->
      rank_zero_only f = false) /\
  In (CheckpointPt 2 1)
     (train_step_writes
        (demo_runner 1 (demo_cfg false false false false MCMCStrategy "interp"))
        demo_data 2).1.
Proof.
  destruct (C9_rank_zero_writes
              (demo_runner 1 (demo_cfg false false false false MCMCStrategy "interp"))
              demo_data) as [Hquiet Hsave].
  split; [discriminate|]. split.
  - apply Hquiet. discriminate.
  - apply Hsave. right. reflexivity.
Defined.

(** C9 as stated fails: during training the worker of rank one of two
    writes its statistics and its checkpoint. *)
Lemma C9_counterexample :
  exists r : Runner,
    Runner_init sane demo_parser 1 2
      (demo_cfg false false false false MCMCStrategy "interp") = Ok r /\
    world_rank r <> 0%nat /\
    (train_writes r demo_data).1 = [TrainStatsJson 2 1; CheckpointPt 2 1].
Proof.
  eexists. split; [reflexivity|]. split; [discriminate|].
  vm_compute. reflexivity.
Qed.

End WriteFacts.

(* ================================================================== *)
(** * The workers' shares of the point cloud, and the appearance mode *)

Module ShardFacts.
Import Scene Shards Inputs Samples.

(** The quotient of a strided slice: worker [r] of [w] gets one row more
    than [n / w] exactly when [r] is below the remainder. *)
Lemma strided_quotient (n w r : nat) :
  (r < w)%nat ->
  ((n - r + (w - 1)) / w = n / w + (if (r <? n mod w)%nat then 1 else 0))%nat.
Proof.
  intros Hr.
  pose proof (Nat.div_mod_eq n w) as Hn.
  pose proof (Nat.mod_upper_bound n w ltac:(lia)) as Hm.
  set (q := (n / w)%nat) in *. set (m := (n mod w)%nat) in *.
  destruct (r <? m)%nat eqn:E.
  - apply Nat.ltb_lt in E. symmetry.
    apply (Nat.div_unique _ _ _ (m - r - 1)%nat); nia.
  - apply Nat.ltb_ge in E. symmetry.
    destruct (le_lt_dec r n) as [Hle|Hlt].
    + apply (Nat.div_unique _ _ _ (w - 1 - (r - m))%nat); nia.
    + assert (q = 0)%nat by nia.
      apply (Nat.div_unique _ _ _ (w - 1)%nat); nia.
Qed.

Lemma sum_list_snoc (l : list nat) (x : nat) :
  sum_list (l ++ [x]) = (sum_list l + x)%nat.
Proof. induction l as [|y l IH]; cbn; lia. Qed.

Lemma sum_quotients (c m w : nat) :
  sum_list (map (fun r => c + (if (r <? m)%nat then 1 else 0))%nat (seq 0 w))
  = (w * c + Nat.min m w)%nat.
Proof.
  induction w as [|w IH]; [cbn; lia|].
  rewrite seq_S, map_app. cbn [map]. rewrite sum_list_snoc, IH. cbn [plus].
  destruct (w <? m)%nat eqn:E;
    [apply Nat.ltb_lt in E|apply Nat.ltb_ge in E]; lia.
Qed.

Lemma strided_sum (n w : nat) :
  (0 < w)%nat ->
  sum_list (map (fun r => (n - r + (w - 1)) / w)%nat (seq 0 w)) = n.
Proof.
  intros Hw.
  rewrite (map_ext_in _ (fun r => n / w + (if (r <? n mod w)%nat then 1 else 0))%nat).
  - rewrite sum_quotients.
    pose proof (Nat.div_mod_eq n w). pose proof (Nat.mod_upper_bound n w ltac:(lia)).
    lia.
  - intros r Hin. apply in_seq in Hin. apply strided_quotient. lia.
Qed.

(** The rows that an initialization over [n] points leaves to the worker
    of rank [r]. *)
Lemma rows_on_rank_Ok (parser : Parser) (a : SplatArgs) (n r : nat) :
  (a_init_type a = "sfm"%string /\ points parser = n /\ points_rgb parser = n) \/
  (a_init_type a = "random"%string /\ a_init_num_pts a = n) ->
  a_feature_dim a = None ->
  (0 < a_world_size a)%nat ->
  (0 < a_batch_size a)%nat ->
  (a_batch_size a * a_world_size a <= 10)%nat ->
  rows_on_rank parser a r
  = Ok ((n - r + (a_world_size a - 1)) / a_world_size a)%nat.
Proof.
  intros Hinit Hfd Hw Hb Hbs.
  assert (E0 : (BS (on_rank a r) =? 0)%nat = false).
  { apply Nat.eqb_neq. unfold BS. cbn [on_rank a_batch_size a_world_size]. nia. }
  assert (E1 : (10 <? BS (on_rank a r))%nat = false).
  { apply Nat.ltb_ge. unfold BS. cbn [on_rank a_batch_size a_world_size]. lia. }
  unfold rows_on_rank, create_splats_with_optimizers. rewrite E0, E1.
  unfold build_params, strided_rows.
  cbn [on_rank a_init_type a_init_num_pts a_world_rank a_world_size a_feature_dim].
  assert (Hsel : (if String.eqb (a_init_type a) "sfm"
                  then Ok (points parser, points_rgb parser)
                  else if String.eqb (a_init_type a) "random"
                       then Ok (a_init_num_pts a, a_init_num_pts a)
                       else Raise (ValueError
                                     "Please specify a correct init_type: sfm or random"))
                 = (Ok (n, n) : Result (nat * nat))).
  { destruct Hinit as [(-> & -> & ->)|(-> & ->)]; reflexivity. }
  rewrite Hsel, Hfd. cbn [mbind result_bind].
  destruct (a_world_size a =? 0)%nat eqn:E; [apply Nat.eqb_eq in E; lia|].
  cbn [mbind result_bind]. rewrite Nat.eqb_refl. reflexivity.
Qed.

(** X1. The shares of the workers add up to the point cloud: over the ranks
    [0 .. world_size - 1], the numbers of Gaussians that
    [create_splats_with_optimizers] leaves to each worker by
    [points[world_rank::world_size]] sum to the number of initial points,
    of the parser or drawn at random, and no two shares differ by more than
    one. The total batch size is taken in the range in which the optimizers
    of [torch] accept the coefficients computed from it. *)
Theorem shards_partition (parser : Parser) (a : SplatArgs) (n : nat) :
  (a_init_type a = "sfm"%string /\ points parser = n /\ points_rgb parser = n) \/
  (a_init_type a = "random"%string /\ a_init_num_pts a = n) ->
  a_feature_dim a = None ->
  (0 < a_world_size a)%nat ->
  (0 < a_batch_size a)%nat ->
  (a_batch_size a * a_world_size a <= 10)%nat ->
  exists Ns : list nat,
    Forall2 (fun rank N => rows_on_rank parser a rank = Ok N)
            (seq 0 (a_world_size a)) Ns /\
    sum_list Ns = n /\
    Forall (fun N => n / a_world_size a <= N <= n / a_world_size a + 1)%nat Ns.
Proof.
  intros Hinit Hfd Hw Hb Hbs.
  exists (map (fun r => (n - r + (a_world_size a - 1)) / a_world_size a)%nat
              (seq 0 (a_world_size a))).
  split; [|split].
  - apply Forall2_fmap_r, Forall_Forall2_diag, Forall_forall.
    intros r _. by apply rows_on_rank_Ok.
  - by apply strided_sum.
  - apply Forall_fmap, Forall_seq. intros r Hr. cbn [compose].
    rewrite strided_quotient by lia. destruct (_ <? _)%nat; lia.
Qed.

Lemma shards_partition_witness :
  exists Ns : list nat,
    Forall2 (fun rank N => rows_on_rank demo_parser (demo_args 1 0 3) rank = Ok N)
            [0; 1; 2]%nat Ns /\
    sum_list Ns = 4%nat.
Proof.
  destruct (shards_partition demo_parser (demo_args 1 0 3) 4) as (Ns & H & Hs & _).
  - left. repeat split; reflexivity.
  - reflexivity.
  - cbn. lia.
  - cbn. lia.
  - cbn. lia.
  - exists Ns. split; [exact H|exact Hs].
Defined.

(** X2. The total batch size that a runner can be built for. With
    [BS = batch_size * world_size], [Runner.__init__] raises whenever [BS]
    is 0 or above 10: once the parameters of the scene are initialized,
    [create_splats_with_optimizers] raises the [ZeroDivisionError] of
    [1e-15 / math.sqrt(BS)] for [BS = 0] and the [ValueError] of the
    optimizer class for [BS > 10], where the first beta
    [1 - BS * (1 - 0.9)] is negative. A runner that was built has [BS]
    from 1 to 10, and every optimizer of its scene state has both betas at
    least 0 and below 1 and a positive epsilon. *)
Theorem total_batch_bounds
    (check_sanity :
       Strategy -> gmap string (list nat) -> gmap string Optimizer -> Result unit)
    (parser : Parser) (wr ws : nat) (c : Config) :
  ((batch_size c * ws = 0)%nat \/ (10 < batch_size c * ws)%nat ->
   raises (Runner_init check_sanity parser wr ws c)) /\
  (forall params : list (string * list nat * R),
      build_params parser (splat_args parser wr ws c) = Ok params ->
      ((batch_size c * ws = 0)%nat ->
       Runner_init check_sanity parser wr ws c = Raise ZeroDivisionError) /\
      ((10 < batch_size c * ws)%nat ->
       Runner_init check_sanity parser wr ws c
       = Raise (ValueError "Invalid beta parameter at index 0"))) /\
  (forall r : Runner,
      Runner_init check_sanity parser wr ws c = Ok r ->
      (1 <= batch_size c * ws <= 10)%nat /\
      forall (name : string) (o : Optimizer),
        optimizers r !! name = Some o ->
        0 <= (opt_betas o).1 < 1 /\ 0 <= (opt_betas o).2 < 1 /\ 0 < opt_eps o).
Proof.
  assert (HBS : BS (splat_args parser wr ws c) = (batch_size c * ws)%nat)
    by reflexivity.
  split; [|split].
  - intros Hout. unfold Runner_init, create_splats_with_optimizers.
    destruct (build_params parser (splat_args parser wr ws c)) as [params|e];
      [|exact I].
    cbn [mbind result_bind]. rewrite HBS.
    destruct (batch_size c * ws =? 0)%nat eqn:E0; [exact I|].
    destruct (10 <? batch_size c * ws)%nat eqn:E1; [exact I|].
    apply Nat.eqb_neq in E0. apply Nat.ltb_ge in E1. lia.
  - intros params Hp. unfold Runner_init, create_splats_with_optimizers.
    rewrite Hp, HBS. cbn [mbind result_bind]. split.
    + intros H0. apply Nat.eqb_eq in H0. rewrite H0. reflexivity.
    + intros H10.
      assert (E0 : (batch_size c * ws =? 0)%nat = false) by (apply Nat.eqb_neq; lia).
      apply Nat.ltb_lt in H10. rewrite E0, H10. reflexivity.
  - intros r Hr.
    destruct (SceneFacts.Runner_init_optimizers _ _ _ _ _ _ Hr) as (Hc & _).
    pose proof (SceneFacts.create_Ok_batch _ _ _ _ Hc) as Hb. rewrite HBS in Hb.
    split; [exact Hb|]. intros name o Ho.
    destruct (SceneFacts.optimizers_scaled _ _ _ _ Hc name o Ho) as (lr & _ & ->).
    unfold scaled. rewrite HBS. cbn [opt_betas opt_eps fst snd].
    assert (H1 : 1 <= INR (batch_size c * ws)).
    { replace 1 with (INR 1) by reflexivity. apply le_INR. lia. }
    assert (H10 : INR (batch_size c * ws) <= 10).
    { replace 10 with (INR 10) by (cbn [INR]; lra). apply le_INR. lia. }
    split; [lra|]. split; [lra|].
    apply Rdiv_lt_0_compat; [lra|]. apply sqrt_lt_R0. lra.
Qed.

Lemma total_batch_bounds_witness :
  Runner_init sane demo_parser 0 1 (with_batch 0 plain_cfg) = Raise ZeroDivisionError /\
  Runner_init sane demo_parser 0 1 (with_batch 11 plain_cfg)
  = Raise (ValueError "Invalid beta parameter at index 0") /\
  exists r : Runner,
    Runner_init sane demo_parser 0 3 (with_batch 2 plain_cfg) = Ok r /\
    forall (name : string) (o : Optimizer),
      optimizers r !! name = Some o ->
      0 <= (opt_betas o).1 < 1 /\ 0 <= (opt_betas o).2 < 1 /\ 0 < opt_eps o.
Proof.
  split; [|split].
  - refine (proj1 (proj1 (proj2 (total_batch_bounds sane demo_parser 0 1
                                   (with_batch 0 plain_cfg))) _ eq_refl) eq_refl).
  - refine (proj2 (proj1 (proj2 (total_batch_bounds sane demo_parser 0 1
                                   (with_batch 11 plain_cfg))) _ eq_refl) _).
    cbn. lia.
  - eexists. split; [reflexivity|].
    exact (proj2 (proj2 (proj2 (total_batch_bounds sane demo_parser 0 3
                                  (with_batch 2 plain_cfg))) _ eq_refl)).
Defined.

(** X3. With the appearance optimization switched on, the construction of the
    runner never returns: [create_splats_with_optimizers] is called with a
    feature dimension, where [colors = torch.logit(rgbs)] has two
    dimensions and [colors[:, :1, :]], taken for the adjustment groups,
    raises. For a known initialization type and at least one worker, the
    exception is the [IndexError]. *)
Theorem app_opt_never_constructs
    (check_sanity :
       Strategy -> gmap string (list nat) -> gmap string Optimizer -> Result unit)
    (parser : Parser) (wr ws : nat) (c : Config) :
  app_opt c = true ->
  raises (Runner_init check_sanity parser wr ws c) /\
  ((init_type c = "sfm"%string \/ init_type c = "random"%string) ->
   (0 < ws)%nat ->
   Runner_init check_sanity parser wr ws c
   = Raise (IndexError "too many indices for tensor")).
Proof.
  intros Happ.
  assert (Hb : forall a : SplatArgs,
             a_feature_dim a <> None ->
             raises (build_params parser a) /\
             ((a_init_type a = "sfm"%string \/ a_init_type a = "random"%string) ->
              (0 < a_world_size a)%nat ->
              build_params parser a = Raise (IndexError "too many indices for tensor"))).
  { intros a Hfd. unfold build_params, strided_rows.
    destruct (a_feature_dim a) as [fd|]; [clear Hfd|done].
    split.
    - destruct (String.eqb (a_init_type a) "sfm");
        [|destruct (String.eqb (a_init_type a) "random")];
        cbn [mbind result_bind]; try exact I;
        destruct (a_world_size a =? 0)%nat; cbn [mbind result_bind]; exact I.
    - intros Hinit Hw.
      destruct (a_world_size a =? 0)%nat eqn:E; [apply Nat.eqb_eq in E; lia|].
      destruct Hinit as [-> | ->]; reflexivity. }
  destruct (Hb (splat_args parser wr ws c)) as [Hraise Hidx].
  { cbn [splat_args a_feature_dim]. by rewrite Happ. }
  unfold Runner_init, create_splats_with_optimizers. split.
  - destruct (build_params parser (splat_args parser wr ws c)); [destruct Hraise|exact I].
  - intros Hinit Hw. rewrite Hidx; [reflexivity|exact Hinit|exact Hw].
Qed.

Lemma app_opt_never_constructs_witness :
  raises (Runner_init sane demo_parser 0 1
            (with_switches true false false false (fun w => w) plain_cfg)).
Proof.
  refine (proj1 (app_opt_never_constructs sane demo_parser 0 1 _ _)). reflexivity.
Defined.

End ShardFacts.

(* ================================================================== *)
(** * The schedules of the main loop *)

Module ScheduleFacts.
Import Scene Orchestrator Schedule Inputs.

(** A runner that [Runner.__init__] returned: its fields against the
    arguments of the call. *)
Lemma Runner_init_Ok
    (check_sanity :
       Strategy -> gmap string (list nat) -> gmap string Optimizer -> Result unit)
    (parser : Parser) (wr ws : nat) (c : Config) (r : Runner) :
  Runner_init check_sanity parser wr ws c = Ok r ->
  cfg r = c /\ world_rank r = wr /\ world_size r = ws /\
  create_splats_with_optimizers parser (splat_args parser wr ws c)
  = Ok (splats r, optimizers r) /\
  (compression c = None -> compression_method r = None) /\
  (forall n : string, strategy c <> OtherStrategy n).
Proof.
  unfold Runner_init.
  destruct (create_splats_with_optimizers parser (splat_args parser wr ws c))
    as [[s o]|e]; [|discriminate].
  cbn [mbind result_bind].
  destruct (check_sanity (strategy c) s o) as [[]|e]; [|discriminate].
  cbn [mbind result_bind].
  destruct (strategy c) eqn:Es; cbn [mbind result_bind assert_never]; try discriminate.
  all: destruct (compression c) as [m|];
    [destruct (String.eqb m "png")|]; cbn [mbind result_bind]; try discriminate.
  all: destruct (String.eqb (lpips_net c) "alex");
    [|destruct (String.eqb (lpips_net c) "vgg")];
    cbn [mbind result_bind]; try discriminate.
  all: intros [= <-]; cbn; repeat split; try reflexivity; try discriminate.
Qed.

Lemma lr_after_pow (g lr0 : R) (k : nat) : lr_after g k lr0 = lr0 * g ^ k.
Proof.
  unfold lr_after. induction k as [|k IH]; [cbn; lra|].
  rewrite Nat.iter_succ, IH. unfold exponential_step. cbn [pow]. lra.
Qed.

Lemma gamma_Ok (max_steps : Z) (g : R) :
  gamma max_steps = Ok g ->
  max_steps <> 0%Z /\ g = Rpower (1 / 100) (1 / IZR max_steps).
Proof.
  unfold gamma. destruct (max_steps =? 0)%Z eqn:E; [discriminate|].
  apply Z.eqb_neq in E. intros [= <-]. by split.
Qed.

Lemma gamma_pow (max_steps : Z) (k : nat) :
  Rpower (1 / 100) (1 / IZR max_steps) ^ k
  = Rpower (1 / 100) (INR k / IZR max_steps).
Proof.
  rewrite <- Rpower_pow by (unfold Rpower; apply exp_pos).
  rewrite Rpower_mult. f_equal. unfold Rdiv. lra.
Qed.

(** [Rpower (1/100) y] between [1/100] and [1] for [y] between [0] and
    [1], and strictly decreasing in [y]. *)
Lemma hundredth_power_bounds (y : R) :
  0 <= y <= 1 -> 1 / 100 <= Rpower (1 / 100) y <= 1.
Proof.
  intros [H0 H1].
  assert (Hln : ln (1 / 100) < 0).
  { rewrite <- ln_1. apply ln_increasing; lra. }
  unfold Rpower. split.
  - assert (H : exp (ln (1 / 100)) <= exp (y * ln (1 / 100))).
    { destruct (Req_dec y 1) as [-> | Hne]; [rewrite Rmult_1_l; lra|].
      left. apply exp_increasing. nra. }
    rewrite exp_ln in H by lra. exact H.
  - assert (H : exp (y * ln (1 / 100)) <= exp 0).
    { destruct (Req_dec y 0) as [-> | Hne]; [rewrite Rmult_0_l; lra|].
      left. apply exp_increasing. nra. }
    rewrite exp_0 in H. exact H.
Qed.

Lemma hundredth_power_lt (y z : R) :
  y < z -> Rpower (1 / 100) z < Rpower (1 / 100) y.
Proof.
  intros H.
  assert (Hln : ln (1 / 100) < 0).
  { rewrite <- ln_1. apply ln_increasing; lra. }
  unfold Rpower. apply exp_increasing. nra.
Qed.

(** X4. The learning rate of the means over the main loop. With the [gamma]
    that [train] computes from [max_steps > 0], the learning rate after [k]
    iterations is the initial one times [0.01 ** (k / max_steps)]: it falls
    strictly from one iteration to the next (for a positive initial rate),
    stays between the initial rate and a hundredth of it during the run,
    and is exactly a hundredth of it after the last iteration. *)
Theorem means_lr_decay (max_steps : Z) (g lr0 : R) (k : nat) :
  (0 < max_steps)%Z ->
  gamma max_steps = Ok g ->
  lr_after g k lr0 = lr0 * Rpower (1 / 100) (INR k / IZR max_steps) /\
  lr_after g (Z.to_nat max_steps) lr0 = lr0 / 100 /\
  (0 <= lr0 -> (k <= Z.to_nat max_steps)%nat ->
   lr0 / 100 <= lr_after g k lr0 <= lr0) /\
  (0 < lr0 -> lr_after g (S k) lr0 < lr_after g k lr0).
Proof.
  intros Hpos Hg. destruct (gamma_Ok _ _ Hg) as [Hne ->].
  assert (Hn : 0 < IZR max_steps) by (by apply IZR_lt).
  assert (Hclosed : forall j : nat,
             lr_after (Rpower (1 / 100) (1 / IZR max_steps)) j lr0
             = lr0 * Rpower (1 / 100) (INR j / IZR max_steps)).
  { intros j. by rewrite lr_after_pow, gamma_pow. }
  split; [apply Hclosed|]. split; [|split].
  - rewrite Hclosed, INR_IZR_INZ, Z2Nat.id by lia.
    replace (IZR max_steps / IZR max_steps) with 1 by (field; lra).
    rewrite Rpower_1 by lra. lra.
  - intros Hlr Hk. rewrite Hclosed.
    assert (Hy : 0 <= INR k / IZR max_steps <= 1).
    { assert (Hk' : INR k <= IZR max_steps).
      { rewrite INR_IZR_INZ. apply IZR_le. lia. }
      pose proof (pos_INR k). split.
      - unfold Rdiv. apply Rmult_le_pos; [lra|]. left. by apply Rinv_0_lt_compat.
      - apply (Rmult_le_reg_r (IZR max_steps)); [lra|].
        unfold Rdiv. rewrite Rmult_assoc, Rinv_l by lra. lra. }
    pose proof (hundredth_power_bounds _ Hy). nra.
  - intros Hlr. rewrite !Hclosed. apply Rmult_lt_compat_l; [exact Hlr|].
    apply hundredth_power_lt. rewrite S_INR.
    unfold Rdiv. apply Rmult_lt_compat_r; [by apply Rinv_0_lt_compat|lra].
Qed.

Lemma means_lr_decay_witness :
  lr_after (Rpower (1 / 100) (1 / 3)) 3 1 = 1 / 100.
Proof.
  destruct (means_lr_decay 3 (Rpower (1 / 100) (1 / 3)) 1 0) as (_ & H & _).
  - lia.
  - reflexivity.
  - exact H.
Defined.

(** X5. What the MCMC strategy is told. In iteration [step] of the main loop
    of a runner that [Runner.__init__] built, [step_post_backward] of the
    MCMC strategy receives as [lr] the scaled learning rate of the means,
    [means_lr * scene_scale * sqrt(batch_size * world_size)], times
    [0.01 ** ((step + 1) / max_steps)]: the schedulers have already stepped
    in that iteration. *)
Theorem mcmc_lr
    (check_sanity :
       Strategy -> gmap string (list nat) -> gmap string Optimizer -> Result unit)
    (parser : Parser) (wr ws : nat) (c : Config) (r : Runner) (step : Z) :
  Runner_init check_sanity parser wr ws c = Ok r ->
  strategy c = MCMCStrategy ->
  (0 < max_steps c)%Z ->
  (0 <= step)%Z ->
  train_post_backward r step
  = Ok (MCMCPostBackward step
          (means_lr c * (parser_scene_scale parser * (11 / 10) * global_scale c)
           * sqrt (INR (batch_size c * ws))
           * Rpower (1 / 100) (IZR (step + 1) / IZR (max_steps c)))).
Proof.
  intros Hinit Hs Hmax Hstep.
  destruct (Runner_init_Ok _ _ _ _ _ _ Hinit) as (Hc & _ & _ & Hcreate & _).
  destruct (SceneFacts.create_Ok _ _ _ _ Hcreate) as (N & _ & Ho).
  assert (Hm : optimizers r !! "means"%string
               = Some (scaled (splat_args parser wr ws c) "means"
                         (means_lr c
                          * (parser_scene_scale parser * (11 / 10) * global_scale c)))).
  { rewrite Ho. reflexivity. }
  unfold train_post_backward, Raster.getitem. rewrite Hm, Hc.
  cbn [mbind result_bind opt_lr scaled]. unfold gamma.
  destruct (max_steps c =? 0)%Z eqn:E; [apply Z.eqb_eq in E; lia|].
  cbn [mbind result_bind]. unfold post_backward. rewrite Hs.
  unfold last_lr.
  rewrite lr_after_pow, gamma_pow, (INR_IZR_INZ (Z.to_nat (step + 1))), Z2Nat.id
    by lia.
  reflexivity.
Qed.

Lemma mcmc_lr_witness :
  exists r : Runner,
    Runner_init sane demo_parser 0 1
      (demo_cfg false false false true MCMCStrategy "interp") = Ok r /\
    train_post_backward r 2
    = Ok (MCMCPostBackward 2
            (1 * (1 * (11 / 10) * 1) * sqrt (INR (1 * 1))
             * Rpower (1 / 100) (IZR (2 + 1) / IZR 3))).
Proof.
  eexists. split; [reflexivity|].
  apply (mcmc_lr sane demo_parser 0 1
           (demo_cfg false false false true MCMCStrategy "interp"));
    [reflexivity|reflexivity|reflexivity|discriminate].
Defined.

(** X6. The degree of the spherical harmonics that a step renders with. For a
    positive interval and a step that is not negative, the degree is
    between zero and [cfg.sh_degree], does not fall from a step to a later
    one, and is the full [cfg.sh_degree] exactly from step
    [sh_degree_interval * cfg.sh_degree] on. *)
Theorem sh_degree_schedule (sh_degree_interval : Z) (c : Config) (step : Z) :
  (0 < sh_degree_interval)%Z ->
  (0 <= step)%Z ->
  exists d : Z,
    sh_degree_to_use sh_degree_interval c step = Ok d /\
    (0 <= d <= Z.of_nat (sh_degree c))%Z /\
    (d = Z.of_nat (sh_degree c)
     <-> (sh_degree_interval * Z.of_nat (sh_degree c) <= step)%Z) /\
    (forall later d' : Z,
        (step <= later)%Z ->
        sh_degree_to_use sh_degree_interval c later = Ok d' -> (d <= d')%Z).
Proof.
  intros Hi Hs. unfold sh_degree_to_use.
  destruct (sh_degree_interval =? 0)%Z eqn:E; [apply Z.eqb_eq in E; lia|].
  eexists. split; [reflexivity|].
  pose proof (Z.div_pos step sh_degree_interval Hs Hi) as Hq.
  split; [lia|]. split.
  - split.
    + intros Hd.
      assert (Hle : (Z.of_nat (sh_degree c) <= step / sh_degree_interval)%Z) by lia.
      pose proof (Z.mul_div_le step sh_degree_interval Hi). nia.
    + intros Hle.
      assert (Z.of_nat (sh_degree c) <= step / sh_degree_interval)%Z.
      { apply Z.div_le_lower_bound; lia. }
      lia.
  - intros later d' Hl [= <-].
    pose proof (Z.div_le_mono step later sh_degree_interval Hi Hl). lia.
Qed.

Lemma sh_degree_schedule_witness :
  exists d : Z,
    sh_degree_to_use 1000 (demo_cfg false false false true MCMCStrategy "interp") 2500
    = Ok d /\ (0 <= d <= 3)%Z.
Proof.
  destruct (sh_degree_schedule 1000
              (demo_cfg false false false true MCMCStrategy "interp") 2500)
    as (d & Hd & Hr & _); [lia|lia|].
  exists d. split; [exact Hd|exact Hr].
Defined.

End ScheduleFacts.

(* ================================================================== *)
(** * The depth terms of a step and the frames of the video *)

Module DepthFacts.
Import torch Depth Inputs Samples.

Lemma normalize_range (s x : R) :
  1 < s -> 0 <= x <= s - 1 -> -1 <= x / (s - 1) * 2 - 1 <= 1.
Proof.
  intros Hs [H0 H1].
  assert (Hq : 0 <= x / (s - 1) <= 1).
  { split.
    - unfold Rdiv. apply Rmult_le_pos; [lra|]. left. apply Rinv_0_lt_compat. lra.
    - apply (Rmult_le_reg_r (s - 1)); [lra|].
      unfold Rdiv. rewrite Rmult_assoc, Rinv_l by lra. lra. }
  lra.
Qed.

(** Normalizing a coordinate that is already in [-1, 1]: the result stays
    within [2 / (s - 1)] of [-1], and below the coordinate. *)
Lemma normalize_twice (s y : R) :
  3 < s -> -1 <= y <= 1 ->
  -1 - 2 / (s - 1) <= y / (s - 1) * 2 - 1 <= -1 + 2 / (s - 1) /\
  y / (s - 1) * 2 - 1 < y.
Proof.
  intros Hs [H0 H1].
  assert (Hi : 0 < / (s - 1)) by (apply Rinv_0_lt_compat; lra).
  assert (Hi' : / (s - 1) < / 2) by (apply Rinv_lt_contravar; lra).
  unfold Rdiv. split; [split|]; nra.
Qed.

(** X7. The second normalization of the key points. With the depth loss and
    the Retinex pipeline both enabled, the block adds two disparity terms to
    the loss and reports a depth loss of zero. The low-light depth map is
    sampled at the key points normalized to [-1, 1]; for the enhanced depth
    map the normalized points are normalized once more, so that, for an
    image of more than three pixels each way, every key point inside the
    image is sampled within [2 / (size - 1)] of the corner [-1], at a
    position left of and above the one used for the low-light map. *)
Theorem enhanced_depth_grid (c : Config) (scene_scale : R) (width height : nat)
    (points : list (list (R * R))) (depths_gt depths_low depths_enh : Img) (loss : R) :
  depth_loss c = true ->
  enable_retinex c = true ->
  (3 < width)%nat -> (3 < height)%nat ->
  Forall (Forall (fun p : R * R =>
                    0 <= p.1 <= INR width - 1 /\ 0 <= p.2 <= INR height - 1)) points ->
  exists grid_low grid_enh : list (list (R * R)),
    (forall grid_sample : Img -> list (list (R * R)) -> Img,
        depth_block grid_sample c scene_scale width height (Some points)
          (Some depths_gt) (Some depths_low) (Some depths_enh) loss
        = Ok (loss
              + depth_term grid_sample scene_scale depths_low grid_low depths_gt
                * depth_lambda c
              + depth_term grid_sample scene_scale depths_enh grid_enh depths_gt
                * depth_lambda c,
              0)) /\
    Forall (Forall (fun p : R * R => -1 <= p.1 <= 1 /\ -1 <= p.2 <= 1)) grid_low /\
    Forall (Forall (fun p : R * R =>
                      -1 - 2 / (INR width - 1) <= p.1 <= -1 + 2 / (INR width - 1) /\
                      -1 - 2 / (INR height - 1) <= p.2 <= -1 + 2 / (INR height - 1)))
           grid_enh /\
    Forall2 (Forall2 (fun pl pe : R * R => pe.1 < pl.1 /\ pe.2 < pl.2))
            grid_low grid_enh.
Proof.
  intros Hd He Hw Hh Hin.
  assert (Hw' : 3 < INR width).
  { apply (lt_INR 3) in Hw. cbn [INR] in Hw. lra. }
  assert (Hh' : 3 < INR height).
  { apply (lt_INR 3) in Hh. cbn [INR] in Hh. lra. }
  exists (normalize_points width height points),
         (normalize_points width height (normalize_points width height points)).
  assert (Hlow : Forall (Forall (fun p : R * R => -1 <= p.1 <= 1 /\ -1 <= p.2 <= 1))
                        (normalize_points width height points)).
  { unfold normalize_points. apply Forall_fmap. eapply Forall_impl; [exact Hin|].
    intros row Hrow. cbn [compose]. apply Forall_fmap.
    eapply Forall_impl; [exact Hrow|].
    intros [x y] [Hx Hy]. cbn [compose fst snd] in *.
    split; apply normalize_range; lra. }
  split; [|split; [exact Hlow|split]].
  - intros grid_sample. unfold depth_block. rewrite Hd, He. reflexivity.
  - unfold normalize_points at 1. apply Forall_fmap.
    eapply Forall_impl; [exact Hlow|].
    intros row Hrow. cbn [compose]. apply Forall_fmap.
    eapply Forall_impl; [exact Hrow|].
    intros [x y] [Hx Hy]. cbn [compose fst snd] in *.
    split; apply normalize_twice; lra.
  - unfold normalize_points at 2. apply Forall2_fmap_r, Forall_Forall2_diag.
    eapply Forall_impl; [exact Hlow|].
    intros row Hrow. apply Forall2_fmap_r, Forall_Forall2_diag.
    eapply Forall_impl; [exact Hrow|].
    intros [x y] [Hx Hy]. cbn [fst snd] in *.
    split; apply normalize_twice; lra.
Qed.

Lemma enhanced_depth_grid_witness :
  exists grid_low grid_enh : list (list (R * R)),
    depth_block flat_sampler (with_switches false true false false (fun w => w) retinex_cfg)
      1 5 5 (Some corner_points) (Some [[1]]) (Some [[1]]) (Some [[1]]) 0
    = Ok (0
          + depth_term flat_sampler 1 [[1]] grid_low [[1]]
            * depth_lambda (with_switches false true false false (fun w => w) retinex_cfg)
          + depth_term flat_sampler 1 [[1]] grid_enh [[1]]
            * depth_lambda (with_switches false true false false (fun w => w) retinex_cfg),
          0) /\
    Forall2 (Forall2 (fun pl pe : R * R => pe.1 < pl.1 /\ pe.2 < pl.2))
            grid_low grid_enh.
Proof.
  destruct (enhanced_depth_grid
              (with_switches false true false false (fun w => w) retinex_cfg)
              1 5 5 corner_points [[1]] [[1]] [[1]] 0)
    as (gl & ge & Hb & _ & _ & Hlt).
  - reflexivity.
  - reflexivity.
  - lia.
  - lia.
  - repeat constructor; cbn; lra.
  - exists gl, ge. split; [apply Hb|exact Hlt].
Defined.

End DepthFacts.

Module VideoFacts.
Import torch Video Inputs Samples.

Lemma foldl_Rmin_le (t : list R) (x : R) :
  foldl Rmin x t <= x /\ Forall (fun d => foldl Rmin x t <= d) t.
Proof.
  revert x. induction t as [|y t IH]; intros x; cbn [foldl]; [split; [lra|constructor]|].
  destruct (IH (Rmin x y)) as [H1 H2].
  pose proof (Rmin_l x y). pose proof (Rmin_r x y).
  split; [lra|]. constructor; [lra|exact H2].
Qed.

Lemma foldl_Rmax_ge (t : list R) (x : R) :
  x <= foldl Rmax x t /\ Forall (fun d => d <= foldl Rmax x t) t.
Proof.
  revert x. induction t as [|y t IH]; intros x; cbn [foldl]; [split; [lra|constructor]|].
  destruct (IH (Rmax x y)) as [H1 H2].
  pose proof (Rmax_l x y). pose proof (Rmax_r x y).
  split; [lra|]. constructor; [lra|exact H2].
Qed.

(** The extremes of a tensor that is not empty bound its entries. *)
Lemma extremes (t : list R) :
  t <> [] ->
  exists lo hi : R,
    tmin t = Ok lo /\ tmax t = Ok hi /\ Forall (fun d => lo <= d <= hi) t.
Proof.
  destruct t as [|x t]; [done|]. intros _. cbn [tmin tmax].
  eexists _, _. split; [reflexivity|]. split; [reflexivity|].
  destruct (foldl_Rmin_le t x) as [Hx Ht]. destruct (foldl_Rmax_ge t x) as [Hx' Ht'].
  constructor; [lra|].
  apply Forall_and. by split.
Qed.

Lemma Forall_frame_map (P : R -> Prop) (f : R -> R) (a : list (list (list R))) :
  Forall (fun d => P (f d)) (concat (concat a)) ->
  Forall (Forall (Forall P)) (frame_map f a).
Proof.
  unfold frame_map, img_map. induction a as [|row a IH]; cbn [concat map app];
    [constructor|].
  rewrite concat_app, Forall_app. intros [Hrow Ha].
  constructor; [|by apply IH].
  clear IH Ha. induction row as [|px row IH]; cbn [concat map app] in *;
    [constructor|].
  apply Forall_app in Hrow as [Hpx Hrow].
  constructor; [|by apply IH].
  clear IH Hrow. induction Hpx; constructor; assumption.
Qed.

Lemma Forall_rows_app (Q : list R -> Prop) (a b : list (list (list R))) :
  Forall (Forall Q) a -> Forall (Forall Q) b ->
  Forall (Forall Q) (zip_with app a b).
Proof.
  intros Ha. revert b. induction Ha as [|x a Hx Ha IH]; intros b Hb;
    [constructor|].
  destruct Hb as [|y b Hy Hb]; [constructor|].
  cbn [zip_with]. constructor; [by apply Forall_app|by apply IH].
Qed.

(** X8. The frames of the trajectory video. For a rendering that holds a depth
    channel, the canvas is built without an exception - the range of the
    depths is never divided by when it is zero, thanks to the [1e-10] in the
    denominator -, it has the rows of the rendering, and every value on it,
    clamped colour or normalized depth, lies between 0 and 1, so that the
    conversion to bytes cannot overflow. *)
Theorem canvas_traj_range (renders_traj : list (list (list R))) :
  concat (concat (frame_channels 3 4 renders_traj)) <> [] ->
  exists canvas : list (list (list R)),
    canvas_traj renders_traj = Ok canvas /\
    length canvas = length renders_traj /\
    Forall (Forall (Forall (fun x => 0 <= x <= 1))) canvas.
Proof.
  intros Hne. unfold canvas_traj.
  destruct (extremes _ Hne) as (lo & hi & -> & -> & Hb).
  cbn [mbind result_bind fst snd]. eexists. split; [reflexivity|]. split.
  - rewrite length_zip_with. unfold frame_map, frame_channels.
    rewrite !length_map. lia.
  - assert (Hlohi : lo <= hi).
    { destruct (concat (concat (frame_channels 3 4 renders_traj))) as [|d t];
        [done|]. apply Forall_cons in Hb as [Hd _]. lra. }
    apply Forall_rows_app.
    + apply Forall_frame_map, Forall_forall. intros d _.
      apply RetinexFacts.clamp_bounds. lra.
    + apply Forall_fmap. 
      eapply Forall_impl;
        [apply (Forall_frame_map (fun x => 0 <= x <= 1)
                  (fun d => (d - lo) / (hi - lo + 1 / 10 ^ 10)))|].
      * eapply Forall_impl; [exact Hb|]. intros d [Hd1 Hd2]. cbn beta.
        assert (Hden : 0 < hi - lo + 1 / 10 ^ 10) by lra.
        split.
        -- unfold Rdiv at 1. apply Rmult_le_pos; [lra|].
           left. by apply Rinv_0_lt_compat.
        -- apply (Rmult_le_reg_r (hi - lo + 1 / 10 ^ 10)); [exact Hden|].
           unfold Rdiv at 1. rewrite Rmult_assoc, Rinv_l by lra. lra.
      * intros row Hrow. cbn [compose]. apply Forall_fmap.
        eapply Forall_impl; [exact Hrow|]. intros px Hpx. cbn [compose].
        rewrite !Forall_app. auto.
Qed.

Lemma canvas_traj_range_witness :
  exists canvas : list (list (list R)),
    canvas_traj one_pixel_frame = Ok canvas /\
    Forall (Forall (Forall (fun x => 0 <= x <= 1))) canvas.
Proof.
  destruct (canvas_traj_range one_pixel_frame) as (canvas & H & _ & Hr).
  - discriminate.
  - exists canvas. split; [exact H|exact Hr].
Defined.

End VideoFacts.

(* ================================================================== *)
(** * The statistics of an evaluation *)

Module EvaluationFacts.
Import torch Raster Evaluation Inputs Samples.

Lemma append_lookup_eq (k : string) (v : R) (m : gmap string (list R)) :
  append k v m !! k = Some (default [] (m !! k) ++ [v]).
Proof. unfold append. by rewrite lookup_insert_eq. Qed.

Lemma append_lookup_ne (k k' : string) (v : R) (m : gmap string (list R)) :
  k <> k' -> append k v m !! k' = m !! k'.
Proof. intros H. unfold append. by rewrite lookup_insert_ne. Qed.

Ltac peel_appends :=
  repeat first [rewrite append_lookup_ne by discriminate | rewrite append_lookup_eq].

Lemma foldl_time_ge {Info : Type} (samples : list (Sample Info)) (a : R) :
  a + INR (length samples) * (1 / 10 ^ 10)
  <= foldl (fun total s => total + Rmax (elapsed s) (1 / 10 ^ 10)) a samples.
Proof.
  revert a. induction samples as [|s samples IH]; intros a.
  - cbn. lra.
  - cbn [foldl]. change (length (s :: samples)) with (S (length samples)).
    rewrite S_INR.
    pose proof (IH (a + Rmax (elapsed s) (1 / 10 ^ 10))).
    pose proof (Rmax_r (elapsed s) (1 / 10 ^ 10)). lra.
Qed.

Section Facts.

Variable Info : Type.
Variable psnr : Img -> Img -> R.
Variable ssim : Img -> Img -> R.
Variable lpips : Img -> Img -> R.
Variable niqe_metric : option (Img -> R).
Variable color_correct : Img -> Img -> Img.
Variable eval_niqe : bool.

Abbreviation metrics_after c samples m :=
  (foldl (fun metrics s =>
            image_metrics psnr ssim lpips niqe_metric color_correct eval_niqe c s
              metrics) m samples).

(** One pass appends one value to each of the three basic metrics, and
    one to each metric of the enhanced rendering if and only if the Retinex
    pipeline is enabled. *)
Lemma image_metrics_lookup (c : Config) (s : Sample Info) (m : gmap string (list R)) :
  let m' := image_metrics psnr ssim lpips niqe_metric color_correct eval_niqe c s m in
  m' !! "psnr"%string
  = Some (default [] (m !! "psnr"%string) ++ [psnr (colors_low_of s) (pixels s)]) /\
  m' !! "ssim"%string
  = Some (default [] (m !! "ssim"%string) ++ [ssim (colors_low_of s) (pixels s)]) /\
  m' !! "lpips"%string
  = Some (default [] (m !! "lpips"%string) ++ [lpips (colors_low_of s) (pixels s)]) /\
  m' !! "psnr_enh"%string
  = (if enable_retinex c
     then Some (default [] (m !! "psnr_enh"%string)
                ++ [psnr (colors_enh_of s) (pixels s)])
     else m !! "psnr_enh"%string).
Proof.
  unfold image_metrics, colors_low_of, colors_enh_of.
  destruct (eval_unpack (out s)) as [[[[ce cl] ae] al] info]. cbn [fst snd].
  destruct (if eval_niqe then niqe_metric else None) as [niqe|];
    destruct (enable_retinex c); destruct (use_bilateral_grid c);
    cbv zeta; repeat split; peel_appends; reflexivity.
Qed.

Lemma metrics_after_lookup (c : Config) (samples : list (Sample Info))
    (m : gmap string (list R)) :
  samples <> [] ->
  metrics_after c samples m !! "psnr"%string
  = Some (default [] (m !! "psnr"%string)
          ++ map (fun s => psnr (colors_low_of s) (pixels s)) samples) /\
  metrics_after c samples m !! "ssim"%string
  = Some (default [] (m !! "ssim"%string)
          ++ map (fun s => ssim (colors_low_of s) (pixels s)) samples) /\
  metrics_after c samples m !! "lpips"%string
  = Some (default [] (m !! "lpips"%string)
          ++ map (fun s => lpips (colors_low_of s) (pixels s)) samples) /\
  metrics_after c samples m !! "psnr_enh"%string
  = (if enable_retinex c
     then Some (default [] (m !! "psnr_enh"%string)
                ++ map (fun s => psnr (colors_enh_of s) (pixels s)) samples)
     else m !! "psnr_enh"%string).
Proof.
  revert m. induction samples as [|s samples IH]; intros m Hne; [done|].
  cbn [foldl map].
  destruct (image_metrics_lookup c s m) as (H1 & H2 & H3 & H4).
  destruct samples as [|s' samples].
  - cbn [foldl map]. rewrite H1, H2, H3, H4. repeat split; try reflexivity.
  - destruct (IH (image_metrics psnr ssim lpips niqe_metric color_correct eval_niqe
                    c s m) ltac:(discriminate)) as (I1 & I2 & I3 & I4).
    rewrite I1, I2, I3, I4, H1, H2, H3, H4.
    destruct (enable_retinex c); repeat split; cbn [from_option];
      unfold Datatypes.id; rewrite <- ?app_assoc; reflexivity.
Qed.

(** X9. The statistics that the evaluation reports. On the worker of rank zero
    and for a validation set that is not empty, the raw list of each of
    PSNR, SSIM and LPIPS holds one value per validation image, in the order
    of the images, computed on the clamped low-light rendering against the
    ground truth; the reported statistic is their arithmetic mean. The
    metrics of the enhanced rendering are reported if and only if the
    Retinex pipeline is enabled. *)
Theorem eval_statistics (c : Config) (num_GS : nat) (total_time : R)
    (samples : list (Sample Info)) :
  samples <> [] ->
  exists (stats : gmap string R) (raw : gmap string (list R)),
    eval psnr ssim lpips niqe_metric color_correct eval_niqe 0 c num_GS total_time
      samples = Some (stats, raw) /\
    raw !! "psnr"%string
    = Some (map (fun s => psnr (colors_low_of s) (pixels s)) samples) /\
    raw !! "ssim"%string
    = Some (map (fun s => ssim (colors_low_of s) (pixels s)) samples) /\
    raw !! "lpips"%string
    = Some (map (fun s => lpips (colors_low_of s) (pixels s)) samples) /\
    stats !! "psnr"%string
    = Some (vsum (map (fun s => psnr (colors_low_of s) (pixels s)) samples)
            / INR (length samples)) /\
    stats !! "ssim"%string
    = Some (vsum (map (fun s => ssim (colors_low_of s) (pixels s)) samples)
            / INR (length samples)) /\
    stats !! "lpips"%string
    = Some (vsum (map (fun s => lpips (colors_low_of s) (pixels s)) samples)
            / INR (length samples)) /\
    (is_Some (raw !! "psnr_enh"%string) <-> enable_retinex c = true) /\
    (is_Some (stats !! "psnr_enh"%string) <-> enable_retinex c = true).
Proof.
  intros Hne. eexists _, _. split; [reflexivity|].
  unfold raw_metrics, stats_eval, metrics_of.
  destruct (metrics_after_lookup c samples ∅ Hne) as (H1 & H2 & H3 & H4).
  rewrite lookup_empty in H1, H2, H3, H4. cbn [from_option app] in H1, H2, H3, H4. unfold Datatypes.id in H1, H2, H3, H4.
  assert (Hmean : forall f : Sample Info -> R,
             mean_item (map f samples) = vsum (map f samples) / INR (length samples)).
  { intros f. destruct samples as [|s samples]; [done|].
    cbn [map mean_item]. by rewrite !length_cons, length_map. }
  rewrite !lookup_insert_ne by discriminate. rewrite !lookup_fmap.
  rewrite H1, H2, H3, H4. cbn [fmap option_fmap option_map]. rewrite !Hmean.
  repeat split; try reflexivity.
  all: destruct (enable_retinex c); cbn [fmap option_fmap option_map];
    try (intros; reflexivity); try (intros; eexists; reflexivity);
    try (intros [x Hx]; discriminate Hx); try discriminate.
Qed.


End Facts.

Lemma eval_statistics_witness :
  exists (stats : gmap string R) (raw : gmap string (list R)),
    eval distance distance distance None (fun a _ => a) false 0 plain_cfg 4 1
      [white_sample; white_sample] = Some (stats, raw) /\
    stats !! "psnr"%string
    = Some (vsum (map (fun s => distance (colors_low_of s) (pixels s))
                      [white_sample; white_sample])
            / INR 2).
Proof.
  destruct (eval_statistics unit distance distance distance None (fun a _ => a) false
              plain_cfg 4 1 [white_sample; white_sample])
    as (stats & raw & H & _ & _ & _ & Hp & _).
  - discriminate.
  - exists stats, raw. split; [exact H|exact Hp].
Defined.

End EvaluationFacts.

(* ================================================================== *)
(** * Resuming from checkpoints *)

Module MainFacts.
Import Scene Orchestrator Main Inputs Samples.

Lemma mapM_Ok {A B : Type} (f : A -> Result B) (l : list A) (k : list B) :
  mapM f l = Ok k <-> Forall2 (fun x y => f x = Ok y) l k.
Proof.
  revert k. induction l as [|x l IH]; intros k; cbn [mapM].
  - split; [intros [= <-]; constructor|intros H; by inversion H].
  - split.
    + destruct (f x) as [y|e] eqn:Ef; [|discriminate]. cbn [mbind result_bind].
      destruct (mapM f l) as [k'|e] eqn:El; [|discriminate].
      cbn [mbind result_bind]. intros [= <-]. constructor; [exact Ef|by apply IH].
    + intros H. inversion H as [|? y ? k' Hf Hl]; subst.
      rewrite Hf. cbn [mbind result_bind]. apply IH in Hl. rewrite Hl. reflexivity.
Qed.

(** The join of tensors that agree beyond their first dimension. *)
Lemma cat_fold (dims : list nat) (rows : list nat) (a : nat) :
  foldl (fun acc s' =>
           acc ← acc;
           match acc, s' with
           | n :: dims0, n' :: dims' =>
               if bool_decide (dims0 = dims')
               then Ok ((n + n')%nat :: dims0)
               else Raise (RuntimeError
                             "Sizes of tensors must match except in dimension 0")
           | _, _ =>
               Raise (RuntimeError "zero-dimensional tensor cannot be concatenated")
           end)
        (Ok (a :: dims))
        (filter (fun s => s <> [0%nat]) (map (fun n => n :: dims) rows))
  = Ok ((a + sum_list rows)%nat :: dims).
Proof.
  revert a. induction rows as [|n rows IH]; intros a.
  - cbn. by rewrite Nat.add_0_r.
  - cbn [map sum_list]. rewrite filter_cons.
    destruct (decide (n :: dims <> [0%nat])) as [Hkeep|Hskip].
    + cbn [foldl mbind result_bind]. rewrite bool_decide_eq_true_2 by reflexivity.
      rewrite IH. by rewrite Nat.add_assoc.
    + apply dec_stable in Hskip. injection Hskip as -> ->.
      rewrite IH. by rewrite Nat.add_0_l.
Qed.

Lemma cat_shapes_rows (dims : list nat) (rows : list nat) :
  rows <> [] ->
  cat_shapes (map (fun n => n :: dims) rows) = Ok (sum_list rows :: dims).
Proof.
  intros Hne. unfold cat_shapes.
  destruct (map (fun n => n :: dims) rows) as [|s0 ss0] eqn:Emap;
    [by destruct rows|]. rewrite <- Emap. clear s0 ss0 Emap.
  induction rows as [|n rows IH]; [done|]. clear Hne.
  cbn [map sum_list]. rewrite filter_cons.
  destruct (decide (n :: dims <> [0%nat])) as [Hkeep|Hskip].
  - apply cat_fold.
  - apply dec_stable in Hskip. injection Hskip as -> ->.
    destruct rows as [|m rows]; [reflexivity|].
    rewrite IH by discriminate. reflexivity.
Qed.

(** An entry of the joined state: every group of the runner gets the join of
    the checkpoints' tensors of that group. *)
Lemma cat_splats_lookup (own : gmap string (list nat)) (ckpts : list Checkpoint)
    (joined : gmap string (list nat)) (k : string) :
  cat_splats own ckpts = Ok joined ->
  is_Some (own !! k) ->
  exists tensors data : _,
    mapM (fun c => Raster.getitem _ (ck_splats c) k) ckpts = Ok tensors /\
    cat_shapes tensors = Ok data /\
    joined !! k = Some data.
Proof.
  unfold cat_splats. intros H [s Hs].
  destruct (mapM _ (map_to_list own)) as [l|e] eqn:El; [|discriminate].
  cbn [mbind result_bind] in H. injection H as <-.
  apply mapM_Ok in El.
  assert (Hfst : l.*1 = (map_to_list own).*1).
  { clear Hs. induction El as [|kv j kvs js Hj _ IH]; [reflexivity|].
    cbn [fmap list_fmap]. rewrite IH. f_equal.
    destruct (mapM _ ckpts) as [t|e]; [|discriminate]. cbn [mbind result_bind] in Hj.
    destruct (cat_shapes t); [|discriminate]. cbn [mbind result_bind] in Hj.
    by injection Hj as <-. }
  apply elem_of_map_to_list in Hs.
  apply list_elem_of_lookup in Hs as [i Hi].
  destruct (Forall2_lookup_l _ _ _ _ _ El Hi) as (j & Hj & Hf).
  cbn [fst] in Hf.
  destruct (mapM _ ckpts) as [t|e]; [|discriminate]. cbn [mbind result_bind] in Hf.
  destruct (cat_shapes t) as [data|e] eqn:Ecat; [|discriminate].
  cbn [mbind result_bind] in Hf. injection Hf as <-.
  exists t, data. split; [reflexivity|]. split; [exact Ecat|].
  apply elem_of_list_to_map_1.
  - rewrite Hfst. apply NoDup_fst_map_to_list.
  - by eapply list_elem_of_lookup_2.
Qed.

(** What the construction of a runner leaves in its scene state: no group
    is a scalar. *)
Lemma fresh_shapes
    (check_sanity :
       Strategy -> gmap string (list nat) -> gmap string Optimizer -> Result unit)
    (parser : Parser) (wr ws : nat) (c : Config) (r0 : Runner) :
  Runner_init check_sanity parser wr ws c = Ok r0 ->
  map_Forall (fun _ s => s <> []) (splats r0).
Proof.
  intros Hinit.
  destruct (ScheduleFacts.Runner_init_Ok _ _ _ _ _ _ Hinit) as (_ & _ & _ & Hc & _).
  destruct (SceneFacts.create_Ok _ _ _ _ Hc) as (N & -> & _).
  unfold dict_of, sh_params. cbn [map foldl fst snd].
  repeat (apply map_Forall_insert_2; [discriminate|]). apply map_Forall_empty.
Qed.

Lemma load_state_dict_Ok (own sd loaded : gmap string (list nat)) :
  map_Forall (fun _ s => s <> []) own ->
  load_state_dict own sd = Ok loaded ->
  loaded = own /\ sd = own.
Proof.
  intros Hne. unfold load_state_dict.
  destruct (bool_decide (map_Exists _ own)); [discriminate|].
  destruct (bool_decide (dom sd = dom own)) eqn:Edom; [|discriminate].
  destruct (bool_decide (map_Forall _ own)) eqn:Eall; [|discriminate].
  cbn [andb]. intros [= <-]. split; [reflexivity|].
  apply bool_decide_eq_true in Edom. apply bool_decide_eq_true in Eall.
  apply map_eq. intros k.
  destruct (own !! k) as [p|] eqn:Ek.
  - specialize (Eall k p Ek). specialize (Hne k p Ek). cbn beta in Eall, Hne.
    unfold accepts in Eall. destruct (sd !! k) as [i|]; [|discriminate].
    unfold size_ok in Eall.
    destruct p as [|n p]; [done|].
    apply bool_decide_eq_true in Eall. by rewrite Eall.
  - apply not_elem_of_dom. rewrite Edom. by apply not_elem_of_dom.
Qed.

Section Entry.

Variable check_sanity :
  Strategy -> gmap string (list nat) -> gmap string Optimizer -> Result unit.

(** The runs of [main] on a list of loaded checkpoints that is not empty. *)
Lemma main_resume (parser : Parser) (wr ws : nat) (c : Config) (dv dv' : bool)
    (first : Checkpoint) (rest : list Checkpoint) (d : Data) (r : Runner)
    (w : list File) (e : option Exn) :
  main check_sanity parser wr ws c dv (Some (first :: rest)) d = Ok (dv', r, (w, e)) ->
  exists r0 : Runner,
    Runner_init check_sanity parser wr ws c = Ok r0 /\
    load_checkpoints r0 (first :: rest) = Ok r /\
    ((exists x : Exn,
         render_traj r d (ck_step first) = Raise x /\
         w = eval_writes r d (ck_step first) "val" /\ e = Some x) \/
     (exists rendered : list File,
         render_traj r d (ck_step first) = Ok rendered /\
         w = eval_writes r d (ck_step first) "val" ++ rendered
             ++ (if bool_decide (compression c <> None)
                 then run_compression_writes r d (ck_step first) else []) /\
         e = None)).
Proof.
  unfold main.
  destruct (Runner_init check_sanity parser wr ws c) as [r0|x]; [|discriminate].
  cbn [mbind result_bind].
  destruct (load_checkpoints r0 (first :: rest)) as [r1|x] eqn:El; [|discriminate].
  cbn [mbind result_bind].
  destruct (render_traj r1 d (ck_step first)) as [rendered|x] eqn:Et.
  - intros [= <- <- <- <-]. exists r0. split; [reflexivity|]. split; [exact El|].
    right. exists rendered. by repeat split.
  - intros [= <- <- <- <-]. exists r0. split; [reflexivity|]. split; [exact El|].
    left. exists x. by repeat split.
Qed.

End Entry.

Lemma eval_writes_not_train (r : Runner) (d : Data) (step : Z) (stage : string) :
  String.eqb stage "train" = false ->
  String.eqb stage "retinex_net" = false ->
  Forall (fun f => written_by_train f = false) (eval_writes r d step stage).
Proof.
  intros H1 H2. unfold eval_writes. apply Forall_app. split.
  - induction (seq 0 (n_val d)) as [|i l IH]; [constructor|].
    cbn [flat_map]. apply Forall_app. split; [|exact IH].
    destruct (world_rank r =? 0)%nat; [|constructor].
    destruct (enable_retinex (cfg r)); repeat constructor.
  - destruct (world_rank r =? 0)%nat; [|constructor].
    repeat constructor. cbn [written_by_train]. by rewrite H1, H2.
Qed.

(** X11. Resuming never trains. Called with a list of checkpoints, [main] writes
    no file of the training loop - no configuration dump, training record,
    statistics of a save step, checkpoint or point cloud -, only what the
    evaluation, the trajectory rendering and the compression of the loaded
    scene write; and with an empty list of checkpoints it builds the runner
    and then writes nothing at all: it neither trains nor evaluates. *)
Theorem resume_never_trains
    (check_sanity :
       Strategy -> gmap string (list nat) -> gmap string Optimizer -> Result unit)
    (parser : Parser) (wr ws : nat) (c : Config) (dv dv' : bool)
    (ckpts : list Checkpoint) (d : Data) (r : Runner)
    (w : list File) (e : option Exn) :
  main check_sanity parser wr ws c dv (Some ckpts) d = Ok (dv', r, (w, e)) ->
  Forall (fun f => written_by_train f = false) w /\
  (ckpts = [] -> w = [] /\ e = None).
Proof.
  destruct ckpts as [|first rest].
  - unfold main.
    destruct (Runner_init check_sanity parser wr ws c) as [r0|x]; [|discriminate].
    cbn [mbind result_bind]. intros [= <- <- <- <-]. by repeat split.
  - intros H. split; [|discriminate].
    destruct (main_resume _ _ _ _ _ _ _ _ _ _ _ _ _ H)
      as (r0 & _ & _ & [(x & _ & -> & _)|(rendered & Ht & -> & _)]).
    + by apply eval_writes_not_train.
    + rewrite !Forall_app. split; [by apply eval_writes_not_train|]. split.
      * unfold render_traj in Ht.
        destruct (disable_video (cfg r)); [injection Ht as <-; constructor|].
        destruct (negb (world_rank r =? 0)%nat); [injection Ht as <-; constructor|].
        destruct (n_camtoworlds d =? 0)%nat; [injection Ht as <-; constructor|].
        destruct (if String.eqb (render_traj_path (cfg r)) "interp" then Ok tt
                  else if String.eqb (render_traj_path (cfg r)) "ellipse" then Ok tt
                  else if String.eqb (render_traj_path (cfg r)) "spiral" then Ok tt
                  else Raise _) as [[]|x]; [|discriminate].
        cbn [mbind result_bind] in Ht.
        destruct (negb (has_Ks d)); injection Ht as <-; repeat constructor.
      * destruct (bool_decide (compression c <> None)); [|constructor].
        unfold run_compression_writes. destruct (compression_method r); [|constructor].
        constructor; [reflexivity|]. by apply eval_writes_not_train.
Qed.

Lemma resume_never_trains_witness :
  exists (dv' : bool) (r : Runner) (w : list File) (e : option Exn),
    main sane demo_parser 0 1 plain_cfg false (Some [demo_ckpt 4]) demo_data
    = Ok (dv', r, (w, e)) /\
    Forall (fun f => written_by_train f = false) w.
Proof.
  eexists _, _, _, _. split; [reflexivity|].
  refine (proj1 (resume_never_trains sane demo_parser 0 1 plain_cfg false _
                   [demo_ckpt 4] demo_data _ _ _ eq_refl)).
Defined.

(** X12. Resuming several workers from several checkpoints. When more than one
    checkpoint is given and there is more than one worker, every group of
    the scene state of every worker becomes the join of that group over all
    the checkpoints: its number of rows is the sum of theirs, whatever the
    worker's own share was - in particular the number of Gaussians of the
    resumed runner is the sum of the checkpoints' numbers. *)
Theorem resume_concatenates
    (check_sanity :
       Strategy -> gmap string (list nat) -> gmap string Optimizer -> Result unit)
    (parser : Parser) (wr ws : nat) (c : Config) (dv dv' : bool)
    (ckpts : list Checkpoint) (d : Data) (r0 r : Runner)
    (out : list File * option Exn) :
  Runner_init check_sanity parser wr ws c = Ok r0 ->
  main check_sanity parser wr ws c dv (Some ckpts) d = Ok (dv', r, out) ->
  (1 < length ckpts)%nat ->
  (1 < ws)%nat ->
  forall (k : string) (rows dims : list nat),
    is_Some (splats r0 !! k) ->
    Forall2 (fun ck n => ck_splats ck !! k = Some (n :: dims)) ckpts rows ->
    splats r !! k = Some (sum_list rows :: dims).
Proof.
  intros Hinit Hmain Hlen Hws k rows dims Hk Hrows.
  destruct ckpts as [|first rest]; [cbn in Hlen; lia|].
  destruct out as [w e].
  destruct (main_resume _ _ _ _ _ _ _ _ _ _ _ _ _ Hmain) as (r0' & Hinit' & Hload & _).
  rewrite Hinit in Hinit'. injection Hinit' as <-.
  destruct (ScheduleFacts.Runner_init_Ok _ _ _ _ _ _ Hinit) as (_ & _ & Hsize & _).
  unfold load_checkpoints in Hload. rewrite Hsize in Hload.
  rewrite (proj2 (Nat.ltb_lt _ _) Hlen), (proj2 (Nat.ltb_lt _ _) Hws) in Hload.
  cbn [andb] in Hload.
  destruct (cat_splats (splats r0) (first :: rest)) as [joined|x] eqn:Ecat;
    [|discriminate].
  cbn [mbind result_bind] in Hload. injection Hload as <-. cbn [splats with_splats].
  destruct (cat_splats_lookup _ _ _ k Ecat Hk) as (tensors & data & Ht & Hd & ->).
  f_equal.
  assert (Htensors : tensors = map (fun n => n :: dims) rows).
  { apply mapM_Ok in Ht. clear -Ht Hrows.
    revert tensors Ht. induction Hrows as [|ck n cks ns Hck _ IH]; intros tensors Ht.
    - by inversion Ht.
    - inversion Ht as [|? t ? ts Hget Hts]; subst. cbn [map]. f_equal; [|by apply IH].
      unfold Raster.getitem in Hget. rewrite Hck in Hget. by injection Hget as <-. }
  subst tensors. rewrite cat_shapes_rows in Hd; [by injection Hd as <-|].
  destruct Hrows; discriminate.
Qed.

Lemma resume_concatenates_witness :
  exists (dv' : bool) (r : Runner) (out : list File * option Exn),
    main sane demo_parser 0 2 plain_cfg false (Some [demo_ckpt 5; demo_ckpt 6])
      demo_data = Ok (dv', r, out) /\
    splats r !! "means"%string = Some [11; 3]%nat.
Proof.
  eexists _, _, _. split; [reflexivity|].
  refine (resume_concatenates sane demo_parser 0 2 plain_cfg false _
            [demo_ckpt 5; demo_ckpt 6] demo_data _ _ _ eq_refl eq_refl _ _
            "means" [5; 6]%nat [3%nat] _ _).
  - cbn. lia.
  - lia.
  - eexists. reflexivity.
  - repeat constructor.
Defined.

(** X13. Resuming from one checkpoint, or on one worker. Then the state of the
    first checkpoint is loaded with [load_state_dict], which is strict: the
    call returns only if the checkpoint holds exactly the groups of the
    freshly built scene, each with exactly its shape. So the resumed runner
    has as many Gaussians as the fresh one, and a checkpoint whose number
    of Gaussians differs from that of the fresh scene - as after
    densification or pruning - cannot be resumed this way; the further
    checkpoints of the list are not looked at. *)
Theorem resume_single_strict
    (check_sanity :
       Strategy -> gmap string (list nat) -> gmap string Optimizer -> Result unit)
    (parser : Parser) (wr ws : nat) (c : Config) (dv dv' : bool)
    (first : Checkpoint) (rest : list Checkpoint) (d : Data) (r0 r : Runner)
    (out : list File * option Exn) :
  Runner_init check_sanity parser wr ws c = Ok r0 ->
  main check_sanity parser wr ws c dv (Some (first :: rest)) d = Ok (dv', r, out) ->
  rest = [] \/ (ws <= 1)%nat ->
  ck_splats first = splats r0 /\ splats r = splats r0.
Proof.
  intros Hinit Hmain Hone. destruct out as [w e].
  destruct (main_resume _ _ _ _ _ _ _ _ _ _ _ _ _ Hmain) as (r0' & Hinit' & Hload & _).
  rewrite Hinit in Hinit'. injection Hinit' as <-.
  destruct (ScheduleFacts.Runner_init_Ok _ _ _ _ _ _ Hinit) as (_ & _ & Hsize & _).
  unfold load_checkpoints in Hload. rewrite Hsize in Hload.
  assert (Hbranch : (1 <? length (first :: rest))%nat && (1 <? ws)%nat = false).
  { destruct Hone as [-> | Hws]; [reflexivity|].
    rewrite (proj2 (Nat.ltb_ge _ _) Hws). apply andb_false_r. }
  rewrite Hbranch in Hload.
  destruct (load_state_dict (splats r0) (ck_splats first)) as [loaded|x] eqn:El;
    [|discriminate].
  cbn [mbind result_bind] in Hload. injection Hload as <-. cbn [splats with_splats].
  destruct (load_state_dict_Ok _ _ _ (fresh_shapes _ _ _ _ _ _ Hinit) El) as [-> ->].
  by split.
Qed.

Lemma resume_single_strict_witness :
  exists (dv' : bool) (r0 r : Runner) (out : list File * option Exn),
    Runner_init sane demo_parser 0 1 plain_cfg = Ok r0 /\
    main sane demo_parser 0 1 plain_cfg false (Some [demo_ckpt 4]) demo_data
    = Ok (dv', r, out) /\
    ck_splats (demo_ckpt 4) = splats r0.
Proof.
  eexists _, _, _, _. split; [reflexivity|]. split; [reflexivity|].
  refine (proj1 (resume_single_strict sane demo_parser 0 1 plain_cfg false _
                   (demo_ckpt 4) [] demo_data _ _ _ eq_refl eq_refl _)).
  by left.
Defined.

End MainFacts.

(* ================================================================== *)
(** * When the loop evaluates and saves, and whose file is whose *)

Module LoopFacts.
Import Scene Orchestrator Inputs Samples.

(** [step in [i - 1 for i in steps]]: the listed steps count from one. *)
Lemma step_in_spec (step : Z) (steps : list Z) :
  step_in step steps = true <-> In (step + 1)%Z steps.
Proof.
  unfold step_in. rewrite existsb_exists. split.
  - intros (x & Hx & Heq). apply in_map_iff in Hx as (i & <- & Hi).
    apply Z.eqb_eq in Heq. by replace (step + 1)%Z with i by lia.
  - intros H. exists step. split; [|apply Z.eqb_refl].
    apply in_map_iff. exists (step + 1)%Z. split; [lia|exact H].
Qed.

Ltac case_if :=
  match goal with |- context [if ?b then _ else _] => destruct b end.

Lemma in_eval_writes (r : Runner) (d : Data) (step : Z) (stage : string) (f : File) :
  In f (eval_writes r d step stage) ->
  world_rank r = 0%nat /\
  match f with
  | RenderPng s _ _ _ | EvalStatsJson s _ | EvalRawJson s _ | TensorboardEvents s =>
      s = stage
  | _ => False
  end.
Proof.
  unfold eval_writes. rewrite in_app_iff, in_flat_map.
  destruct (world_rank r =? 0)%nat eqn:E.
  - apply Nat.eqb_eq in E. intros H. split; [exact E|].
    destruct H as [(i & _ & H)|H].
    + apply in_app_iff in H as [H|H].
      * destruct H as [<-|[<-|[]]]; reflexivity.
      * destruct (enable_retinex (cfg r)); [|destruct H].
        destruct H as [<-|[<-|[]]]; reflexivity.
    + destruct H as [<-|[<-|[<-|[]]]]; reflexivity.
  - intros [(i & _ & [])|[]].
Qed.

Lemma in_render_traj (r : Runner) (d : Data) (step : Z) (w : list File) (f : File) :
  render_traj r d step = Ok w -> In f w ->
  world_rank r = 0%nat /\
  (f = TrajVideo step \/ f = TensorboardEvents "render_traj").
Proof.
  unfold render_traj.
  destruct (disable_video (cfg r)); [by intros [= <-] []|].
  destruct (world_rank r =? 0)%nat eqn:E; cbn [negb]; [|by intros [= <-] []].
  apply Nat.eqb_eq in E.
  destruct (n_camtoworlds d =? 0)%nat; [by intros [= <-] []|].
  destruct (if String.eqb (render_traj_path (cfg r)) "interp" then Ok tt
            else if String.eqb (render_traj_path (cfg r)) "ellipse" then Ok tt
            else if String.eqb (render_traj_path (cfg r)) "spiral" then Ok tt
            else Raise _) as [[]|x]; [|discriminate].
  cbn [mbind result_bind].
  destruct (negb (has_Ks d)); [by intros [= <-] []|].
  intros [= <-] [<-|[<-|[]]]; split; auto.
Qed.

(** The stages of one iteration, by the files they may write. *)
Lemma in_train_step_writes (r : Runner) (d : Data) (step : Z) (f : File) :
  In f (train_step_writes r d step).1 ->
  (f = TensorboardEvents "train" /\ world_rank r = 0%nat /\
   (0 <? tb_every (cfg r))%Z = true) \/
  ((f = TrainStatsJson step (world_rank r) \/ f = CheckpointPt step (world_rank r)) /\
   step_in step (save_steps (cfg r)) || (step =? max_steps (cfg r) - 1)%Z = true) \/
  f = PointCloudPly step \/
  (In f (eval_writes r d step "val") /\ step_in step (eval_steps (cfg r)) = true) \/
  (world_rank r = 0%nat /\
   (f = TrajVideo step \/ f = TensorboardEvents "render_traj")) \/
  f = CompressedSplats (world_rank r) \/
  In f (eval_writes r d step "compress").
Proof.
  unfold train_step_writes.
  set (logged := if _ && _ && _ then [TensorboardEvents "train"] else []).
  set (saved := if _ || _ then _ else []).
  set (exported := if _ && _ then [PointCloudPly step] else []).
  set (evaluated := if step_in step (eval_steps (cfg r)) then _ else []).
  assert (Hlogged : In f logged ->
                    f = TensorboardEvents "train" /\ world_rank r = 0%nat /\
                    (0 <? tb_every (cfg r))%Z = true).
  { unfold logged. destruct (world_rank r =? 0)%nat eqn:E; cbn [andb]; [|intros []].
    apply Nat.eqb_eq in E.
    destruct (0 <? tb_every (cfg r))%Z; cbn [andb]; [|intros []].
    case_if; [|intros []]. intros [<-|[]]. by repeat split. }
  assert (Hsaved : In f saved ->
                   (f = TrainStatsJson step (world_rank r)
                    \/ f = CheckpointPt step (world_rank r)) /\
                   step_in step (save_steps (cfg r))
                   || (step =? max_steps (cfg r) - 1)%Z = true).
  { unfold saved. destruct (_ || _); [|intros []].
    intros [<-|[<-|[]]]; split; auto. }
  assert (Hexported : In f exported -> f = PointCloudPly step).
  { unfold exported. case_if; [|intros []]. by intros [<-|[]]. }
  assert (Hevaluated : In f evaluated ->
                       In f (eval_writes r d step "val") /\
                       step_in step (eval_steps (cfg r)) = true).
  { unfold evaluated. destruct (step_in step (eval_steps (cfg r))); [|intros []].
    by split. }
  destruct (if step_in step (eval_steps (cfg r)) then render_traj r d step else Ok [])
    as [rendered|x] eqn:Et; cbn [fst]; rewrite !in_app_iff.
  - intros [H|[H|[H|[H|[H|H]]]]]; auto 10.
    + destruct (step_in step (eval_steps (cfg r))); [|injection Et as <-; destruct H].
      right; right; right; right; left. by eapply in_render_traj.
    + match type of H with context [if ?b then _ else _] => destruct b end;
        [|destruct H].
      unfold run_compression_writes in H.
      destruct (compression_method r); [|destruct H].
      destruct H as [<-|H]; auto 10.
  - intros [H|[H|[H|H]]]; auto 10.
Qed.


Lemma loop_writes_includes (r : Runner) (d : Data) (steps : list Z) (w : list File)
    (step : Z) (f : File) :
  loop_writes r d steps = (w, None) ->
  In step steps ->
  In f (train_step_writes r d step).1 -> In f w.
Proof.
  revert w. induction steps as [|s steps IH]; intros w Hw Hs Hf; [destruct Hs|].
  cbn [loop_writes] in Hw.
  destruct (train_step_writes r d s) as [ws [x|]] eqn:Es; [discriminate|].
  destruct (loop_writes r d steps) as [w' x'] eqn:El.
  injection Hw as <- ->. apply in_app_iff.
  destruct Hs as [->|Hs].
  - left. by rewrite Es in Hf.
  - right. by apply IH.
Qed.

(** X15. A run that ends leaves a checkpoint. If [train] runs through its
    [max_steps > 0] iterations without an exception, then every worker has
    written the training statistics and the checkpoint of the last step,
    [max_steps - 1], under its own rank, whether or not a save step is
    configured. *)
Theorem final_checkpoint (r : Runner) (d : Data) (w : list File) :
  (0 < max_steps (cfg r))%Z ->
  train_writes r d = (w, None) ->
  In (TrainStatsJson (max_steps (cfg r) - 1) (world_rank r)) w /\
  In (CheckpointPt (max_steps (cfg r) - 1) (world_rank r)) w.
Proof.
  intros Hmax. unfold train_writes.
  destruct (pretrain_writes r) as [w0 [x|]]; [discriminate|].
  destruct (loop_writes r d (seqZ 0 (max_steps (cfg r)))) as [wl x] eqn:El.
  intros [= <- ->].
  assert (Hlast : In (max_steps (cfg r) - 1)%Z (seqZ 0 (max_steps (cfg r)))).
  { apply list_elem_of_In, elem_of_seqZ. lia. }
  destruct (WriteFacts.save_step_writes r d (max_steps (cfg r) - 1))
    as [Hs Hc]; [by right|].
  split; rewrite !in_app_iff; right; right;
    eapply loop_writes_includes; eauto.
Qed.

Lemma final_checkpoint_witness :
  exists w : list File,
    train_writes (demo_runner 1 plain_cfg) demo_data = (w, None) /\
    In (CheckpointPt 2 1) w.
Proof.
  eexists. split; [vm_compute; reflexivity|].
  refine (proj2 (final_checkpoint (demo_runner 1 plain_cfg) demo_data _ _ _)).
  - reflexivity.
  - vm_compute. reflexivity.
Defined.

(** What a file tells about its writer. *)
Lemma file_owner (r : Runner) (d : Data) (step : Z) (f : File) :
  In f (train_step_writes r d step).1 ->
  match f with
  | TrainStatsJson _ k | CheckpointPt _ k | CompressedSplats k => k = world_rank r
  | PointCloudPly s => s = step
  | _ => world_rank r = 0%nat
  end.
Proof.
  intros H. apply in_train_step_writes in H.
  destruct H as [[-> [H _]]|[[[->| ->] _]|[->|[[H _]|[[H [->| ->]]|[->|H]]]]]];
    try reflexivity; try exact H.
  all: apply in_eval_writes in H as [Hr H]; destruct f; try destruct H; exact Hr.
Qed.

(** X16. No two workers write the same file, but for the point cloud. A file
    that two workers of different rank both write in an iteration of the main
    loop is the export [point_cloud_{step}.ply]: its name carries no rank,
    every other file is either written by the worker of rank zero alone or
    named after the rank of its writer. *)
Theorem shared_file_is_point_cloud (r1 r2 : Runner) (d : Data) (step : Z) (f : File) :
  world_rank r1 <> world_rank r2 ->
  In f (train_step_writes r1 d step).1 ->
  In f (train_step_writes r2 d step).1 ->
  f = PointCloudPly step.
Proof.
  intros Hne H1 H2. apply file_owner in H1, H2.
  destruct f; try congruence.
Qed.

Lemma shared_file_is_point_cloud_witness :
  In (PointCloudPly 2)
     (train_step_writes (demo_runner 0 (with_switches false false false true (fun w => w) plain_cfg))
        demo_data 2).1 /\
  In (PointCloudPly 2)
     (train_step_writes (demo_runner 1 (with_switches false false false true (fun w => w) plain_cfg))
        demo_data 2).1 /\
  PointCloudPly 2 = PointCloudPly 2.
Proof.
  assert (H1 : In (PointCloudPly 2)
                 (train_step_writes
                    (demo_runner 0 (with_switches false false false true (fun w => w) plain_cfg))
                    demo_data 2).1).
  { vm_compute. auto 20. }
  assert (H2 : In (PointCloudPly 2)
                 (train_step_writes
                    (demo_runner 1 (with_switches false false false true (fun w => w) plain_cfg))
                    demo_data 2).1).
  { vm_compute. auto 20. }
  split; [exact H1|]. split; [exact H2|].
  refine (shared_file_is_point_cloud _ _ demo_data 2 _ _ H1 H2). discriminate.
Defined.

(** X17. A logging period of zero. With [cfg.tb_every = 0] the main loop logs
    nothing to tensorboard at any step - its test asks for a positive period
    first -, but the Retinex step takes the step number modulo the period
    unguarded: when the pre-training is enabled and has a step to run, [train]
    ends in a [ZeroDivisionError] at the first step of the pre-training,
    having written no more than the configuration dump. *)
Theorem zero_logging_period (r : Runner) (d : Data) :
  tb_every (cfg r) = 0%Z ->
  (forall step : Z, ~ In (TensorboardEvents "train") (train_step_writes r d step).1) /\
  (pretrain_retinex (cfg r) = true -> enable_retinex (cfg r) = true ->
   (0 < pretrain_steps (cfg r))%Z ->
   train_writes r d = (train_prologue_writes r, Some ZeroDivisionError)).
Proof.
  intros Htb. split.
  - intros step H. apply in_train_step_writes in H.
    destruct H as [[_ [_ H]]|[[[H|H] _]|[H|[[H _]|[[_ [H|H]]|[H|H]]]]]];
      try discriminate H.
    + rewrite Htb in H. discriminate H.
    + apply in_eval_writes in H as [_ H]. discriminate H.
    + apply in_eval_writes in H as [_ H]. discriminate H.
  - intros Hp He Hn. unfold train_writes, pretrain_writes. rewrite Hp, He. cbn [andb].
    rewrite seqZ_cons by exact Hn. cbn [pretrain_loop_writes].
    unfold retinex_train_step_writes. rewrite Htb. cbn [Z.eqb].
    by rewrite app_nil_r.
Qed.

Lemma zero_logging_period_witness :
  ~ In (TensorboardEvents "train")
       (train_step_writes (demo_runner 0 (with_period 0 plain_cfg)) demo_data 0).1.
Proof.
  refine (proj1 (zero_logging_period (demo_runner 0 (with_period 0 plain_cfg))
                   demo_data _) 0%Z).
  reflexivity.
Defined.

End LoopFacts.

(* ================================================================== *)
(** * The clipping penalty and the learned weighting *)

Module PenaltyFacts.
Import torch LossComposer RetinexLog Inputs Samples.

Lemma concat_img_map (f : R -> R) (a : Img) :
  concat (img_map f a) = map f (concat a).
Proof.
  unfold img_map. induction a as [|px a IH]; [reflexivity|].
  cbn [map concat]. by rewrite IH, map_app.
Qed.

Lemma vsum_nonneg (l : list R) : Forall (fun x => 0 <= x) l -> 0 <= vsum l.
Proof.
  unfold vsum. induction 1 as [|x l Hx _ IH]; cbn [foldr]; lra.
Qed.

Lemma vsum_zero (l : list R) :
  Forall (fun x => 0 <= x) l -> (vsum l = 0 <-> Forall (fun x => x = 0) l).
Proof.
  unfold vsum. induction 1 as [|x l Hx Hl IH]; cbn [foldr].
  - split; [constructor|reflexivity].
  - pose proof (vsum_nonneg l Hl) as Hs. unfold vsum in Hs. split.
    + intros H. constructor; [lra|]. apply IH. lra.
    + intros H. apply Forall_cons in H as [-> H]. apply IH in H. lra.
Qed.

(** The mean of a pointwise penalty over an image that is not empty. *)
Lemma mean_penalty (f : R -> R) (a : Img) :
  concat a <> [] ->
  (forall x : R, 0 <= f x) ->
  0 <= mean (img_map f a) /\
  (mean (img_map f a) = 0 <-> Forall (fun x => f x = 0) (concat a)).
Proof.
  intros Hne Hf. unfold mean. rewrite concat_img_map, length_map.
  assert (Hn : 0 < INR (length (concat a))).
  { apply lt_0_INR. destruct (concat a); [done|cbn; lia]. }
  assert (Hpos : Forall (fun x => 0 <= x) (map f (concat a))).
  { apply Forall_fmap, Forall_forall. intros x _. apply Hf. }
  pose proof (vsum_nonneg _ Hpos) as Hs. split.
  - unfold Rdiv. apply Rmult_le_pos; [exact Hs|]. left. by apply Rinv_0_lt_compat.
  - split.
    + intros H. apply (Rmult_eq_compat_r (INR (length (concat a)))) in H.
      unfold Rdiv in H. rewrite Rmult_assoc, Rinv_l in H by lra.
      assert (H0 : vsum (map f (concat a)) = 0) by lra.
      apply (vsum_zero _ Hpos) in H0. by apply Forall_fmap in H0.
    + intros H.
      assert (H0 : vsum (map f (concat a)) = 0).
      { apply (vsum_zero _ Hpos). by apply Forall_fmap. }
      rewrite H0. unfold Rdiv. lra.
Qed.

Lemma relu_sq_high (x : R) :
  0 <= relu (x - 98 / 100) ^ 2 /\ (relu (x - 98 / 100) ^ 2 = 0 <-> x <= 98 / 100).
Proof.
  unfold relu, Rmax.
  destruct (Rle_dec (x - 98 / 100) 0); split; try nra; split; intros H; nra.
Qed.

Lemma relu_sq_low (x : R) :
  0 <= relu (2 / 100 - x) ^ 2 /\ (relu (2 / 100 - x) ^ 2 = 0 <-> 2 / 100 <= x).
Proof.
  unfold relu, Rmax.
  destruct (Rle_dec (2 / 100 - x) 0); split; try nra; split; intros H; nra.
Qed.

Lemma Forall_concat (P : R -> Prop) (a : Img) :
  Forall P (concat a) <-> Forall (Forall P) a.
Proof.
  induction a as [|px a IH]; cbn [concat].
  - split; constructor.
  - rewrite Forall_app, Forall_cons, IH. tauto.
Qed.

Lemma clipping_parts_nonneg (reflectance_map : Img) :
  concat reflectance_map <> [] ->
  0 <= loss_clipping_high reflectance_map /\ 0 <= loss_clipping_low reflectance_map.
Proof.
  intros Hne. unfold loss_clipping_high, loss_clipping_low. split.
  - apply (mean_penalty (fun x => relu (x - 98 / 100) ^ 2) _ Hne).
    intros x. apply relu_sq_high.
  - apply (mean_penalty (fun x => relu (2 / 100 - x) ^ 2) _ Hne).
    intros x. apply relu_sq_low.
Qed.

(** X18. The clipping penalty of the Retinex step. Over a reflectance map that
    is not empty, both parts of the penalty are non-negative, and the
    penalty vanishes exactly when every entry of the map lies between 0.02
    and 0.98. *)
Theorem clipping_penalty_zero (reflectance_map : Img) :
  concat reflectance_map <> [] ->
  0 <= loss_clipping_high reflectance_map /\
  0 <= loss_clipping_low reflectance_map /\
  (loss_clipping_high reflectance_map + loss_clipping_low reflectance_map = 0
   <-> Forall (Forall (fun x => 2 / 100 <= x <= 98 / 100)) reflectance_map).
Proof.
  intros Hne. unfold loss_clipping_high, loss_clipping_low.
  destruct (mean_penalty (fun x => relu (x - 98 / 100) ^ 2) _ Hne) as [Hh Hh0];
    [intros x; apply relu_sq_high|].
  destruct (mean_penalty (fun x => relu (2 / 100 - x) ^ 2) _ Hne) as [Hl Hl0];
    [intros x; apply relu_sq_low|].
  split; [exact Hh|]. split; [exact Hl|].
  rewrite <- Forall_concat. split.
  - intros H.
    assert (H1 : mean (img_map (fun x => relu (x - 98 / 100) ^ 2) reflectance_map) = 0)
      by lra.
    assert (H2 : mean (img_map (fun x => relu (2 / 100 - x) ^ 2) reflectance_map) = 0)
      by lra.
    apply Hh0 in H1. apply Hl0 in H2.
    eapply Forall_impl; [apply Forall_and; split; [exact H1|exact H2]|].
    intros x [Hx Hy]. cbn beta in *.
    apply relu_sq_high in Hx. apply relu_sq_low in Hy. lra.
  - intros H.
    assert (H1 : mean (img_map (fun x => relu (x - 98 / 100) ^ 2) reflectance_map) = 0).
    { apply Hh0. eapply Forall_impl; [exact H|]. intros x Hx. cbn beta in *.
      apply relu_sq_high. lra. }
    assert (H2 : mean (img_map (fun x => relu (2 / 100 - x) ^ 2) reflectance_map) = 0).
    { apply Hl0. eapply Forall_impl; [exact H|]. intros x Hx. cbn beta in *.
      apply relu_sq_low. lra. }
    lra.
Qed.

Lemma clipping_penalty_zero_witness :
  loss_clipping_high [[1 / 2]] + loss_clipping_low [[1 / 2]] = 0.
Proof.
  apply (clipping_penalty_zero [[1 / 2]]); [discriminate|].
  repeat constructor; lra.
Defined.

Lemma vsum_pair_bound (f g : R -> R) (c : R) (l : list R) :
  Forall (fun x => f x + g x <= c) l ->
  vsum (map f l) + vsum (map g l) <= INR (length l) * c.
Proof.
  unfold vsum. induction 1 as [|x l Hx _ IH].
  - cbn. lra.
  - change (length (x :: l)) with (S (length l)). rewrite S_INR.
    cbn [map foldr]. lra.
Qed.

Section Step.

Variable Emb : Type.
Variable Aux : Type.
Variable retinex_embeds : list nat -> Emb.
Variable retinex_net : Img -> Emb -> Retinex.NetOut Aux.
Variable L : LossModules Aux.
Variable global_mean_val_param : R.
Variable log_vars : list R.

(** X19. The weight of the clipping penalty in the loss of the Retinex step.
    The returned reflectance map is clamped to [0, 1], so an entry is at
    most 0.02 beyond the band from 0.02 to 0.98 and on one side of it only:
    the loss that [retinex_train_step] returns exceeds the weighted total of
    the twelve terms by at least zero and at most 0.0004. *)
Theorem clipping_penalty_bounded (c : Config) (ids : list nat) (pixels : Img) :
  concat (Retinex.reflectance_map retinex_embeds retinex_net
            (use_hsv_color_space c) ids pixels) <> [] ->
  weighted_total log_vars c
    (individual_losses retinex_embeds retinex_net L global_mean_val_param c ids pixels)
  <= retinex_train_step retinex_embeds retinex_net L global_mean_val_param log_vars
       c ids pixels
  <= weighted_total log_vars c
       (individual_losses retinex_embeds retinex_net L global_mean_val_param
          c ids pixels)
     + 4 / 10 ^ 4.
Proof.
  intros Hne. unfold retinex_train_step, lambda_clipping.
  set (rm := Retinex.reflectance_map retinex_embeds retinex_net
               (use_hsv_color_space c) ids pixels) in *.
  destruct (clipping_parts_nonneg rm Hne) as (Hh & Hl).
  split; [lra|].
  assert (Hsum : loss_clipping_high rm + loss_clipping_low rm <= 4 / 10 ^ 4).
  { unfold loss_clipping_high, loss_clipping_low, mean.
    rewrite !concat_img_map, !length_map.
    assert (Hn : 0 < INR (length (concat rm))).
    { apply lt_0_INR. destruct (concat rm); [done|cbn; lia]. }
    pose proof (RetinexFacts.reflectance_range Emb Aux retinex_embeds retinex_net
                  (use_hsv_color_space c) ids pixels) as Hr.
    fold rm in Hr. apply Forall_concat in Hr.
    pose proof (vsum_pair_bound (fun x => relu (x - 98 / 100) ^ 2)
                  (fun x => relu (2 / 100 - x) ^ 2) (4 / 10 ^ 4) (concat rm)) as Hb.
    assert (Hb' : vsum (map (fun x => relu (x - 98 / 100) ^ 2) (concat rm))
                  + vsum (map (fun x => relu (2 / 100 - x) ^ 2) (concat rm))
                  <= INR (length (concat rm)) * (4 / 10 ^ 4)).
    { apply Hb. eapply Forall_impl; [exact Hr|]. intros x [H0 H1]. cbn beta.
      unfold relu, Rmax.
      destruct (Rle_dec (x - 98 / 100) 0); destruct (Rle_dec (2 / 100 - x) 0); nra. }
    clear Hb.
    set (s1 := vsum (map (fun x => relu (x - 98 / 100) ^ 2) (concat rm))) in *.
    set (s2 := vsum (map (fun x => relu (2 / 100 - x) ^ 2) (concat rm))) in *.
    set (n := INR (length (concat rm))) in *.
    replace (s1 / n + s2 / n) with ((s1 + s2) * / n) by (field; lra).
    apply (Rmult_le_reg_r n); [exact Hn|].
    rewrite Rmult_assoc, Rinv_l by lra. lra. }
  lra.
Qed.

End Step.

Lemma clipping_penalty_bounded_witness :
  retinex_train_step no_embeds zero_net zero_modules 0 zero_log_vars retinex_cfg
    [0%nat] red_pixels
  <= weighted_total zero_log_vars retinex_cfg
       (individual_losses no_embeds zero_net zero_modules 0 retinex_cfg
          [0%nat] red_pixels)
     + 4 / 10 ^ 4.
Proof.
  apply (clipping_penalty_bounded unit unit no_embeds zero_net zero_modules 0
           zero_log_vars retinex_cfg [0%nat] red_pixels).
  discriminate.
Defined.

(** One term of the learned weighting against its least value. *)
Lemma kendall_term_bound (a v : R) :
  0 < a -> (1 + ln a) / 2 <= a * exp (- v) / 2 + 5 / 10 * v.
Proof.
  intros Ha.
  assert (H : a * exp (- v) = exp (ln a - v)).
  { unfold Rminus. by rewrite exp_plus, exp_ln. }
  pose proof (exp_ineq1_le (ln a - v)). rewrite H. lra.
Qed.

Lemma kendall_bound (ws ls vs : list R) :
  length ws = length ls -> length ls = length vs ->
  Forall (fun a => 0 < a) (vmul ws ls) ->
  vsum (map (fun a => (1 + ln a) / 2) (vmul ws ls)) <= term1 ws ls vs + term2 vs.
Proof.
  unfold term1, term2, vmul, vsum.
  revert ls vs. induction ws as [|w ws IH]; intros [|l ls] [|v vs] Hl Hv Hpos;
    try discriminate; [cbn; lra|].
  cbn [zip_with map foldr] in *. apply Forall_cons in Hpos as [Ha Hpos].
  specialize (IH ls vs ltac:(by injection Hl) ltac:(by injection Hv) Hpos).
  pose proof (kendall_term_bound (w * l) v Ha). lra.
Qed.

Lemma kendall_attained (ws ls : list R) :
  length ws = length ls ->
  Forall (fun a => 0 < a) (vmul ws ls) ->
  term1 ws ls (map ln (vmul ws ls)) + term2 (map ln (vmul ws ls))
  = vsum (map (fun a => (1 + ln a) / 2) (vmul ws ls)).
Proof.
  unfold term1, term2, vmul, vsum.
  revert ls. induction ws as [|w ws IH]; intros [|l ls] Hl Hpos;
    try discriminate; [cbn; lra|].
  cbn [zip_with map foldr] in *. apply Forall_cons in Hpos as [Ha Hpos].
  specialize (IH ls ltac:(by injection Hl) Hpos).
  rewrite exp_Ropp, exp_ln by exact Ha.
  assert (H1 : w * l * / (w * l) = 1) by (apply Rinv_r; lra).
  rewrite H1. lra.
Qed.

(** X20. The floor of the learned weighting. With the learned weights in use
    and every weighted term [static_weight_i * loss_i] positive, the total
    of the twelve terms is, whatever the log-variances are, at least the sum
    of [(1 + ln(static_weight_i * loss_i)) / 2], and it is exactly that sum
    when each log-variance is [ln(static_weight_i * loss_i)]: the total can
    fall below zero as the terms get small. *)
Theorem learned_weighting_floor (c : Config) (losses log_vars : list R) :
  enable_dynamic_weights c = true ->
  multi_scale_retinex c = true ->
  length losses = 12%nat ->
  length log_vars = 12%nat ->
  Forall (fun a => 0 < a) (vmul (base_lambdas c) losses) ->
  vsum (map (fun a => (1 + ln a) / 2) (vmul (base_lambdas c) losses))
  <= weighted_total log_vars c losses /\
  weighted_total (map ln (vmul (base_lambdas c) losses)) c losses
  = vsum (map (fun a => (1 + ln a) / 2) (vmul (base_lambdas c) losses)).
Proof.
  intros Hd Hm Hl Hv Hpos. unfold weighted_total. rewrite Hd, Hm. cbn [andb]. split.
  - apply kendall_bound; [by rewrite Hl|by rewrite Hl, Hv|exact Hpos].
  - apply kendall_attained; [by rewrite Hl|exact Hpos].
Qed.

Lemma learned_weighting_floor_witness :
  vsum (map (fun a => (1 + ln a) / 2) (vmul (base_lambdas learned_cfg) ones))
  <= weighted_total zero_log_vars learned_cfg ones.
Proof.
  apply (learned_weighting_floor learned_cfg ones zero_log_vars);
    try reflexivity.
  cbn. repeat constructor; lra.
Defined.

End PenaltyFacts.

(* ================================================================== *)
(** * What the rasterization entry point returns, and the colours of a
      step *)

Module RenderFacts.
Import torch Scene Raster Step Inputs Samples.

Section Rasterize.

Variable Ten : Type.
Variable Cams : Type.
Variable Info : Type.
Variable ops : TensorOps Ten.
Variable rasterization : RasterArgs Ten -> Cams -> Img * Img * Info.
Variable rasterization_dual :
  RasterArgs Ten -> Ten -> Cams -> Img * Img * Img * Img * Info.
Variable app_module : Ten -> option (list nat) -> Ten -> Cams -> Ten.
Variable illum_module : option (list nat) -> Ten * Ten.

Lemma plain_branch_masks (c : Config) (t : gmap string Ten) (cams : Cams)
    (masks : option (list bool)) (image_ids : option (list nat)) :
  enable_retinex c = false ->
  rasterize_splats ops rasterization rasterization_dual app_module illum_module
    c t cams masks image_ids
  = match rasterize_splats ops rasterization rasterization_dual app_module
            illum_module c t cams None image_ids with
    | Ok (Raw render_colors render_alphas info) =>
        Ok (Raw (apply_masks masks render_colors) render_alphas info)
    | other => other
    end.
Proof.
  intros He. unfold rasterize_splats, getitem. rewrite He. cbn [negb].
  repeat first
    [ progress cbn [mbind result_bind apply_masks]
    | reflexivity
    | match goal with
      | |- context [match ?m !! ?k with _ => _ end] => destruct (m !! k)
      | |- context [if app_opt c then _ else _] => destruct (app_opt c)
      | |- context [rasterization ?x ?y] => destruct (rasterization x y) as [[? ?] ?]
      end ].
Qed.

Lemma plain_branch_raw (c : Config) (t : gmap string Ten) (cams : Cams)
    (masks : option (list bool)) (image_ids : option (list nat))
    (out0 : RasterOut Info) :
  enable_retinex c = false ->
  rasterize_splats ops rasterization rasterization_dual app_module illum_module
    c t cams masks image_ids = Ok out0 ->
  match out0 with Raw _ _ _ => True | Dual _ _ _ _ _ => False end.
Proof.
  intros He. unfold rasterize_splats, getitem. rewrite He. cbn [negb].
  repeat first
    [ progress cbn [mbind result_bind]
    | discriminate
    | match goal with
      | |- Ok _ = Ok _ -> _ => intros [= <-]; exact I
      | |- Raise _ = Ok _ -> _ => discriminate
      | |- context [match ?m !! ?k with _ => _ end] => destruct (m !! k)
      | |- context [if app_opt c then _ else _] => destruct (app_opt c)
      | |- context [rasterization ?x ?y] => destruct (rasterization x y) as [[? ?] ?]
      end ].
Qed.

(** X21. The masks act on the plain branch only. With the Retinex pipeline
    enabled [rasterize_splats] does not use its masks: the dual renderer is
    called without them and the result is the same for any two masks. With
    the pipeline disabled the result for a mask is the result without one,
    with all the channels of every position whose mask entry is [False] set
    to zero and every other position, and the opacities, as rendered. *)
Theorem masks_on_plain_branch_only (c : Config) (t : gmap string Ten) (cams : Cams)
    (image_ids : option (list nat)) :
  (enable_retinex c = true ->
   forall masks masks' : option (list bool),
     rasterize_splats ops rasterization rasterization_dual app_module illum_module
       c t cams masks image_ids
     = rasterize_splats ops rasterization rasterization_dual app_module illum_module
         c t cams masks' image_ids) /\
  (enable_retinex c = false ->
   forall (m : list bool) (out0 : RasterOut Info),
     rasterize_splats ops rasterization rasterization_dual app_module illum_module
       c t cams None image_ids = Ok out0 ->
     exists (colors0 colors alphas : Img) (info : Info),
       out0 = Raw colors0 alphas info /\
       rasterize_splats ops rasterization rasterization_dual app_module illum_module
         c t cams (Some m) image_ids = Ok (Raw colors alphas info) /\
       length colors = length colors0 /\
       forall (i : nat) (px : list R),
         colors0 !! i = Some px ->
         colors !! i = Some (match m !! i with
                             | Some false => map (fun _ => 0) px
                             | _ => px
                             end)).
Proof.
  split.
  - intros He masks masks'. unfold rasterize_splats. rewrite He. reflexivity.
  - intros He m out0 H0.
    pose proof (plain_branch_masks c t cams (Some m) image_ids He) as Hm.
    pose proof (plain_branch_raw c t cams None image_ids out0 He H0) as Hraw.
    rewrite H0 in Hm.
    destruct out0 as [colors0 alphas info|? ? ? ? ?]; [|contradiction].
    exists colors0, (apply_masks (Some m) colors0), alphas, info.
    split; [reflexivity|]. split; [exact Hm|]. cbn [apply_masks]. split.
    + apply length_imap.
    + intros i px Hpx. rewrite list_lookup_imap, Hpx. reflexivity.
Qed.

(** X22. The scene that the construction returns can be rendered. On a table of
    tensors with the groups that [create_splats_with_optimizers] returned,
    [rasterize_splats] finds every group it reads - no [KeyError] - and
    returns five values when the Retinex pipeline is enabled and three
    otherwise, which is what the callers tell the two cases apart by. *)
Theorem rasterize_fresh_scene (parser : Parser) (a : SplatArgs)
    (shapes : gmap string (list nat)) (opts : gmap string Optimizer)
    (c : Config) (t : gmap string Ten) (cams : Cams)
    (masks : option (list bool)) (image_ids : option (list nat)) :
  create_splats_with_optimizers parser a = Ok (shapes, opts) ->
  dom t = dom shapes ->
  app_opt c = false ->
  exists out : RasterOut Info,
    rasterize_splats ops rasterization rasterization_dual app_module illum_module
      c t cams masks image_ids = Ok out /\
    out_len out = (if enable_retinex c then 5 else 3)%nat.
Proof.
  intros Hcreate Hdom Happ.
  destruct (SceneFacts.create_Ok _ _ _ _ Hcreate) as (N & -> & _).
  assert (Hk : forall (k : string) (s : list nat),
             dict_of (map (fun p => (p.1.1, p.1.2)) (sh_params a N)) !! k = Some s ->
             exists x : Ten, t !! k = Some x).
  { intros k s Hs. apply elem_of_dom. rewrite Hdom. apply elem_of_dom. by exists s. }
  destruct (Hk "means"%string _ eq_refl) as [means Hmeans].
  destruct (Hk "quats"%string _ eq_refl) as [quats Hquats].
  destruct (Hk "scales"%string _ eq_refl) as [scales Hscales].
  destruct (Hk "opacities"%string _ eq_refl) as [opacities Hopacities].
  destruct (Hk "sh0"%string _ eq_refl) as [sh0 Hsh0].
  destruct (Hk "shN"%string _ eq_refl) as [shN HshN].
  destruct (Hk "adjust_k"%string _ eq_refl) as [adjust_k Hadjust_k].
  destruct (Hk "adjust_b"%string _ eq_refl) as [adjust_b Hadjust_b].
  unfold rasterize_splats, getitem.
  rewrite Hmeans, Hquats, Hscales, Hopacities, Hsh0, HshN, Hadjust_k, Hadjust_b, Happ.
  cbn [mbind result_bind].
  destruct (enable_retinex c); cbn [negb].
  - destruct (use_illum_opt c); [destruct (illum_module image_ids)|];
      cbn [mbind result_bind];
      destruct (rasterization_dual _ _ cams) as [[[[? ?] ?] ?] ?];
      eexists; split; reflexivity.
  - destruct (rasterization _ cams) as [[? ?] ?]. eexists; split; reflexivity.
Qed.

End Rasterize.

Lemma masks_on_plain_branch_only_witness :
  rasterize_splats scalar_ops white_rasterization white_rasterization_dual
    plain_app_module unit_illum_module retinex_cfg demo_splats tt (Some [false]) None
  = rasterize_splats scalar_ops white_rasterization white_rasterization_dual
      plain_app_module unit_illum_module retinex_cfg demo_splats tt None None /\
  exists (colors0 colors alphas : Img) (info : unit),
    Raw [[1]] [[0]] tt = Raw colors0 alphas info /\
    rasterize_splats scalar_ops white_rasterization white_rasterization_dual
      plain_app_module unit_illum_module plain_cfg demo_splats tt (Some [false]) None
    = Ok (Raw colors alphas info) /\
    length colors = length colors0 /\
    forall (i : nat) (px : list R),
      colors0 !! i = Some px ->
      colors !! i = Some (match [false] !! i with
                          | Some false => map (fun _ => 0) px
                          | _ => px
                          end).
Proof.
  split.
  - apply (masks_on_plain_branch_only R unit unit scalar_ops white_rasterization
             white_rasterization_dual plain_app_module unit_illum_module retinex_cfg
             demo_splats tt None).
    reflexivity.
  - apply (proj2 (masks_on_plain_branch_only R unit unit scalar_ops
                    white_rasterization white_rasterization_dual plain_app_module
                    unit_illum_module plain_cfg demo_splats tt None)
                 eq_refl [false] (Raw [[1]] [[0]] tt)).
    reflexivity.
Defined.

Lemma rasterize_fresh_scene_witness :
  exists out : RasterOut unit,
    rasterize_splats scalar_ops white_rasterization white_rasterization_dual
      plain_app_module unit_illum_module retinex_cfg demo_splats tt None None = Ok out /\
    out_len out = 5%nat.
Proof.
  refine (rasterize_fresh_scene R unit unit scalar_ops white_rasterization
            white_rasterization_dual plain_app_module unit_illum_module
            demo_parser (demo_args 1 0 1) _ _ retinex_cfg demo_splats tt None None
            eq_refl _ eq_refl).
  vm_compute. reflexivity.
Defined.

Section Colours.

Variable slice_func : Img -> list nat -> Img.
Variable bkgd : list R.

(** X23. The colours that enter the losses of a step. Without the bilateral
    grid, the rendered colours are clamped to [0, 1] and stay there unless
    the random background is on; the background is added after the clamp and
    nothing is clamped again, so that with a background colour in [0, 1) and
    opacities in [0, 1] the colours lie in [0, 2), and may exceed the range
    of the ground truth, which is clamped to [0, 1]. *)
Theorem prepared_colors_range (c : Config) (image_ids : list nat)
    (renders alphas : Tracked Img) :
  use_bilateral_grid c = false ->
  (random_bkgd c = false ->
   Forall (Forall (fun x => 0 <= x <= 1))
          (val (prepare_colors slice_func bkgd c image_ids renders alphas))) /\
  (random_bkgd c = true ->
   Forall (fun b => 0 <= b < 1) bkgd ->
   Forall (Forall (fun al => 0 <= al <= 1)) (val alphas) ->
   Forall (Forall (fun x => 0 <= x < 2))
          (val (prepare_colors slice_func bkgd c image_ids renders alphas))).
Proof.
  intros Hgrid. unfold prepare_colors. rewrite Hgrid.
  assert (Hclamp : Forall (Forall (fun x => 0 <= x <= 1))
                          (val (clamp01 (ap1 colors_of renders)))).
  { unfold clamp01, ap1, img_map. cbn [val].
    apply Forall_fmap, Forall_forall. intros px _. cbn [compose].
    apply Forall_fmap, Forall_forall. intros x _. cbn [compose].
    apply RetinexFacts.clamp_bounds. lra. }
  split.
  - intros ->. exact Hclamp.
  - intros -> Hb Ha. unfold ap2, add_bkgd. cbn [val].
    revert Hclamp Ha. generalize (val (clamp01 (ap1 colors_of renders))).
    generalize (val alphas). clear renders alphas.
    intros alphas colors Hc. revert alphas.
    induction Hc as [|px colors Hpx _ IH]; intros alphas Ha; [constructor|].
    destruct Ha as [|al alphas Hal Ha]; [constructor|].
    cbn [zip_with]. constructor; [|by apply IH].
    assert (Hhead : 0 <= default 0 (head al) <= 1).
    { destruct Hal as [|h al Hh _]; cbn; lra. }
    clear IH Ha. revert Hb. generalize bkgd as bk. 
    induction Hpx as [|x px Hx _ IH]; intros bk Hb; [constructor|].
    destruct Hb as [|b bk Hb0 Hb]; [constructor|].
    cbn [zip_with]. constructor; [nra|by apply IH].
Qed.

End Colours.

Lemma prepared_colors_range_witness :
  Forall (Forall (fun x => 0 <= x <= 1))
         (val (prepare_colors (fun a _ => a) [] plain_cfg [0%nat]
                 (rendered [[3; 1 / 2; - 1]]) (rendered [[1]]))).
Proof.
  refine (proj1 (prepared_colors_range (fun a _ => a) [] plain_cfg [0%nat]
                   (rendered [[3; 1 / 2; - 1]]) (rendered [[1]]) eq_refl) eq_refl).
Defined.

End RenderFacts.

(* ================================================================== *)
(** * What the Retinex step logs *)

Module LogFacts.
Import torch LossComposer RetinexLog Inputs Samples.

(** X24. The logged terms add up to the logged total. For twelve terms (and
    twelve log-variances where the learned weights are in use),
    [retinex_train_step] logs one record per name of [loss_names], in their
    order, each with the unweighted value of its term; the weighted values
    logged, plus half of every logged log-variance, add up to the value
    logged as the total - which is the total before the clipping penalty is
    added. When the dynamic weights are enabled without the multi-scale
    network, the records are logged under the names of the learned
    weighting although the weighting is the fixed one: the weighted values
    are [static_weight_i * loss_i], the log-variances are zero and the
    effective weights are the static weights. *)
Theorem logged_terms_add_up (log_vars : list R) (c : Config) (losses : list R) :
  length losses = 12%nat ->
  (enable_dynamic_weights c && multi_scale_retinex c = true ->
   length log_vars = 12%nat) ->
  exists terms : list TermLog,
    logged_terms log_vars c losses = Ok (weighted_total log_vars c losses, terms) /\
    map name terms = loss_names /\
    map unweighted terms = losses /\
    vsum (map weighted terms)
    + vsum (map (fun t => 5 / 10 * default 0 (log_var t)) terms)
    = weighted_total log_vars c losses /\
    (enable_dynamic_weights c = true -> multi_scale_retinex c = false ->
     map weighted_tag terms = replicate 12 "weighted_kendall"%string /\
     map weighted terms = vmul losses (base_lambdas c) /\
     map log_var terms = replicate 12 (Some 0) /\
     map effective_weight terms = map Some (base_lambdas c)).
Proof.
  intros Hl Hv.
  destruct (LossFacts.twelve _ Hl) as (l0 & l1 & l2 & l3 & l4 & l5 & l6 & l7 & l8 & l9
                                      & l10 & l11 & ->).
  unfold logged_terms, term_log, logged_weights, logged_log_vars, weighted_total.
  destruct (enable_dynamic_weights c) eqn:Ed; destruct (multi_scale_retinex c) eqn:Em;
    cbn [andb] in *.
  - destruct (LossFacts.twelve _ (Hv eq_refl))
      as (v0 & v1 & v2 & v3 & v4 & v5 & v6 & v7 & v8 & v9 & v10 & v11 & ->).
    eexists. split; [reflexivity|]. split; [reflexivity|]. split; [reflexivity|].
    split; [|discriminate].
    unfold term1, term2, vsum, vmul, base_lambdas.
    cbn [map zip_with foldr weighted log_var from_option]. unfold Datatypes.id. lra.
  - eexists. split; [reflexivity|]. split; [reflexivity|]. split; [reflexivity|].
    split.
    + unfold vsum, vmul, base_lambdas.
      cbn [map zip_with foldr weighted log_var from_option]. unfold Datatypes.id. lra.
    + intros _ _. repeat split; reflexivity.
  - eexists. split; [reflexivity|]. split; [reflexivity|]. split; [reflexivity|].
    split; [|discriminate].
    unfold vsum, vmul, base_lambdas.
    cbn [map zip_with foldr weighted log_var from_option]. unfold Datatypes.id. lra.
  - eexists. split; [reflexivity|]. split; [reflexivity|]. split; [reflexivity|].
    split; [|discriminate].
    unfold vsum, vmul, base_lambdas.
    cbn [map zip_with foldr weighted log_var from_option]. unfold Datatypes.id. lra.
Qed.

Lemma logged_terms_add_up_witness :
  exists terms : list TermLog,
    logged_terms zero_log_vars learned_cfg ones
    = Ok (weighted_total zero_log_vars learned_cfg ones, terms) /\
    map name terms = loss_names.
Proof.
  destruct (logged_terms_add_up zero_log_vars learned_cfg ones eq_refl
              (fun _ => eq_refl)) as (terms & H & Hn & _).
  exists terms. split; [exact H|exact Hn].
Defined.

End LogFacts.

(* ================================================================== *)
(** * The product of the decomposition, and the scene after compression *)

Module ProductFacts.
Import torch Inputs Samples.

Section Facts.

Variable Emb : Type.
Variable Aux : Type.
Variable retinex_embeds : list nat -> Emb.
Variable retinex_net : Img -> Emb -> Retinex.NetOut Aux.

(** X25. The product of the two returned maps in the RGB mode. At an entry
    of a pixel value that is not negative and where the illumination floor
    of [1e-5] does not trigger, the returned illumination times the returned
    reflectance is the smaller of the pixel value plus epsilon and the
    illumination: the reconstruction is exact as long as the pixel is not
    brighter than the illumination, never overshoots, and saturates at the
    illumination, where the clamp holds the reflectance at 1. *)
Theorem rgb_product_is_min (ids : list nat) (pixels : Img) (i c : nat) (x l : R) :
  at_ pixels i c = Some x ->
  at_ (Retinex.log_illumination_map
         (Retinex.net_out retinex_embeds retinex_net false ids pixels)) i c = Some l ->
  0 <= x ->
  1 / 10 ^ 5 <= exp l ->
  exists a r : R,
    at_ (Retinex.illumination_map retinex_embeds retinex_net false ids pixels) i c
    = Some a /\
    at_ (Retinex.reflectance_map retinex_embeds retinex_net false ids pixels) i c
    = Some r /\
    a * r = Rmin (x + finfo_eps) a.
Proof.
  intros Hx Hl Hx0 Hfloor. pose proof RetinexFacts.finfo_eps_pos as Heps.
  exists (exp l), (clamp 0 1 (exp (ln (x + finfo_eps) - l))).
  split; [|split].
  - rewrite (RetinexFacts.illumination_at Emb Aux retinex_embeds retinex_net
               false ids pixels i c l Hl).
    by rewrite RetinexFacts.clamp_min_id.
  - unfold Retinex.reflectance_map, Retinex.reflectance_unclamped.
    rewrite RetinexFacts.at_img_map.
    by rewrite (RetinexFacts.reflectance_v_at Emb Aux retinex_embeds retinex_net
                  false ids pixels i c x l Hx Hl).
  - pose proof (RetinexFacts.exp_ln_minus (x + finfo_eps) l ltac:(lra)) as Hprod.
    pose proof (exp_pos l) as Ha.
    pose proof (exp_pos (ln (x + finfo_eps) - l)) as Hrv.
    set (a := exp l) in *. set (rv := exp (ln (x + finfo_eps) - l)) in *.
    unfold clamp, Rmin, Rmax.
    repeat destruct Rle_dec; nra.
Qed.

End Facts.

Lemma rgb_product_is_min_witness :
  exists a r : R,
    at_ (Retinex.illumination_map no_embeds zero_net false [0%nat] red_pixels) 0 0
    = Some a /\
    at_ (Retinex.reflectance_map no_embeds zero_net false [0%nat] red_pixels) 0 0
    = Some r /\
    a * r = Rmin (1 / 2 + finfo_eps) a.
Proof.
  apply (rgb_product_is_min unit unit no_embeds zero_net [0%nat] red_pixels 0 0
           (1 / 2) 0).
  - reflexivity.
  - reflexivity.
  - lra.
  - rewrite exp_0. lra.
Defined.

End ProductFacts.

Module RecompressFacts.
Import Scene Recompress Inputs Samples.

Section Facts.

Variable Ten : Type.
Variable codec : gmap string Ten -> gmap string Ten.

Lemma assign_raise (e : Exn) (l : list (string * Ten)) :
  foldl assign (Raise e) l = Raise e.
Proof. induction l as [|kv l IH]; [reflexivity|exact IH]. Qed.

Lemma assign_cons (k : string) (v : Ten) (l : list (string * Ten))
    (s : gmap string Ten) :
  foldl assign (Ok s) ((k, v) :: l)
  = foldl assign (match s !! k with
                  | Some _ => Ok (<[k := v]> s)
                  | None => Raise (KeyError k)
                  end) l.
Proof.
  cbn [foldl]. f_equal. unfold assign, Raster.getitem. cbn [mbind result_bind fst snd].
  by destruct (s !! k).
Qed.

(** The assignments of a list of distinct keys, one after the other. *)
Lemma foldl_assign (l : list (string * Ten)) (s : gmap string Ten) :
  NoDup l.*1 ->
  (Forall (fun kv => is_Some (s !! kv.1)) l ->
   foldl assign (Ok s) l = Ok (list_to_map l ∪ s)) /\
  (forall s' : gmap string Ten,
      foldl assign (Ok s) l = Ok s' -> Forall (fun kv => is_Some (s !! kv.1)) l).
Proof.
  revert s. induction l as [|[k v] l IH]; intros s Hnd.
  - split; [intros _; cbn; by rewrite (left_id_L ∅ (∪))|constructor].
  - apply NoDup_cons in Hnd as [Hk Hnd]. rewrite assign_cons.
    assert (Hfresh : (list_to_map l : gmap string Ten) !! k = None).
    { by apply not_elem_of_list_to_map_1. }
    destruct (s !! k) as [x|] eqn:Ek.
    + destruct (IH (<[k := v]> s) Hnd) as [IH1 IH2]. split.
      * intros Hall. apply Forall_cons in Hall as [_ Hall].
        rewrite IH1.
        -- f_equal. cbn [list_to_map foldr fst snd uncurry].
           rewrite <- insert_union_r by exact Hfresh.
           by rewrite insert_union_l.
        -- eapply Forall_impl; [exact Hall|]. intros [k' v'] Hs. cbn [fst] in *.
           destruct (decide (k = k')) as [<-|Hne];
             [rewrite lookup_insert_eq; eauto|by rewrite lookup_insert_ne].
      * intros s' Hs'. constructor; [cbn [fst]; eauto|].
        specialize (IH2 s' Hs'). eapply Forall_impl; [exact IH2|].
        intros [k' v'] Hs. cbn [fst] in *.
        destruct (decide (k = k')) as [<-|Hne]; [eauto|].
        by rewrite lookup_insert_ne in Hs.
    + rewrite assign_raise. split.
      * intros Hall. apply Forall_cons in Hall as [[x Hx] _]. cbn [fst] in Hx.
        congruence.
      * intros s' Hs'. discriminate Hs'.
Qed.


End Facts.


End RecompressFacts.

